(** * Execution metrics of the career-planning agent: [observability.py]

    A shallow embedding of the metrics core of [src/observability.py]
    ([ExecutionMetrics], [WorkflowMetrics], [MetricsCollector]) and the
    properties of its duration bookkeeping, its size totals, its
    parallel-efficiency ratio and its summary.

    Number model.  Python [int] is [Z].  Python [float] is read twice.
    In the exact reading (modules [ExecutionMetrics], [WorkflowMetrics]
    and [MetricsCollector]) a float is a rational [Q] and the arithmetic
    is carried out without rounding; it is used for what does not depend
    on rounding: which guard of [get_parallel_efficiency] fires and
    whether a call raises, the integer totals, the lists, the shape of
    the mappings, the sharing of objects.  In the double reading (module
    [Binary64], the same classes once more) a float is an IEEE double
    and every operation on floats is the correctly rounded operation
    that Python executes, NaN and the infinities included; the statements
    about the values of durations, sums and efficiencies are made
    there.

    Objects.  [WorkflowMetrics] instances are mutated through references
    shared by the caller and the collector, so they live in a heap indexed
    by references.  An [ExecutionMetrics] is stored by value in the
    [agents] list of its workflow: no operation of the module mutates a
    record once it has been added.

    Not modelled: logging, file output, the dashboard's text and HTML. *)

From Stdlib Require Import ZArith QArith List String Ascii Bool Lia Lqa.
From Stdlib Require Import Floats.
Import ListNotations.

(** ** Python results: a value or a raised exception *)

Inductive exn : Type :=
| ZeroDivisionError
| ValueError.

Inductive result (A : Type) : Type :=
| Ok (a : A)
| Raise (e : exn).

Arguments Ok {A} a.
Arguments Raise {A} e.

Definition rbind {A B : Type} (r : result A) (k : A -> result B) : result B :=
  match r with
  | Ok a => k a
  | Raise e => Raise e
  end.

Notation "x <- r ;; k" := (rbind r (fun x => k))
  (at level 61, r at next level, right associativity).

(** [[f(x) for x in xs]] where [f] may raise: the first exception, in list
    order, is the one that propagates. *)
Fixpoint list_comprehension {A B : Type} (f : A -> result B) (xs : list A)
  : result (list B) :=
  match xs with
  | [] => Ok []
  | x :: xs' =>
      y <- f x ;;
      ys <- list_comprehension f xs' ;;
      Ok (y :: ys)
  end.

(** ** The builtins used by the module *)

Module Builtins.

Open Scope Q_scope.

(** [sum(iterable)] over floats: starts from [0] and adds from the left. *)
Definition sum (xs : list Q) : Q := fold_left Qplus xs 0.

(** [sum(iterable)] over ints. *)
Definition sum_int (xs : list Z) : Z := fold_left Z.add xs 0%Z.

(** [max(iterable)]: the first item is the candidate; a later item
    replaces it when it is strictly greater.  An empty iterable raises
    [ValueError]. *)
Definition max_step (m x : Q) : Q :=
  match x ?= m with
  | Gt => x
  | _ => m
  end.

Definition max (xs : list Q) : result Q :=
  match xs with
  | [] => Raise ValueError
  | x :: xs' => Ok (fold_left max_step xs' x)
  end.

(** [x / y] on floats raises [ZeroDivisionError] when [y == 0]. *)
Definition truediv (x y : Q) : result Q :=
  if Qeq_bool y 0 then Raise ZeroDivisionError else Ok (x / y).

(** [len(xs)], as the float it becomes when multiplied with a float. *)
Definition len_float {A : Type} (xs : list A) : Q :=
  inject_Z (Z.of_nat (List.length xs)).

End Builtins.

(** ** [datetime] and [timedelta]

    Naive datetimes, as [datetime.now()] returns them.  The constructor of
    the library keeps the fields in their calendar ranges. *)

Module Datetime.

Open Scope Z_scope.

Record datetime : Type := mk_datetime {
  year : Z;
  month : Z;
  day : Z;
  hour : Z;
  minute : Z;
  second : Z;
  microsecond : Z
}.

Record timedelta : Type := mk_timedelta {
  days : Z;
  seconds : Z;
  microseconds : Z
}.

Definition is_leap (y : Z) : bool :=
  (y mod 4 =? 0) && (negb (y mod 100 =? 0) || (y mod 400 =? 0)).

Definition days_before_year (y : Z) : Z :=
  let p := y - 1 in
  p * 365 + p / 4 - p / 100 + p / 400.

Definition DAYS_BEFORE_MONTH : list Z :=
  [-1; 0; 31; 59; 90; 120; 151; 181; 212; 243; 273; 304; 334].

Definition days_before_month (y m : Z) : Z :=
  nth (Z.to_nat m) DAYS_BEFORE_MONTH 0
  + (if (2 <? m) && is_leap y then 1 else 0).

Definition toordinal (d : datetime) : Z :=
  days_before_year (year d) + days_before_month (year d) (month d) + day d.

(** [timedelta(days, seconds, microseconds)] normalises its arguments:
    [0 <= microseconds < 10**6] and [0 <= seconds < 86400]. *)
Definition timedelta_new (d s us : Z) : timedelta :=
  let s' := s + us / 1000000 in
  {| days := d + s' / 86400;
     seconds := s' mod 86400;
     microseconds := us mod 1000000 |}.

(** [self - other] for two naive datetimes. *)
Definition sub (self other : datetime) : timedelta :=
  let secs1 := second self + minute self * 60 + hour self * 3600 in
  let secs2 := second other + minute other * 60 + hour other * 3600 in
  timedelta_new (toordinal self - toordinal other)
                (secs1 - secs2)
                (microsecond self - microsecond other).

Definition total_microseconds (t : timedelta) : Z :=
  (days t * 86400 + seconds t) * 10 ^ 6 + microseconds t.

(** [timedelta.total_seconds()]. *)
Definition total_seconds (t : timedelta) : Q :=
  (total_microseconds t # 1000000)%Q.

(** Microseconds since the start of day 0 of the proleptic calendar: the
    position of a datetime on the time line. *)
Definition timestamp (d : datetime) : Z :=
  (toordinal d * 86400 + (second d + minute d * 60 + hour d * 3600))
  * 10 ^ 6 + microsecond d.

(** ["%0<width>d" % n] for [0 <= n < 10 ** width]. *)
Definition digit (n : Z) : ascii :=
  ascii_of_nat (48 + Z.to_nat (n mod 10)).

Fixpoint zero_pad (width : nat) (n : Z) : string :=
  match width with
  | O => EmptyString
  | S k => String (digit (n / 10 ^ Z.of_nat k)) (zero_pad k n)
  end.

(** [datetime.isoformat()]: [YYYY-MM-DDTHH:MM:SS], followed by
    [.ffffff] when the microsecond is not zero. *)
Definition fraction (us : Z) : string :=
  if us =? 0 then EmptyString else String "."%char (zero_pad 6 us).

Definition isoformat (d : datetime) : string :=
  (zero_pad 4 (year d) ++ "-" ++ zero_pad 2 (month d) ++ "-"
   ++ zero_pad 2 (day d) ++ "T" ++ zero_pad 2 (hour d) ++ ":"
   ++ zero_pad 2 (minute d) ++ ":" ++ zero_pad 2 (second d)
   ++ fraction (microsecond d))%string.

End Datetime.

(** ** Serialised values: what [to_dict] and [get_summary] build

    A [dict] keeps its keys in insertion order, so it is an association
    list. *)

#[local] Unset Elimination Schemes.
Inductive pyval : Type :=
| PNone
| PBool (b : bool)
| PInt (z : Z)
| PFloat (q : Q)
| PStr (s : string)
| PList (items : list pyval)
| PDict (entries : list (string * pyval)).
#[local] Set Elimination Schemes.

(** [x.isoformat() if x else None]; a [datetime] is always true. *)
Definition isoformat_or_none (x : option Datetime.datetime) : pyval :=
  match x with
  | Some d => PStr (Datetime.isoformat d)
  | None => PNone
  end.

(** ** [class AgentType(Enum)] *)

Inductive AgentType : Type :=
| SERIAL
| PARALLEL
| COORDINATOR.

Definition AgentType_value (a : AgentType) : string :=
  match a with
  | SERIAL => "serial"
  | PARALLEL => "parallel"
  | COORDINATOR => "coordinator"
  end.

(** ** [class ExecutionMetrics] *)

Module ExecutionMetrics.

Record t : Type := mk {
  agent_name : string;
  agent_type : AgentType;
  start_time : Datetime.datetime;
  end_time : option Datetime.datetime;
  duration : Q;
  success : bool;
  error_message : string;
  inputs_size : Z;
  outputs_size : Z
}.

Definition set_duration (self : t) (d : Q) : t :=
  {| agent_name := agent_name self;
     agent_type := agent_type self;
     start_time := start_time self;
     end_time := end_time self;
     duration := d;
     success := success self;
     error_message := error_message self;
     inputs_size := inputs_size self;
     outputs_size := outputs_size self |}.

(** [calculate_duration]: the record after the call and the value
    returned. *)
Definition calculate_duration (self : t) : t * Q :=
  let self' :=
    match end_time self with
    | Some e =>
        set_duration self
          (Datetime.total_seconds (Datetime.sub e (start_time self)))
    | None => self
    end in
  (self', duration self').

Definition to_dict (self : t) : pyval :=
  PDict
    [ ("agent_name", PStr (agent_name self));
      ("agent_type", PStr (AgentType_value (agent_type self)));
      ("start_time", PStr (Datetime.isoformat (start_time self)));
      ("end_time", isoformat_or_none (end_time self));
      ("duration_seconds", PFloat (duration self));
      ("success", PBool (success self));
      ("error_message", PStr (error_message self));
      ("inputs_size_bytes", PInt (inputs_size self));
      ("outputs_size_bytes", PInt (outputs_size self)) ]%string.

End ExecutionMetrics.

(** ** [class WorkflowMetrics] *)

Module WorkflowMetrics.

Open Scope Q_scope.

Record t : Type := mk {
  workflow_name : string;
  start_time : Datetime.datetime;
  end_time : option Datetime.datetime;
  duration : Q;
  agents : list ExecutionMetrics.t;
  total_inputs_size : Z;
  total_outputs_size : Z;
  success : bool;
  error_message : string
}.

(** The dataclass constructor with every default left as it is. *)
Definition new (name : string) (start : Datetime.datetime) : t :=
  {| workflow_name := name;
     start_time := start;
     end_time := None;
     duration := 0;
     agents := [];
     total_inputs_size := 0;
     total_outputs_size := 0;
     success := true;
     error_message := EmptyString |}.

Definition add_agent_metrics (self : t) (metrics : ExecutionMetrics.t) : t :=
  {| workflow_name := workflow_name self;
     start_time := start_time self;
     end_time := end_time self;
     duration := duration self;
     agents := agents self ++ [metrics];
     total_inputs_size :=
       (total_inputs_size self + ExecutionMetrics.inputs_size metrics)%Z;
     total_outputs_size :=
       (total_outputs_size self + ExecutionMetrics.outputs_size metrics)%Z;
     success := success self;
     error_message := error_message self |}.

Definition set_end_time (self : t) (e : Datetime.datetime) : t :=
  {| workflow_name := workflow_name self;
     start_time := start_time self;
     end_time := Some e;
     duration := duration self;
     agents := agents self;
     total_inputs_size := total_inputs_size self;
     total_outputs_size := total_outputs_size self;
     success := success self;
     error_message := error_message self |}.

Definition set_duration (self : t) (d : Q) : t :=
  {| workflow_name := workflow_name self;
     start_time := start_time self;
     end_time := end_time self;
     duration := d;
     agents := agents self;
     total_inputs_size := total_inputs_size self;
     total_outputs_size := total_outputs_size self;
     success := success self;
     error_message := error_message self |}.

Definition finalize (self : t) : t :=
  match end_time self with
  | Some e =>
      set_duration self
        (Datetime.total_seconds (Datetime.sub e (start_time self)))
  | None => self
  end.

Definition durations (self : t) : list Q :=
  map ExecutionMetrics.duration (agents self).

Definition get_parallel_efficiency (self : t) : result Q :=
  match agents self with
  | [] => Ok 0
  | _ :: _ =>
      max_agent_duration <- Builtins.max (durations self) ;;
      let total_agent_duration := Builtins.sum (durations self) in
      if Qeq_bool total_agent_duration 0 then Ok 0
      else
        ratio <- Builtins.truediv total_agent_duration
                   (max_agent_duration * Builtins.len_float (agents self)) ;;
        Ok (ratio * 100)
  end.

(** Of the entries of the dict display only the last one, the call of
    [get_parallel_efficiency], can raise, and none has an effect. *)
Definition to_dict (self : t) : result pyval :=
  efficiency <- get_parallel_efficiency self ;;
  Ok (PDict
    [ ("workflow_name", PStr (workflow_name self));
      ("start_time", PStr (Datetime.isoformat (start_time self)));
      ("end_time", isoformat_or_none (end_time self));
      ("total_duration_seconds", PFloat (duration self));
      ("agents", PList (map ExecutionMetrics.to_dict (agents self)));
      ("total_inputs_size_bytes", PInt (total_inputs_size self));
      ("total_outputs_size_bytes", PInt (total_outputs_size self));
      ("workflow_success", PBool (success self));
      ("error_message", PStr (error_message self));
      ("parallel_efficiency_percent", PFloat efficiency) ]%string).

End WorkflowMetrics.

(** ** The heap of workflows and [class MetricsCollector]

    A [WorkflowMetrics] is handed around by reference: [create_workflow]
    returns it to the caller, [finalize_workflow] mutates it and stores the
    same object in [self.workflows].  [datetime.now()] is an input: each
    operation that reads the clock takes the reading as [now]. *)

Definition ref : Type := nat.

Record State : Type := mk_state {
  heap : ref -> WorkflowMetrics.t;
  next_ref : ref;
  workflows : list ref
}.

(** A computation returns or raises, and leaves a state either way. *)
Definition M (A : Type) : Type := State -> result A * State.

Definition ret {A : Type} (a : A) : M A := fun st => (Ok a, st).

Definition bind {A B : Type} (c : M A) (k : A -> M B) : M B :=
  fun st =>
    match c st with
    | (Ok a, st') => k a st'
    | (Raise e, st') => (Raise e, st')
    end.

Notation "x <~ c ;; k" := (bind c (fun x => k))
  (at level 61, c at next level, right associativity).

Definition lift {A : Type} (r : result A) : M A := fun st => (r, st).

Definition deref (r : ref) : M WorkflowMetrics.t :=
  fun st => (Ok (heap st r), st).

Definition store (r : ref) (w : WorkflowMetrics.t) : M unit :=
  fun st =>
    (Ok tt,
     {| heap := fun r' => if Nat.eqb r' r then w else heap st r';
        next_ref := next_ref st;
        workflows := workflows st |}).

Definition alloc (w : WorkflowMetrics.t) : M ref :=
  fun st =>
    (Ok (next_ref st),
     {| heap := fun r' => if Nat.eqb r' (next_ref st) then w else heap st r';
        next_ref := S (next_ref st);
        workflows := workflows st |}).

(** A method that mutates its receiver, called through a reference. *)
Definition mutate (r : ref) (method : WorkflowMetrics.t -> WorkflowMetrics.t)
  : M unit :=
  w <~ deref r ;; store r (method w).

(** A method that only reads its receiver, called through a reference. *)
Definition query {A : Type} (r : ref)
  (method : WorkflowMetrics.t -> result A) : M A :=
  w <~ deref r ;; lift (method w).

Fixpoint for_each {A B : Type} (f : A -> M B) (xs : list A) : M (list B) :=
  match xs with
  | [] => ret []
  | x :: xs' =>
      y <~ f x ;;
      ys <~ for_each f xs' ;;
      ret (y :: ys)
  end.

(** [workflow.add_agent_metrics(metrics)]. *)
Definition add_agent_metrics (workflow : ref) (metrics : ExecutionMetrics.t)
  : M unit :=
  mutate workflow (fun w => WorkflowMetrics.add_agent_metrics w metrics).

(** [sum(w.duration for w in ...)]: the int [0] when there is nothing to
    add, a float otherwise. *)
Definition sum_value (xs : list Q) : pyval :=
  match xs with
  | [] => PInt 0
  | _ :: _ => PFloat (Builtins.sum xs)
  end.

Module MetricsCollector.

(** The initial state: an empty collector; no workflow allocated yet. *)
Definition init : State :=
  {| heap := fun _ => WorkflowMetrics.new EmptyString
                        (Datetime.mk_datetime 1 1 1 0 0 0 0);
     next_ref := O;
     workflows := [] |}.

Definition create_workflow (workflow_name : string)
  (now : Datetime.datetime) : M ref :=
  alloc (WorkflowMetrics.new workflow_name now).

Definition append_workflow (workflow : ref) : M unit :=
  fun st =>
    (Ok tt,
     {| heap := heap st;
        next_ref := next_ref st;
        workflows := workflows st ++ [workflow] |}).

Definition finalize_workflow (workflow : ref) (now : Datetime.datetime)
  : M unit :=
  _ <~ mutate workflow (fun w => WorkflowMetrics.set_end_time w now) ;;
  _ <~ mutate workflow WorkflowMetrics.finalize ;;
  append_workflow workflow.

Definition self_workflows : M (list ref) :=
  fun st => (Ok (workflows st), st).

Definition get_summary : M pyval :=
  refs <~ self_workflows ;;
  ws <~ for_each deref refs ;;
  dicts <~ for_each (fun r => query r WorkflowMetrics.to_dict) refs ;;
  ret (PDict
    [ ("total_workflows", PInt (Z.of_nat (List.length ws)));
      ("total_agents_executed",
        PInt (Builtins.sum_int
                (map (fun w => Z.of_nat
                                 (List.length (WorkflowMetrics.agents w)))
                     ws)));
      ("total_time", sum_value (map WorkflowMetrics.duration ws));
      ("workflows", PList dicts) ]%string).

End MetricsCollector.

(** * The vocabulary of the specification *)

(** The sum of a list of numbers, as mathematics writes it. *)
Definition total (xs : list Q) : Q := fold_right Qplus 0%Q xs.

(** The number of items of a list, as a rational. *)
Definition count (xs : list Q) : Q := inject_Z (Z.of_nat (List.length xs)).

(** [m] is the maximum of [xs]: an item of [xs] that bounds all of them. *)
Definition is_maximum (m : Q) (xs : list Q) : Prop :=
  In m xs /\ Forall (fun x => (x <= m)%Q) xs.

Definition non_negative (xs : list Q) : Prop :=
  Forall (fun x => (0 <= x)%Q) xs.


(** ** Fixtures, after [test_suite.py] and the scenarios of the
    specification *)

Definition noon : Datetime.datetime := Datetime.mk_datetime 2024 3 1 12 0 0 0.

(** A record as the tests build it, with the given duration and sizes. *)
Definition record (d : Q) (inputs outputs : Z) : ExecutionMetrics.t :=
  {| ExecutionMetrics.agent_name := "Parallel Agent";
     ExecutionMetrics.agent_type := PARALLEL;
     ExecutionMetrics.start_time := noon;
     ExecutionMetrics.end_time := None;
     ExecutionMetrics.duration := d;
     ExecutionMetrics.success := true;
     ExecutionMetrics.error_message := EmptyString;
     ExecutionMetrics.inputs_size := inputs;
     ExecutionMetrics.outputs_size := outputs |}.

(** The workflow of the tests' [setUp] after one [add_agent_metrics] call
    per record, in order. *)
Definition workflow_with (records : list ExecutionMetrics.t)
  : WorkflowMetrics.t :=
  fold_left WorkflowMetrics.add_agent_metrics records
    (WorkflowMetrics.new "Test Workflow" noon).


(** The record of [test_metrics_duration_calculation]: completed five
    seconds after it started. *)
Definition five_second_record : ExecutionMetrics.t :=
  {| ExecutionMetrics.agent_name := "Test Agent";
     ExecutionMetrics.agent_type := SERIAL;
     ExecutionMetrics.start_time := noon;
     ExecutionMetrics.end_time :=
       Some (Datetime.mk_datetime 2024 3 1 12 0 5 0);
     ExecutionMetrics.duration := 0;
     ExecutionMetrics.success := true;
     ExecutionMetrics.error_message := EmptyString;
     ExecutionMetrics.inputs_size := 0;
     ExecutionMetrics.outputs_size := 0 |}.

(** The sum of a list of sizes, as mathematics writes it. *)
Definition total_size (xs : list Z) : Z := fold_right Z.add 0%Z xs.

(** The state a computation leaves, and what it returns or raises. *)
Definition state_after {A : Type} (c : M A) (st : State) : State := snd (c st).

Definition outcome {A : Type} (c : M A) (st : State) : result A := fst (c st).

(** A fresh workflow and then one [add_agent_metrics] call per record. *)
Definition start_and_add (name : string) (now : Datetime.datetime)
  (records : list ExecutionMetrics.t) : M ref :=
  workflow <~ MetricsCollector.create_workflow name now ;;
  _ <~ for_each (add_agent_metrics workflow) records ;;
  ret workflow.

(** Scenario C: input sizes 100, 200, 300 and output sizes 200, 400, 600. *)
Definition scenario_C : list ExecutionMetrics.t :=
  [record 0 100 200; record 0 200 400; record 0 300 600].

Definition five_past_noon : Datetime.datetime :=
  Datetime.mk_datetime 2024 3 1 12 0 5 0.

(** The collector after [test_finalize_workflow]: one workflow created at
    noon and finalized five seconds later.  Its reference is [0]. *)
Definition finalized_registry : State :=
  state_after
    (workflow <~ MetricsCollector.create_workflow "Test" noon ;;
     MetricsCollector.finalize_workflow workflow five_past_noon)
    MetricsCollector.init.

(** A collector whose only workflow holds a record of duration 0 and one
    of duration -1. *)
Definition negative_registry : State :=
  state_after
    (workflow <~ MetricsCollector.create_workflow "Test" noon ;;
     _ <~ add_agent_metrics workflow (record 0 0 0) ;;
     _ <~ add_agent_metrics workflow (record (-1) 0 0) ;;
     MetricsCollector.finalize_workflow workflow five_past_noon)
    MetricsCollector.init.

(** Two workflows: the first to be created gets three records and is
    finalized last, seven and a half seconds after noon; the second is
    finalized five seconds after noon.  Their references are [0] and
    [1]. *)
Definition two_workflows : State :=
  state_after
    (first <~ MetricsCollector.create_workflow "First" noon ;;
     _ <~ add_agent_metrics first (record 1 100 200) ;;
     _ <~ add_agent_metrics first (record 2 200 400) ;;
     _ <~ add_agent_metrics first (record 3 300 600) ;;
     second <~ MetricsCollector.create_workflow "Second" noon ;;
     _ <~ MetricsCollector.finalize_workflow second five_past_noon ;;
     MetricsCollector.finalize_workflow first
       (Datetime.mk_datetime 2024 3 1 12 0 7 500000))
    MetricsCollector.init.

(** The registered workflows, in registration order. *)
Definition registered (st : State) : list WorkflowMetrics.t :=
  map (heap st) (workflows st).

(** * Further vocabulary *)

(** [d[key]]: the value of the first entry under [key], if [d] is a dict
    that has the key. *)
Fixpoint lookup (key : string) (entries : list (string * pyval))
  : option pyval :=
  match entries with
  | [] => None
  | (k, v) :: rest => if String.eqb k key then Some v else lookup key rest
  end.

Definition getitem (d : pyval) (key : string) : option pyval :=
  match d with
  | PDict entries => lookup key entries
  | _ => None
  end.

(** The size totals of a workflow are the sums over its records. *)
Definition sizes_consistent (w : WorkflowMetrics.t) : Prop :=
  WorkflowMetrics.total_inputs_size w
  = total_size (map ExecutionMetrics.inputs_size (WorkflowMetrics.agents w))
  /\ WorkflowMetrics.total_outputs_size w
     = total_size (map ExecutionMetrics.outputs_size
                     (WorkflowMetrics.agents w)).

(** ** Client scripts

    A call of the module as a client makes it, and the state a list of
    calls leaves when the client carries on after a call that raised. *)

Inductive call : Type :=
| CreateWorkflow (workflow_name : string) (now : Datetime.datetime)
| AddAgentMetrics (workflow : ref) (metrics : ExecutionMetrics.t)
| FinalizeWorkflow (workflow : ref) (now : Datetime.datetime)
| GetSummary.

Definition perform (c : call) : M unit :=
  match c with
  | CreateWorkflow workflow_name now =>
      _ <~ MetricsCollector.create_workflow workflow_name now ;; ret tt
  | AddAgentMetrics workflow metrics => add_agent_metrics workflow metrics
  | FinalizeWorkflow workflow now =>
      MetricsCollector.finalize_workflow workflow now
  | GetSummary => _ <~ MetricsCollector.get_summary ;; ret tt
  end.

Definition run_calls (calls : list call) (st : State) : State :=
  fold_left (fun st' c => state_after (perform c) st') calls st.

(** The workflows a list of calls finalizes, in call order. *)
Definition finalized_by (calls : list call) : list ref :=
  flat_map (fun c => match c with
                     | FinalizeWorkflow workflow _ => [workflow]
                     | _ => []
                     end) calls.

(** Adding to a registered workflow after it was finalized. *)
Definition late_record : ExecutionMetrics.t := record 1 100 200.

(** ** The ranges of the fields of a [datetime]

    What the constructor of the library checks, and so what every
    [datetime] object satisfies. *)

Definition DAYS_IN_MONTH : list Z :=
  [-1; 31; 28; 31; 30; 31; 30; 31; 31; 30; 31; 30; 31]%Z.

Definition days_in_month (y m : Z) : Z :=
  if (m =? 2)%Z && Datetime.is_leap y then 29%Z
  else nth (Z.to_nat m) DAYS_IN_MONTH 0%Z.

Definition in_range (d : Datetime.datetime) : Prop :=
  (1 <= Datetime.year d <= 9999
   /\ 1 <= Datetime.month d <= 12
   /\ 1 <= Datetime.day d <= days_in_month (Datetime.year d) (Datetime.month d)
   /\ 0 <= Datetime.hour d <= 23
   /\ 0 <= Datetime.minute d <= 59
   /\ 0 <= Datetime.second d <= 59
   /\ 0 <= Datetime.microsecond d <= 999999)%Z.

Definition optional_in_range (d : option Datetime.datetime) : Prop :=
  match d with
  | Some e => in_range e
  | None => True
  end.

Definition record_in_range (m : ExecutionMetrics.t) : Prop :=
  in_range (ExecutionMetrics.start_time m)
  /\ optional_in_range (ExecutionMetrics.end_time m).

Definition workflow_in_range (w : WorkflowMetrics.t) : Prop :=
  in_range (WorkflowMetrics.start_time w)
  /\ optional_in_range (WorkflowMetrics.end_time w)
  /\ Forall record_in_range (WorkflowMetrics.agents w).

(** ** [MetricsCollector.save_metrics] and the files it writes

    The disk maps a path to the text of the file there, if there is one.
    Two library calls are inputs of the model: [can_open] tells whether
    [open(filename, 'w')] succeeds on the disk as it is, and [dumps] is the
    text that [json.dump(..., indent=2)] writes for a value.  Writing to a
    file that was opened is taken to succeed. *)

Definition Disk : Type := string -> option string.

Definition write_file (disk : Disk) (filename text : string) : Disk :=
  fun path => if String.eqb path filename then Some text else disk path.

Inductive io_exn : Type :=
| OSError
| Propagated (e : exn).

Inductive io_result (A : Type) : Type :=
| Done (a : A)
| Failed (e : io_exn).

Arguments Done {A} a.
Arguments Failed {A} e.

(** [with open(filename, 'w') as f: json.dump(self.get_summary(), f,
    indent=2)]: the file is opened, and so created or emptied, before
    [get_summary] is called; the [with] block closes it when the call
    raises. *)
Definition save_metrics (can_open : Disk -> string -> bool)
  (dumps : pyval -> string) (filename : string)
  (st : State) (disk : Disk) : io_result unit * State * Disk :=
  if can_open disk filename then
    let opened := write_file disk filename EmptyString in
    match MetricsCollector.get_summary st with
    | (Ok summary, st') =>
        (Done tt, st', write_file opened filename (dumps summary))
    | (Raise e, st') => (Failed (Propagated e), st', opened)
    end
  else (Failed OSError, st, disk).

(** A disk with an earlier metrics file. *)
Definition old_disk : Disk :=
  write_file (fun _ => None) "metrics.json" "{ earlier metrics }".

(** ** [class ObservabilityDashboard]: the printed summaries

    Standard output is the list of the strings handed to [print], one per
    call.  The format specifications of the f-strings are inputs of the
    model: [format_2f] and [format_1f] stand for [:.2f] and [:.1f] on a
    float, [format_thousands] for [:,] on an int. *)

From Stdlib Require Import DecimalString.

(** [str(n)] for the length of a list. *)
Definition str_len {A : Type} (xs : list A) : string :=
  NilZero.string_of_uint (Nat.to_uint (List.length xs)).

Definition newline : string := String "010"%char EmptyString.

(** ['=' * 70]. *)
Definition rule : string :=
  "======================================================================".

Definition is_parallel (a : ExecutionMetrics.t) : bool :=
  match ExecutionMetrics.agent_type a with
  | PARALLEL => true
  | _ => false
  end.

(** [if s:] on a string. *)
Definition non_empty (s : string) : bool :=
  match s with
  | EmptyString => false
  | String _ _ => true
  end.

Section Dashboard.

Variable format_2f : Q -> string.
Variable format_1f : Q -> string.
Variable format_thousands : Z -> string.

(** The prints before the efficiency line. *)
Definition summary_head (workflow : WorkflowMetrics.t) : list string :=
  [ newline ++ rule;
    "Workflow: " ++ WorkflowMetrics.workflow_name workflow;
    rule;
    "Status: " ++ (if WorkflowMetrics.success workflow
                   then "✓ SUCCESS" else "✗ FAILED");
    "Duration: " ++ format_2f (WorkflowMetrics.duration workflow)
      ++ " seconds";
    "Agents Executed: " ++ str_len (WorkflowMetrics.agents workflow);
    "Data Size - In: "
      ++ format_thousands (WorkflowMetrics.total_inputs_size workflow)
      ++ " bytes, Out: "
      ++ format_thousands (WorkflowMetrics.total_outputs_size workflow)
      ++ " bytes" ]%string.

(** The prints of the loop body for one agent. *)
Definition agent_lines (agent : ExecutionMetrics.t) : list string :=
  ("  " ++ (if ExecutionMetrics.success agent then "✓" else "✗") ++ " "
     ++ ExecutionMetrics.agent_name agent ++ ": "
     ++ format_2f (ExecutionMetrics.duration agent) ++ "s ("
     ++ AgentType_value (ExecutionMetrics.agent_type agent) ++ ")")%string
  :: (if non_empty (ExecutionMetrics.error_message agent)
      then [("    Error: " ++ ExecutionMetrics.error_message agent)%string]
      else []).

(** The prints after the efficiency line. *)
Definition summary_tail (workflow : WorkflowMetrics.t) : list string :=
  [(newline ++ "Agent Breakdown:")%string]
  ++ flat_map agent_lines (WorkflowMetrics.agents workflow)
  ++ [(rule ++ newline)%string].

(** [print_workflow_summary]: what it returns or raises, and what it has
    printed by then. *)
Definition print_workflow_summary (workflow : WorkflowMetrics.t)
  : result unit * list string :=
  if existsb is_parallel (WorkflowMetrics.agents workflow) then
    match WorkflowMetrics.get_parallel_efficiency workflow with
    | Ok efficiency =>
        (Ok tt,
         summary_head workflow
         ++ [("Parallel Efficiency: " ++ format_1f efficiency ++ "%")%string]
         ++ summary_tail workflow)
    | Raise e => (Raise e, summary_head workflow)
    end
  else (Ok tt, summary_head workflow ++ summary_tail workflow).

(** [print_all_summaries] over the workflows of the collector: the loop
    ends at the first summary that raises. *)
Fixpoint print_summaries (ws : list WorkflowMetrics.t)
  : result unit * list string :=
  match ws with
  | [] => (Ok tt, [])
  | w :: ws' =>
      match print_workflow_summary w with
      | (Ok _, printed) =>
          let '(r, printed') := print_summaries ws' in
          (r, printed ++ printed')
      | (Raise e, printed) => (Raise e, printed)
      end
  end.

Definition print_all_summaries (st : State) : result unit * list string :=
  print_summaries (registered st).

End Dashboard.

(** A registered workflow of serial records with durations 0 and -1, and
    the same with parallel records. *)
Definition serial_record (d : Q) : ExecutionMetrics.t :=
  {| ExecutionMetrics.agent_name := "Agent";
     ExecutionMetrics.agent_type := SERIAL;
     ExecutionMetrics.start_time := noon;
     ExecutionMetrics.end_time := None;
     ExecutionMetrics.duration := d;
     ExecutionMetrics.success := true;
     ExecutionMetrics.error_message := EmptyString;
     ExecutionMetrics.inputs_size := 0;
     ExecutionMetrics.outputs_size := 0 |}.

Definition serial_negative : WorkflowMetrics.t :=
  workflow_with [serial_record 0; serial_record (-1)].

(** ** [config.py]: the configurations and their validation

    The process environment is a map from names to values.  The class
    attributes of [Config] read it when the module is imported;
    [get_config] reads it when it is called.  [os.makedirs(..., exist_ok =
    True)] is an input of the model: [makedirs] gives [None] when the call
    succeeds and the text of the exception when it raises. *)

Module Configuration.

Definition Environ : Type := string -> option string.

(** [os.getenv(key, default)]. *)
Definition getenv (environ : Environ) (key default : string) : string :=
  match environ key with
  | Some value => value
  | None => default
  end.

Record Config : Type := mk {
  GEMINI_API_KEY : option string;
  GEMINI_MODEL : string;
  MAX_REQUESTS_PER_MINUTE : Z;
  REQUEST_TIMEOUT_SECONDS : Z;
  MAX_RETRIES : Z;
  RETRY_DELAY_SECONDS : Z;
  LOG_LEVEL : string;
  LOG_FORMAT : string;
  LOG_FILE : string;
  MAX_LOG_FILE_SIZE : Z;
  LOG_BACKUP_COUNT : Z;
  OUTPUT_DIR : string;
  METRICS_DIR : string;
  REPORTS_DIR : string;
  PARALLEL_AGENTS_MAX_WORKERS : Z;
  BATCH_SIZE : Z;
  CONTINUE_ON_AGENT_FAILURE : bool;
  COLLECT_ERROR_METRICS : bool;
  DEBUG : option bool;
  TESTING : option bool
}.

(** [class Config]: it has no [DEBUG] and no [TESTING] attribute. *)
Definition BaseConfig (environ : Environ) : Config :=
  {| GEMINI_API_KEY := environ "GEMINI_API_KEY"%string;
     GEMINI_MODEL := getenv environ "GEMINI_MODEL" "gemini-pro";
     MAX_REQUESTS_PER_MINUTE := 60;
     REQUEST_TIMEOUT_SECONDS := 30;
     MAX_RETRIES := 3;
     RETRY_DELAY_SECONDS := 2;
     LOG_LEVEL := getenv environ "LOG_LEVEL" "INFO";
     LOG_FORMAT := "%(asctime)s - %(name)s - %(levelname)s - %(message)s";
     LOG_FILE := "career_planning.log";
     MAX_LOG_FILE_SIZE := 10 * 1024 * 1024;
     LOG_BACKUP_COUNT := 5;
     OUTPUT_DIR := "outputs";
     METRICS_DIR := "metrics";
     REPORTS_DIR := "reports";
     PARALLEL_AGENTS_MAX_WORKERS := 3;
     BATCH_SIZE := 10;
     CONTINUE_ON_AGENT_FAILURE := false;
     COLLECT_ERROR_METRICS := true;
     DEBUG := None;
     TESTING := None |}.

(** A subclass: the attributes it sets, the others from [Config]. *)
Definition subclass (environ : Environ) (debug testing : bool)
  (log_level : string) (max_requests workers retries : Z)
  (continue_on_failure : bool) : Config :=
  let base := BaseConfig environ in
  {| GEMINI_API_KEY := GEMINI_API_KEY base;
     GEMINI_MODEL := GEMINI_MODEL base;
     MAX_REQUESTS_PER_MINUTE := max_requests;
     REQUEST_TIMEOUT_SECONDS := REQUEST_TIMEOUT_SECONDS base;
     MAX_RETRIES := retries;
     RETRY_DELAY_SECONDS := RETRY_DELAY_SECONDS base;
     LOG_LEVEL := log_level;
     LOG_FORMAT := LOG_FORMAT base;
     LOG_FILE := LOG_FILE base;
     MAX_LOG_FILE_SIZE := MAX_LOG_FILE_SIZE base;
     LOG_BACKUP_COUNT := LOG_BACKUP_COUNT base;
     OUTPUT_DIR := OUTPUT_DIR base;
     METRICS_DIR := METRICS_DIR base;
     REPORTS_DIR := REPORTS_DIR base;
     PARALLEL_AGENTS_MAX_WORKERS := workers;
     BATCH_SIZE := BATCH_SIZE base;
     CONTINUE_ON_AGENT_FAILURE := continue_on_failure;
     COLLECT_ERROR_METRICS := COLLECT_ERROR_METRICS base;
     DEBUG := Some debug;
     TESTING := Some testing |}.

Definition DevelopmentConfig (environ : Environ) : Config :=
  subclass environ true false "DEBUG" 60
    (PARALLEL_AGENTS_MAX_WORKERS (BaseConfig environ))
    (MAX_RETRIES (BaseConfig environ)) true.

Definition StagingConfig (environ : Environ) : Config :=
  subclass environ false true "INFO" 60 3
    (MAX_RETRIES (BaseConfig environ))
    (CONTINUE_ON_AGENT_FAILURE (BaseConfig environ)).

Definition ProductionConfig (environ : Environ) : Config :=
  subclass environ false false "WARNING" 600 5 5
    (CONTINUE_ON_AGENT_FAILURE (BaseConfig environ)).

(** [str.lower()].  Strings are byte strings here, and only the letters
    [A] to [Z] change. *)
Definition lower_char (c : ascii) : ascii :=
  let n := nat_of_ascii c in
  if (65 <=? n)%nat && (n <=? 90)%nat then ascii_of_nat (n + 32) else c.

Fixpoint lower (s : string) : string :=
  match s with
  | EmptyString => EmptyString
  | String c rest => String (lower_char c) (lower rest)
  end.

(** [dict.get(key, default)]. *)
Fixpoint dict_get {A : Type} (entries : list (string * A)) (key : string)
  (default : A) : A :=
  match entries with
  | [] => default
  | (k, v) :: rest => if String.eqb k key then v else dict_get rest key default
  end.

(** [get_config]: [at_import] is the environment when the module was
    imported, [at_call] the environment when the function is called. *)
Definition get_config (at_import at_call : Environ)
  (environment : option string) : Config :=
  let environment :=
    match environment with
    | None => getenv at_call "ENVIRONMENT" "development"
    | Some name => name
    end in
  let configs :=
    [ ("development"%string, DevelopmentConfig at_import);
      ("staging"%string, StagingConfig at_import);
      ("production"%string, ProductionConfig at_import) ] in
  dict_get configs (lower environment) (DevelopmentConfig at_import).

(** [if not x:] on an optional string and on a string. *)
Definition falsy_option (x : option string) : bool :=
  match x with
  | None => true
  | Some s => negb (non_empty s)
  end.

(** The issues that [validate_configuration] collects, in order. *)
Definition directory_issues (makedirs : string -> option string)
  (dirs : list string) : list string :=
  flat_map (fun dir_name =>
              match makedirs dir_name with
              | None => []
              | Some message =>
                  [("Cannot create directory " ++ dir_name ++ ": "
                    ++ message)%string]
              end) dirs.

Definition issues (makedirs : string -> option string) (config : Config)
  : list string :=
  (if falsy_option (GEMINI_API_KEY config)
   then ["GEMINI_API_KEY not set"%string] else [])
  ++ (if negb (non_empty (GEMINI_MODEL config))
      then ["GEMINI_MODEL not set"%string] else [])
  ++ directory_issues makedirs
       [OUTPUT_DIR config; METRICS_DIR config; REPORTS_DIR config]
  ++ (if (REQUEST_TIMEOUT_SECONDS config <? 10)%Z
      then ["REQUEST_TIMEOUT_SECONDS too low (min 10)"%string] else [])
  ++ (if (PARALLEL_AGENTS_MAX_WORKERS config <? 1)%Z
      then ["PARALLEL_AGENTS_MAX_WORKERS must be >= 1"%string] else []).

Definition validate_configuration (makedirs : string -> option string)
  (config : Config) : bool :=
  match issues makedirs config with
  | [] => true
  | _ :: _ => false
  end.

End Configuration.

(** An environment with an API key and a log level. *)
Definition sample_environ : Configuration.Environ :=
  fun name =>
    if String.eqb name "GEMINI_API_KEY" then Some "secret"%string
    else if String.eqb name "LOG_LEVEL" then Some "ERROR"%string
    else None.

(** ** The order of datetimes

    [datetime.__lt__] and its siblings compare the fields in order, as
    [_cmp] does on the tuples of two naive datetimes. *)
Definition compare_fields (xs ys : list Z) : comparison :=
  fold_right
    (fun p rest => match (fst p ?= snd p)%Z with Eq => rest | c => c end)
    Eq (combine xs ys).

Definition datetime_fields (d : Datetime.datetime) : list Z :=
  [ Datetime.year d; Datetime.month d; Datetime.day d; Datetime.hour d;
    Datetime.minute d; Datetime.second d; Datetime.microsecond d ].

Definition datetime_cmp (a b : Datetime.datetime) : comparison :=
  compare_fields (datetime_fields a) (datetime_fields b).

(** [a < b] on datetimes: [a] is earlier than [b]. *)
Definition earlier (a b : Datetime.datetime) : Prop := datetime_cmp a b = Lt.

(** * The module in double arithmetic

    The classes once more, with every Python [float] an IEEE double
    ([PrimFloat.float]) and every operation on floats the correctly
    rounded operation that Python executes.  The structure, the integer
    fields and the control flow are those of the exact reading above; the
    values of [duration], of the sums and of the efficiency are the
    doubles of the code.  [datetime.now()] is an input, as above. *)

Module Binary64.

(** ** The builtins on doubles *)

(** [sum] over floats depends on the interpreter: CPython up to 3.11 adds
    from the left, one rounding per addition; CPython 3.12 carries the
    compensation term of Neumaier's algorithm along and adds it at the
    end.  The repository asks for Python 3.8 or higher and deploys on
    3.9. *)
Inductive summation : Type :=
| left_to_right
| compensated.

Definition sum_left_to_right (xs : list float) : float :=
  fold_left PrimFloat.add xs 0%float.

(** [math.isfinite], the [Py_IS_FINITE] of the interpreter. *)
Definition isfinite (x : float) : bool :=
  PrimFloat.ltb (PrimFloat.abs x) infinity.

(** The loop of [sum] on floats in CPython 3.12: [f] is the running sum,
    [c] the compensation. *)
Fixpoint neumaier (f c : float) (xs : list float) : float * float :=
  match xs with
  | [] => (f, c)
  | x :: xs' =>
      let t := (f + x)%float in
      let c' :=
        if PrimFloat.leb (PrimFloat.abs x) (PrimFloat.abs f)
        then (c + ((f - t) + x))%float
        else (c + ((x - t) + f))%float in
      neumaier t c' xs'
  end.

(** The first item is added to the int [0]; the compensation is added
    when it is neither zero nor infinite nor a NaN. *)
Definition sum_compensated (xs : list float) : float :=
  match xs with
  | [] => 0%float
  | x :: xs' =>
      let (f, c) := neumaier (0 + x)%float 0%float xs' in
      if negb (PrimFloat.eqb c 0%float) && isfinite c then (f + c)%float
      else f
  end.

Definition sum (how : summation) (xs : list float) : float :=
  match how with
  | left_to_right => sum_left_to_right xs
  | compensated => sum_compensated xs
  end.

(** [max(iterable)]: a later item replaces the candidate when
    [item > candidate]. *)
Definition max_step (m x : float) : float :=
  if PrimFloat.ltb m x then x else m.

Definition max (xs : list float) : result float :=
  match xs with
  | [] => Raise ValueError
  | x :: xs' => Ok (fold_left max_step xs' x)
  end.

(** [x / y] on floats raises [ZeroDivisionError] when [y == 0]. *)
Definition truediv (x y : float) : result float :=
  if PrimFloat.eqb y 0%float then Raise ZeroDivisionError
  else Ok (PrimFloat.div x y).

(** [sys.maxsize], which bounds the length of every list. *)
Definition maxsize : Z := 2 ^ 63 - 1.

(** [len(xs)], as the float it becomes when multiplied with a float. *)
Definition len_float {A : Type} (xs : list A) : float :=
  PrimFloat.of_uint63 (Uint63.of_Z (Z.of_nat (List.length xs))).

(** [n / d] on ints, for [d > 0]: the double nearest to the quotient,
    ties to even. *)
Definition nearest_double (n : Z) (d : positive) : float :=
  match n with
  | Z0 => 0%float
  | Zpos p =>
      SF2Prim (SFdiv prec emax (S754_finite false p 0) (S754_finite false d 0))
  | Zneg p =>
      SF2Prim (SFdiv prec emax (S754_finite true p 0) (S754_finite false d 0))
  end.

(** [timedelta.total_seconds()]: the microseconds divided by [10**6]. *)
Definition total_seconds (t : Datetime.timedelta) : float :=
  nearest_double (Datetime.total_microseconds t) 1000000.

(** ** Serialised values *)

#[local] Unset Elimination Schemes.
Inductive pyval : Type :=
| PNone
| PBool (b : bool)
| PInt (z : Z)
| PFloat (x : float)
| PStr (s : string)
| PList (items : list pyval)
| PDict (entries : list (string * pyval)).
#[local] Set Elimination Schemes.

Definition isoformat_or_none (x : option Datetime.datetime) : pyval :=
  match x with
  | Some d => PStr (Datetime.isoformat d)
  | None => PNone
  end.

(** ** [class ExecutionMetrics] *)

Module ExecutionMetrics.

Record t : Type := mk {
  agent_name : string;
  agent_type : AgentType;
  start_time : Datetime.datetime;
  end_time : option Datetime.datetime;
  duration : float;
  success : bool;
  error_message : string;
  inputs_size : Z;
  outputs_size : Z
}.

Definition set_duration (self : t) (d : float) : t :=
  {| agent_name := agent_name self;
     agent_type := agent_type self;
     start_time := start_time self;
     end_time := end_time self;
     duration := d;
     success := success self;
     error_message := error_message self;
     inputs_size := inputs_size self;
     outputs_size := outputs_size self |}.

(** [calculate_duration]: the record after the call and the value
    returned. *)
Definition calculate_duration (self : t) : t * float :=
  let self' :=
    match end_time self with
    | Some e =>
        set_duration self (total_seconds (Datetime.sub e (start_time self)))
    | None => self
    end in
  (self', duration self').

Definition to_dict (self : t) : pyval :=
  PDict
    [ ("agent_name", PStr (agent_name self));
      ("agent_type", PStr (AgentType_value (agent_type self)));
      ("start_time", PStr (Datetime.isoformat (start_time self)));
      ("end_time", isoformat_or_none (end_time self));
      ("duration_seconds", PFloat (duration self));
      ("success", PBool (success self));
      ("error_message", PStr (error_message self));
      ("inputs_size_bytes", PInt (inputs_size self));
      ("outputs_size_bytes", PInt (outputs_size self)) ]%string.

End ExecutionMetrics.

(** ** [class WorkflowMetrics] *)

Module WorkflowMetrics.

Record t : Type := mk {
  workflow_name : string;
  start_time : Datetime.datetime;
  end_time : option Datetime.datetime;
  duration : float;
  agents : list ExecutionMetrics.t;
  total_inputs_size : Z;
  total_outputs_size : Z;
  success : bool;
  error_message : string
}.

(** The dataclass constructor with every default left as it is. *)
Definition new (name : string) (start : Datetime.datetime) : t :=
  {| workflow_name := name;
     start_time := start;
     end_time := None;
     duration := 0%float;
     agents := [];
     total_inputs_size := 0;
     total_outputs_size := 0;
     success := true;
     error_message := EmptyString |}.

Definition add_agent_metrics (self : t) (metrics : ExecutionMetrics.t) : t :=
  {| workflow_name := workflow_name self;
     start_time := start_time self;
     end_time := end_time self;
     duration := duration self;
     agents := agents self ++ [metrics];
     total_inputs_size :=
       (total_inputs_size self + ExecutionMetrics.inputs_size metrics)%Z;
     total_outputs_size :=
       (total_outputs_size self + ExecutionMetrics.outputs_size metrics)%Z;
     success := success self;
     error_message := error_message self |}.

Definition set_end_time (self : t) (e : Datetime.datetime) : t :=
  {| workflow_name := workflow_name self;
     start_time := start_time self;
     end_time := Some e;
     duration := duration self;
     agents := agents self;
     total_inputs_size := total_inputs_size self;
     total_outputs_size := total_outputs_size self;
     success := success self;
     error_message := error_message self |}.

Definition set_duration (self : t) (d : float) : t :=
  {| workflow_name := workflow_name self;
     start_time := start_time self;
     end_time := end_time self;
     duration := d;
     agents := agents self;
     total_inputs_size := total_inputs_size self;
     total_outputs_size := total_outputs_size self;
     success := success self;
     error_message := error_message self |}.

Definition finalize (self : t) : t :=
  match end_time self with
  | Some e =>
      set_duration self (total_seconds (Datetime.sub e (start_time self)))
  | None => self
  end.

Definition durations (self : t) : list float :=
  map ExecutionMetrics.duration (agents self).

Definition get_parallel_efficiency (how : summation) (self : t)
  : result float :=
  match agents self with
  | [] => Ok 0%float
  | _ :: _ =>
      max_agent_duration <- max (durations self) ;;
      let total_agent_duration := sum how (durations self) in
      if PrimFloat.eqb total_agent_duration 0%float then Ok 0%float
      else
        ratio <- truediv total_agent_duration
                   (max_agent_duration * len_float (agents self))%float ;;
        Ok (ratio * 100)%float
  end.

Definition to_dict (how : summation) (self : t) : result pyval :=
  efficiency <- get_parallel_efficiency how self ;;
  Ok (PDict
    [ ("workflow_name", PStr (workflow_name self));
      ("start_time", PStr (Datetime.isoformat (start_time self)));
      ("end_time", isoformat_or_none (end_time self));
      ("total_duration_seconds", PFloat (duration self));
      ("agents", PList (map ExecutionMetrics.to_dict (agents self)));
      ("total_inputs_size_bytes", PInt (total_inputs_size self));
      ("total_outputs_size_bytes", PInt (total_outputs_size self));
      ("workflow_success", PBool (success self));
      ("error_message", PStr (error_message self));
      ("parallel_efficiency_percent", PFloat efficiency) ]%string).

End WorkflowMetrics.

(** ** The heap of workflows and [class MetricsCollector] *)

Record State : Type := mk_state {
  heap : ref -> WorkflowMetrics.t;
  next_ref : ref;
  workflows : list ref
}.

Definition M (A : Type) : Type := State -> result A * State.

Definition ret {A : Type} (a : A) : M A := fun st => (Ok a, st).

Definition bind {A B : Type} (c : M A) (k : A -> M B) : M B :=
  fun st =>
    match c st with
    | (Ok a, st') => k a st'
    | (Raise e, st') => (Raise e, st')
    end.

Notation "x <~~ c ;; k" := (bind c (fun x => k))
  (at level 61, c at next level, right associativity).

Definition lift {A : Type} (r : result A) : M A := fun st => (r, st).

Definition deref (r : ref) : M WorkflowMetrics.t :=
  fun st => (Ok (heap st r), st).

Definition store (r : ref) (w : WorkflowMetrics.t) : M unit :=
  fun st =>
    (Ok tt,
     {| heap := fun r' => if Nat.eqb r' r then w else heap st r';
        next_ref := next_ref st;
        workflows := workflows st |}).

Definition alloc (w : WorkflowMetrics.t) : M ref :=
  fun st =>
    (Ok (next_ref st),
     {| heap := fun r' => if Nat.eqb r' (next_ref st) then w else heap st r';
        next_ref := S (next_ref st);
        workflows := workflows st |}).

Definition mutate (r : ref) (method : WorkflowMetrics.t -> WorkflowMetrics.t)
  : M unit :=
  w <~~ deref r ;; store r (method w).

Definition query {A : Type} (r : ref)
  (method : WorkflowMetrics.t -> result A) : M A :=
  w <~~ deref r ;; lift (method w).

Fixpoint for_each {A B : Type} (f : A -> M B) (xs : list A) : M (list B) :=
  match xs with
  | [] => ret []
  | x :: xs' =>
      y <~~ f x ;;
      ys <~~ for_each f xs' ;;
      ret (y :: ys)
  end.

(** [workflow.add_agent_metrics(metrics)]. *)
Definition add_agent_metrics (workflow : ref) (metrics : ExecutionMetrics.t)
  : M unit :=
  mutate workflow (fun w => WorkflowMetrics.add_agent_metrics w metrics).

(** [sum(w.duration for w in ...)]: the int [0] when there is nothing to
    add, a float otherwise. *)
Definition sum_value (how : summation) (xs : list float) : pyval :=
  match xs with
  | [] => PInt 0
  | _ :: _ => PFloat (sum how xs)
  end.

Module MetricsCollector.

Definition init : State :=
  {| heap := fun _ => WorkflowMetrics.new EmptyString
                        (Datetime.mk_datetime 1 1 1 0 0 0 0);
     next_ref := O;
     workflows := [] |}.

Definition create_workflow (workflow_name : string)
  (now : Datetime.datetime) : M ref :=
  alloc (WorkflowMetrics.new workflow_name now).

Definition append_workflow (workflow : ref) : M unit :=
  fun st =>
    (Ok tt,
     {| heap := heap st;
        next_ref := next_ref st;
        workflows := workflows st ++ [workflow] |}).

Definition finalize_workflow (workflow : ref) (now : Datetime.datetime)
  : M unit :=
  _ <~~ mutate workflow (fun w => WorkflowMetrics.set_end_time w now) ;;
  _ <~~ mutate workflow WorkflowMetrics.finalize ;;
  append_workflow workflow.

Definition self_workflows : M (list ref) :=
  fun st => (Ok (workflows st), st).

Definition get_summary (how : summation) : M pyval :=
  refs <~~ self_workflows ;;
  ws <~~ for_each deref refs ;;
  dicts <~~ for_each (fun r => query r (WorkflowMetrics.to_dict how)) refs ;;
  ret (PDict
    [ ("total_workflows", PInt (Z.of_nat (List.length ws)));
      ("total_agents_executed",
        PInt (Builtins.sum_int
                (map (fun w => Z.of_nat
                                 (List.length (WorkflowMetrics.agents w)))
                     ws)));
      ("total_time", sum_value how (map WorkflowMetrics.duration ws));
      ("workflows", PList dicts) ]%string).

End MetricsCollector.

(** ** The vocabulary of the specification, on doubles *)

(** [m] is the maximum of [xs]: an item of [xs] that no item exceeds. *)
Definition is_maximum (m : float) (xs : list float) : Prop :=
  In m xs /\ Forall (fun x => PrimFloat.leb x m = true) xs.

Definition non_negative (xs : list float) : Prop :=
  Forall (fun x => PrimFloat.leb 0%float x = true) xs.

(** The state a computation leaves, and what it returns or raises. *)
Definition state_after {A : Type} (c : M A) (st : State) : State := snd (c st).

Definition outcome {A : Type} (c : M A) (st : State) : result A := fst (c st).

(** The registered workflows, in registration order. *)
Definition registered (st : State) : list WorkflowMetrics.t :=
  map (heap st) (workflows st).

(** One [finalize_workflow] call per pair of a workflow and the clock
    reading of its call, in order. *)
Definition finalize_all (calls : list (ref * Datetime.datetime))
  : M (list unit) :=
  for_each (fun c => MetricsCollector.finalize_workflow (fst c) (snd c)) calls.

(** ** Fixtures *)

(** A record as the tests build it, with the given duration. *)
Definition record (d : float) : ExecutionMetrics.t :=
  {| ExecutionMetrics.agent_name := "Parallel Agent";
     ExecutionMetrics.agent_type := PARALLEL;
     ExecutionMetrics.start_time := noon;
     ExecutionMetrics.end_time := None;
     ExecutionMetrics.duration := d;
     ExecutionMetrics.success := true;
     ExecutionMetrics.error_message := EmptyString;
     ExecutionMetrics.inputs_size := 0;
     ExecutionMetrics.outputs_size := 0 |}.

(** The workflow of the tests' [setUp] after one [add_agent_metrics] call
    per duration, in order. *)
Definition workflow_with (ds : list float) : WorkflowMetrics.t :=
  fold_left WorkflowMetrics.add_agent_metrics (map record ds)
    (WorkflowMetrics.new "Test Workflow" noon).

(** Scenario B: three records with durations 1.0, 2.0, 3.0. *)
Definition scenario_B : WorkflowMetrics.t := workflow_with [1; 2; 3]%float.

(** The double that Python writes [66.66666666666666]. *)
Definition two_thirds_percent : float := 0x1.0aaaaaaaaaaaap+6%float.

(** The double that Python writes [0.3]. *)
Definition three_tenths : float := 0x1.3333333333333p-2%float.

(** The double that Python writes [100.00000000000003]. *)
Definition just_above_100 : float := 0x1.9000000000002p+6%float.

(** Six records of 0.3 seconds each. *)
Definition six_equal : WorkflowMetrics.t :=
  workflow_with [three_tenths; three_tenths; three_tenths;
                 three_tenths; three_tenths; three_tenths].

(** Two records of 1e308 seconds each. *)
Definition overflowing : WorkflowMetrics.t :=
  workflow_with [0x1.1ccf385ebc8a0p+1023; 0x1.1ccf385ebc8a0p+1023]%float.

(** One record whose duration is [float('inf')]. *)
Definition endless : WorkflowMetrics.t := workflow_with [infinity].

(** A record that was completed one second before it started. *)
Definition backwards_record : ExecutionMetrics.t :=
  {| ExecutionMetrics.agent_name := "Test Agent";
     ExecutionMetrics.agent_type := SERIAL;
     ExecutionMetrics.start_time := noon;
     ExecutionMetrics.end_time :=
       Some (Datetime.mk_datetime 2024 3 1 11 59 59 0);
     ExecutionMetrics.duration := 0%float;
     ExecutionMetrics.success := true;
     ExecutionMetrics.error_message := EmptyString;
     ExecutionMetrics.inputs_size := 0;
     ExecutionMetrics.outputs_size := 0 |}.

(** The record of [test_metrics_duration_calculation]: completed five
    seconds after it started. *)
Definition five_second_record : ExecutionMetrics.t :=
  {| ExecutionMetrics.agent_name := "Test Agent";
     ExecutionMetrics.agent_type := SERIAL;
     ExecutionMetrics.start_time := noon;
     ExecutionMetrics.end_time :=
       Some (Datetime.mk_datetime 2024 3 1 12 0 5 0);
     ExecutionMetrics.duration := 0%float;
     ExecutionMetrics.success := true;
     ExecutionMetrics.error_message := EmptyString;
     ExecutionMetrics.inputs_size := 0;
     ExecutionMetrics.outputs_size := 0 |}.

(** The collector after [test_finalize_workflow]: one workflow created at
    noon and finalized five seconds later.  Its reference is [0]. *)
Definition finalized_registry : State :=
  state_after
    (workflow <~~ MetricsCollector.create_workflow "Test" noon ;;
     MetricsCollector.finalize_workflow workflow five_past_noon)
    MetricsCollector.init.

(** A collector whose only workflow holds a record of duration 0.0 and
    one of duration -1.0. *)
Definition negative_registry : State :=
  state_after
    (workflow <~~ MetricsCollector.create_workflow "Test" noon ;;
     _ <~~ add_agent_metrics workflow (record 0) ;;
     _ <~~ add_agent_metrics workflow (record (-1)) ;;
     MetricsCollector.finalize_workflow workflow five_past_noon)
    MetricsCollector.init.

(** Two workflows: the first to be created gets three records and is
    finalized last, seven and a half seconds after noon; the second is
    finalized five seconds after noon.  Their references are [0] and
    [1]. *)
Definition two_workflows : State :=
  state_after
    (first <~~ MetricsCollector.create_workflow "First" noon ;;
     _ <~~ add_agent_metrics first (record 1) ;;
     _ <~~ add_agent_metrics first (record 2) ;;
     _ <~~ add_agent_metrics first (record 3) ;;
     second <~~ MetricsCollector.create_workflow "Second" noon ;;
     _ <~~ MetricsCollector.finalize_workflow second five_past_noon ;;
     MetricsCollector.finalize_workflow first
       (Datetime.mk_datetime 2024 3 1 12 0 7 500000))
    MetricsCollector.init.

End Binary64.

(** ** Further vocabulary for the double reading *)

(** The doubles that Python writes [0.1] and [0.2]. *)
Definition one_tenth : float := 0x1.999999999999ap-4%float.

Definition two_tenths : float := 0x1.999999999999ap-3%float.

(** The day after a date, at the same time of day. *)
Definition tomorrow (d : Datetime.datetime) : Datetime.datetime :=
  let '(y, m, dd) :=
    if (Datetime.day d <? days_in_month (Datetime.year d) (Datetime.month d))%Z
    then (Datetime.year d, Datetime.month d, Datetime.day d + 1)%Z
    else if (Datetime.month d <? 12)%Z
         then (Datetime.year d, Datetime.month d + 1, 1)%Z
         else (Datetime.year d + 1, 1, 1)%Z in
  Datetime.mk_datetime y m dd (Datetime.hour d) (Datetime.minute d)
    (Datetime.second d) (Datetime.microsecond d).

(** ** Vocabulary for the properties of doubles *)

Section DoubleVocabulary.

Open Scope Z_scope.

(** A key for every double that is not a NaN: the keys compare, field
    by field, as the doubles do. *)
Definition key (x : spec_float) : option (Z * Z * Z) :=
  match x with
  | S754_nan => None
  | S754_zero _ => Some (0, 0, 0)
  | S754_infinity s => Some (if s then -2 else 2, 0, 0)
  | S754_finite s m e =>
      Some (if s then (-1, - e, Zneg m) else (1, e, Zpos m))
  end.

(** The order of the keys. *)
Definition lex (a b : Z * Z * Z) : comparison :=
  let '(a1, a2, a3) := a in
  let '(b1, b2, b3) := b in
  match a1 ?= b1 with
  | Eq => match a2 ?= b2 with
          | Eq => a3 ?= b3
          | c => c
          end
  | c => c
  end.

Definition le3 (a b : Z * Z * Z) : Prop := lex a b <> Gt.

Definition lt3 (a b : Z * Z * Z) : Prop := lex a b = Lt.

Definition fkey (x : float) : option (Z * Z * Z) := key (Prim2SF x).

(** [m * 2^e >= 2^k], with integers only. *)
Definition at_least (k : Z) (m e : Z) : Prop := 2 ^ (k - e) <= m.

(** A double that is [0.0] or [-0.0]. *)
Definition is_zero (x : float) : Prop := exists s, Prim2SF x = S754_zero s.

(** A double that is not a NaN. *)
Definition comparable (x : float) : Prop := exists k, fkey x = Some k.

End DoubleVocabulary.

(** * Properties *)

(** ** Sums and maxima of durations *)

Section Durations.

Open Scope Q_scope.


Lemma fold_left_Qplus (xs : list Q) (a : Q) :
  fold_left Qplus xs a == a + total xs.
Proof.
  revert a; induction xs as [|x xs IH]; intros a; simpl.
  - lra.
  - rewrite IH. lra.
Qed.

Lemma sum_total (xs : list Q) : Builtins.sum xs == total xs.
Proof. unfold Builtins.sum. rewrite fold_left_Qplus. lra. Qed.

Lemma max_step_cases (m x : Q) :
  (Builtins.max_step m x = x /\ m < x)
  \/ (Builtins.max_step m x = m /\ x <= m).
Proof.
  unfold Builtins.max_step.
  destruct (x ?= m) eqn:E.
  - right. split; [reflexivity|]. apply Qeq_alt in E. lra.
  - right. split; [reflexivity|]. apply Qlt_alt in E. lra.
  - left. split; [reflexivity|]. apply Qgt_alt in E. exact E.
Qed.

Lemma fold_max_step (xs : list Q) (a : Q) :
  let m := fold_left Builtins.max_step xs a in
  (m = a \/ In m xs) /\ a <= m /\ Forall (fun x => x <= m) xs.
Proof.
  revert a; induction xs as [|x xs IH]; intros a; simpl.
  - repeat split; [now left | lra | constructor].
  - destruct (IH (Builtins.max_step a x)) as [Hin [Hle Hall]].
    destruct (max_step_cases a x) as [[E Hlt] | [E Hge]];
      rewrite E in *.
    + repeat split.
      * destruct Hin as [-> | Hin]; right; [now left | now right].
      * lra.
      * constructor; assumption.
    + repeat split.
      * destruct Hin as [Hin | Hin]; [now left | right; now right].
      * exact Hle.
      * constructor; [lra | assumption].
Qed.

Lemma max_is_maximum (x : Q) (xs : list Q) :
  exists m, Builtins.max (x :: xs) = Ok m /\ is_maximum m (x :: xs).
Proof.
  exists (fold_left Builtins.max_step xs x). split; [reflexivity|].
  destruct (fold_max_step xs x) as [Hin [Hle Hall]].
  split.
  - destruct Hin as [-> | Hin]; [now left | now right].
  - constructor; assumption.
Qed.

Lemma is_maximum_unique (m m' : Q) (xs : list Q) :
  is_maximum m xs -> is_maximum m' xs -> m == m'.
Proof.
  intros [Hin Hall] [Hin' Hall'].
  rewrite Forall_forall in Hall, Hall'.
  apply Qle_antisym; auto.
Qed.

Lemma count_cons (x : Q) (xs : list Q) : count (x :: xs) == 1 + count xs.
Proof.
  unfold count. cbn [List.length]. rewrite Nat2Z.inj_succ.
  unfold Z.succ. rewrite inject_Z_plus. change (inject_Z 1) with 1. lra.
Qed.

Lemma count_non_negative (xs : list Q) : 0 <= count xs.
Proof.
  unfold count. change 0 with (inject_Z 0).
  rewrite <- Zle_Qle. lia.
Qed.



End Durations.

(** ** [get_parallel_efficiency] *)

Section ParallelEfficiency.

Open Scope Q_scope.
Import WorkflowMetrics.

Lemma len_float_count (w : t) :
  Builtins.len_float (agents w) = count (durations w).
Proof.
  unfold Builtins.len_float, count, durations. now rewrite length_map.
Qed.

Lemma count_positive (x : Q) (xs : list Q) : 0 < count (x :: xs).
Proof.
  rewrite count_cons. pose proof (count_non_negative xs). lra.
Qed.

Lemma efficiency_empty (w : t) :
  agents w = [] -> get_parallel_efficiency w = Ok 0.
Proof. intros E. unfold get_parallel_efficiency. now rewrite E. Qed.

Lemma efficiency_total_zero (w : t) :
  total (durations w) == 0 -> get_parallel_efficiency w = Ok 0.
Proof.
  intros Hz. unfold get_parallel_efficiency.
  destruct (agents w) as [|a rest] eqn:E; [reflexivity|].
  unfold durations. rewrite E. cbn [map].
  destruct (max_is_maximum (ExecutionMetrics.duration a)
              (map ExecutionMetrics.duration rest)) as [m [Hm _]].
  rewrite Hm. cbn [rbind].
  unfold durations in Hz. rewrite E in Hz. cbn [map] in Hz.
  rewrite <- sum_total in Hz. apply Qeq_bool_iff in Hz.
  now rewrite Hz.
Qed.

(** With a sum that is not zero the function reaches the division, and
    divides by the maximum it computed times the number of records. *)
Lemma efficiency_divides (w : t) :
  ~ total (durations w) == 0 ->
  exists m,
    is_maximum m (durations w) /\
    get_parallel_efficiency w =
      (ratio <- Builtins.truediv (Builtins.sum (durations w))
                  (m * count (durations w)) ;;
       Ok (ratio * 100)).
Proof.
  intros Hne. unfold get_parallel_efficiency.
  rewrite len_float_count.
  destruct (agents w) as [|a rest] eqn:E.
  - exfalso. apply Hne. unfold durations. now rewrite E.
  - unfold durations in *. rewrite E in *. cbn [map] in *.
    destruct (max_is_maximum (ExecutionMetrics.duration a)
                (map ExecutionMetrics.duration rest)) as [m [Hm Hmax]].
    exists m. split; [exact Hmax|].
    rewrite Hm. cbn [rbind].
    destruct (Qeq_bool _ 0) eqn:Hb; [|reflexivity].
    exfalso. apply Hne. apply Qeq_bool_iff in Hb.
    now rewrite <- sum_total.
Qed.


End ParallelEfficiency.

Section EfficiencyClaims.

Open Scope Q_scope.
Import WorkflowMetrics.





End EfficiencyClaims.

(** ** Durations from timestamps *)

Section DurationClaims.

Import Datetime.

Lemma timedelta_new_total (d s us : Z) :
  total_microseconds (timedelta_new d s us)
  = ((d * 86400 + s) * 10 ^ 6 + us)%Z.
Proof.
  unfold total_microseconds, timedelta_new. cbn [days seconds microseconds].
  change (10 ^ 6)%Z with 1000000%Z.
  pose proof (Z.div_mod us 1000000 ltac:(lia)) as Hus.
  pose proof (Z.div_mod (s + us / 1000000) 86400 ltac:(lia)) as Hs.
  lia.
Qed.

(** Subtraction of datetimes is the difference of their positions on
    the time line. *)
Lemma sub_total_microseconds (finish start : datetime) :
  total_microseconds (sub finish start)
  = (timestamp finish - timestamp start)%Z.
Proof.
  unfold sub. rewrite timedelta_new_total. unfold timestamp. lia.
Qed.

End DurationClaims.

(** ** Computations on the heap *)

Section Heap.

Lemma bind_ok {A B : Type} {c : M A} (k : A -> M B) {st st' : State}
  {a : A} :
  c st = (Ok a, st') -> bind c k st = k a st'.
Proof. intros H. unfold bind. now rewrite H. Qed.

Lemma mutate_run (r : ref) (f : WorkflowMetrics.t -> WorkflowMetrics.t)
  (st : State) :
  mutate r f st =
    (Ok tt,
     {| heap := fun r' => if Nat.eqb r' r then f (heap st r) else heap st r';
        next_ref := next_ref st;
        workflows := workflows st |}).
Proof. reflexivity. Qed.

Lemma add_agent_metrics_run (r : ref) (m : ExecutionMetrics.t)
  (st : State) :
  add_agent_metrics r m st =
    (Ok tt,
     {| heap := fun r' =>
                  if Nat.eqb r' r
                  then WorkflowMetrics.add_agent_metrics (heap st r) m
                  else heap st r';
        next_ref := next_ref st;
        workflows := workflows st |}).
Proof. reflexivity. Qed.

(** A run of [add_agent_metrics] calls on one workflow returns, and
    leaves in the heap the workflow that the method calls build. *)
Lemma add_all_run (r : ref) (records : list ExecutionMetrics.t) :
  forall st,
    exists units,
      outcome (for_each (add_agent_metrics r) records) st = Ok units /\
      heap (state_after (for_each (add_agent_metrics r) records) st) r
      = fold_left WorkflowMetrics.add_agent_metrics records (heap st r) /\
      workflows (state_after (for_each (add_agent_metrics r) records) st)
      = workflows st.
Proof.
  unfold outcome, state_after.
  induction records as [|m records IH]; intros st.
  - exists []. cbn. auto.
  - cbn [for_each].
    rewrite (bind_ok _ (add_agent_metrics_run r m st)).
    match goal with |- context [bind _ _ ?s] => set (st1 := s) end.
    destruct (IH st1) as [units [Ho [Hh Hw]]].
    destruct (for_each (add_agent_metrics r) records st1) as [res st2] eqn:E.
    cbn [fst snd] in *. subst res.
    rewrite (bind_ok _ E). cbn [ret fst snd].
    exists (tt :: units). split; [reflexivity|]. split.
    + rewrite Hh. unfold st1. cbn [heap]. now rewrite Nat.eqb_refl.
    + rewrite Hw. reflexivity.
Qed.

Lemma fold_add_agent_metrics (records : list ExecutionMetrics.t) :
  forall w,
    let w' := fold_left WorkflowMetrics.add_agent_metrics records w in
    WorkflowMetrics.agents w' = WorkflowMetrics.agents w ++ records /\
    WorkflowMetrics.total_inputs_size w'
    = (WorkflowMetrics.total_inputs_size w
       + total_size (map ExecutionMetrics.inputs_size records))%Z /\
    WorkflowMetrics.total_outputs_size w'
    = (WorkflowMetrics.total_outputs_size w
       + total_size (map ExecutionMetrics.outputs_size records))%Z.
Proof.
  induction records as [|m records IH]; intros w.
  - cbn. rewrite app_nil_r. repeat split; lia.
  - destruct (IH (WorkflowMetrics.add_agent_metrics w m)) as [Ha [Hi Ho]].
    cbn [fold_left map total_size fold_right].
    cbv zeta in Ha, Hi, Ho. rewrite Ha, Hi, Ho.
    cbn [WorkflowMetrics.add_agent_metrics WorkflowMetrics.agents
         WorkflowMetrics.total_inputs_size
         WorkflowMetrics.total_outputs_size].
    rewrite <- app_assoc.
    fold (total_size (map ExecutionMetrics.inputs_size records)).
    fold (total_size (map ExecutionMetrics.outputs_size records)).
    cbn [app]. repeat split; lia.
Qed.

(** C5.  Start a workflow and call [add_agent_metrics] once per record
    of any list: the calls return, the workflow's [agents] is that list,
    and [total_inputs_size] and [total_outputs_size] are the sums of the
    input and output sizes over [agents].  For the records of scenario
    C the totals are 600 and 1200. *)
Theorem totals_are_sums :
  (forall (st : State) (name : string) (now : Datetime.datetime)
          (records : list ExecutionMetrics.t),
      exists workflow,
        outcome (start_and_add name now records) st = Ok workflow /\
        let w := heap (state_after (start_and_add name now records) st)
                   workflow in
        WorkflowMetrics.agents w = records /\
        WorkflowMetrics.total_inputs_size w
        = total_size (map ExecutionMetrics.inputs_size
                        (WorkflowMetrics.agents w)) /\
        WorkflowMetrics.total_outputs_size w
        = total_size (map ExecutionMetrics.outputs_size
                        (WorkflowMetrics.agents w)))
  /\
  (let w := heap (state_after (start_and_add "Test Workflow" noon scenario_C)
                    MetricsCollector.init) O in
   WorkflowMetrics.total_inputs_size w = 600%Z /\
   WorkflowMetrics.total_outputs_size w = 1200%Z).
Proof.
  split; [|split; reflexivity].
  intros st name now records.
  unfold start_and_add, outcome, state_after.
  rewrite (bind_ok _ (eq_refl : MetricsCollector.create_workflow
                                      name now st = (Ok (next_ref st), _))).
  match goal with |- context [bind _ _ ?s] => set (st1 := s) end.
  destruct (add_all_run (next_ref st) records st1) as [units [Ho [Hh _]]].
  unfold outcome, state_after in Ho, Hh.
  exists (next_ref st).
  destruct (for_each (add_agent_metrics (next_ref st)) records st1)
    as [res st2] eqn:E.
  cbn [fst snd] in *. subst res.
  rewrite (bind_ok _ E). cbn [ret fst snd].
  split; [reflexivity|]. rewrite Hh.
  destruct (fold_add_agent_metrics records (heap st1 (next_ref st)))
    as [Ha [Hi Hout]].
  assert (Hnew : heap st1 (next_ref st) = WorkflowMetrics.new name now).
  { unfold st1. cbn [heap]. now rewrite Nat.eqb_refl. }
  rewrite Hnew in *. cbn in Ha, Hi, Hout.
  cbv zeta. rewrite Ha, Hi, Hout. auto.
Qed.

End Heap.

(** ** Lifecycle: adding after finalization, and finalization *)

Section Lifecycle.

Import Datetime.

(** C4 fails as stated: on the finalized workflow of
    [finalized_registry], [add_agent_metrics] returns normally and the
    workflow has the record appended. *)
Lemma add_after_finalize_succeeds :
  workflows finalized_registry = [O] /\
  WorkflowMetrics.end_time (heap finalized_registry O)
  = Some five_past_noon /\
  outcome (add_agent_metrics O (record 1 100 200)) finalized_registry
  = Ok tt /\
  WorkflowMetrics.agents
    (heap (state_after (add_agent_metrics O (record 1 100 200))
             finalized_registry) O)
  = [record 1 100 200] /\
  WorkflowMetrics.agents (heap finalized_registry O) = [].
Proof. repeat split. Qed.

(** C4, as the code has it.  [add_agent_metrics] has no lifecycle
    check: on a workflow that has been finalized it returns normally,
    appends the record, adds the record's sizes to the totals, and
    leaves [end_time], [duration], the other workflows and the
    collector's list as they are. *)
Theorem add_agent_metrics_after_finalize (st : State) (r : ref)
  (m : ExecutionMetrics.t) (e : datetime) :
  WorkflowMetrics.end_time (heap st r) = Some e ->
  outcome (add_agent_metrics r m) st = Ok tt /\
  let w := heap st r in
  let st' := state_after (add_agent_metrics r m) st in
  let w' := heap st' r in
  WorkflowMetrics.agents w' = WorkflowMetrics.agents w ++ [m] /\
  WorkflowMetrics.total_inputs_size w'
  = (WorkflowMetrics.total_inputs_size w
     + ExecutionMetrics.inputs_size m)%Z /\
  WorkflowMetrics.total_outputs_size w'
  = (WorkflowMetrics.total_outputs_size w
     + ExecutionMetrics.outputs_size m)%Z /\
  WorkflowMetrics.end_time w' = Some e /\
  WorkflowMetrics.duration w' = WorkflowMetrics.duration w /\
  workflows st' = workflows st /\
  (forall r', r' <> r -> heap st' r' = heap st r').
Proof.
  intros He. unfold outcome, state_after.
  rewrite add_agent_metrics_run. cbn [fst snd heap workflows].
  rewrite Nat.eqb_refl. cbn.
  repeat split; try assumption.
  intros r' Hne. apply Nat.eqb_neq in Hne. now rewrite Hne.
Qed.

Lemma add_agent_metrics_after_finalize_witness :
  outcome (add_agent_metrics O (record 1 100 200)) finalized_registry
  = Ok tt.
Proof.
  apply (add_agent_metrics_after_finalize finalized_registry O
           (record 1 100 200) five_past_noon).
  reflexivity.
Defined.

Lemma finalize_workflow_run (r : ref) (now : datetime) (st : State) :
  exists st',
    MetricsCollector.finalize_workflow r now st = (Ok tt, st') /\
    (forall r',
        heap st' r' =
          if Nat.eqb r' r
          then WorkflowMetrics.set_duration
                 (WorkflowMetrics.set_end_time (heap st r) now)
                 (total_seconds
                    (sub now (WorkflowMetrics.start_time (heap st r))))
          else heap st r') /\
    workflows st' = workflows st ++ [r].
Proof.
  unfold MetricsCollector.finalize_workflow.
  rewrite (bind_ok _ (mutate_run _ _ _)).
  rewrite (bind_ok _ (mutate_run _ _ _)).
  unfold MetricsCollector.append_workflow.
  cbn [heap next_ref workflows]. rewrite Nat.eqb_refl.
  eexists. split; [reflexivity|]. cbn [heap workflows].
  split; [|reflexivity].
  intros r'. destruct (Nat.eqb r' r); reflexivity.
Qed.

End Lifecycle.

(** ** The summary *)

Section Summary.

Lemma sum_int_total_size (xs : list Z) : Builtins.sum_int xs = total_size xs.
Proof.
  unfold Builtins.sum_int.
  assert (H : forall a, fold_left Z.add xs a = (a + total_size xs)%Z).
  { induction xs as [|x xs IH]; intros a; cbn.
    - lia.
    - rewrite IH. fold (total_size xs). lia. }
  now rewrite H.
Qed.

Lemma for_each_deref (refs : list ref) (st : State) :
  for_each deref refs st = (Ok (map (heap st) refs), st).
Proof.
  induction refs as [|r refs IH]; [reflexivity|].
  cbn [for_each map].
  rewrite (bind_ok _ (eq_refl : deref r st = (Ok (heap st r), st))).
  rewrite (bind_ok _ IH). reflexivity.
Qed.

(** Serialising the workflows behind a list of references reads the
    heap and leaves it as it is; it returns the list comprehension over
    the workflows. *)
Lemma for_each_to_dict (refs : list ref) (st : State) :
  for_each (fun r => query r WorkflowMetrics.to_dict) refs st
  = (list_comprehension WorkflowMetrics.to_dict (map (heap st) refs), st).
Proof.
  induction refs as [|r refs IH]; [reflexivity|].
  cbn [for_each map list_comprehension].
  unfold bind at 1. unfold query at 1. unfold bind at 1.
  cbn [deref lift].
  destruct (WorkflowMetrics.to_dict (heap st r)) as [d | e];
    cbn [rbind]; [|reflexivity].
  unfold bind. rewrite IH.
  destruct (list_comprehension _ _) as [ds | e]; reflexivity.
Qed.

Lemma get_summary_run (st : State) :
  MetricsCollector.get_summary st =
    (dicts <- list_comprehension WorkflowMetrics.to_dict (registered st) ;;
     Ok (PDict
       [ ("total_workflows", PInt (Z.of_nat (List.length (registered st))));
         ("total_agents_executed",
           PInt (Builtins.sum_int
                   (map (fun w => Z.of_nat
                                    (List.length (WorkflowMetrics.agents w)))
                        (registered st))));
         ("total_time",
           sum_value (map WorkflowMetrics.duration (registered st)));
         ("workflows", PList dicts) ]%string),
     st).
Proof.
  unfold MetricsCollector.get_summary, registered.
  rewrite (bind_ok _ (eq_refl : MetricsCollector.self_workflows st
                                = (Ok (workflows st), st))).
  rewrite (bind_ok _ (for_each_deref _ _)).
  unfold bind. rewrite for_each_to_dict.
  destruct (list_comprehension _ _) as [ds | e]; reflexivity.
Qed.

Lemma list_comprehension_ok {A B : Type} (f : A -> result B) (xs : list A) :
  Forall (fun x => exists y, f x = Ok y) xs ->
  exists ys, list_comprehension f xs = Ok ys
             /\ Forall2 (fun x y => f x = Ok y) xs ys.
Proof.
  induction 1 as [|x xs [y Hy] _ [ys [Hys Hall]]].
  - exists []. split; [reflexivity | constructor].
  - exists (y :: ys). cbn [list_comprehension]. rewrite Hy, Hys.
    split; [reflexivity | now constructor].
Qed.

(** C10.  [get_summary] leaves the state as it found it, so a second
    call on the unchanged state returns, or raises, exactly what the
    first call did. *)
Theorem get_summary_idempotent (st : State) :
  let first := MetricsCollector.get_summary st in
  let second := MetricsCollector.get_summary (snd first) in
  snd first = st /\ snd second = st /\ fst second = fst first.
Proof.
  cbv zeta. rewrite get_summary_run. cbn [snd].
  rewrite get_summary_run. cbn [fst snd]. auto.
Qed.

End Summary.

(** ** IEEE doubles: order, rounding and exact operations

    Facts about [PrimFloat] operations, from their specification in
    [SpecFloat]. *)

Section Doubles.

Open Scope Z_scope.

(** *** The order of doubles

    [SFcompare] is the lexicographic comparison of the keys. *)
Lemma SFcompare_key (x y : spec_float) :
  SFcompare x y =
    match key x, key y with
    | Some a, Some b => Some (lex a b)
    | _, _ => None
    end.
Proof.
  destruct x as [s| s| |s m e], y as [s'| s'| |s' m' e'];
    try destruct s; try destruct s'; try reflexivity; cbn.
  rewrite Z.compare_opp, (Z.compare_antisym e e').
  destruct (e ?= e'); reflexivity.
Qed.

(** Splits every comparison of the keys and leaves linear arithmetic. *)
Ltac lex_tac :=
  unfold le3, lt3, lex;
  repeat match goal with
         | a : (Z * Z * Z)%type |- _ => destruct a as [[? ?] ?]
         end;
  intros;
  repeat match goal with
         | H : context [?x ?= ?y] |- _ => destruct (Z.compare_spec x y)
         | |- context [?x ?= ?y] => destruct (Z.compare_spec x y)
         end;
  try congruence; try lia.

Lemma le3_refl (a : Z * Z * Z) : le3 a a.
Proof. lex_tac. Qed.

Lemma le3_trans (a b c : Z * Z * Z) : le3 a b -> le3 b c -> le3 a c.
Proof. lex_tac. Qed.

Lemma lt3_le3_trans (a b c : Z * Z * Z) :
  lt3 a b -> le3 b c -> lt3 a c.
Proof. lex_tac. Qed.

Lemma not_lt3 (a b : Z * Z * Z) : ~ lt3 a b -> le3 b a.
Proof. lex_tac. Qed.

Lemma lt3_le3 (a b : Z * Z * Z) : lt3 a b -> le3 a b.
Proof. lex_tac. Qed.

(** [<=] and [<] on doubles hold between doubles that have keys, and
    say what the order of the keys says. *)
Lemma leb_key (x y : float) :
  PrimFloat.leb x y = true <->
  exists a b, fkey x = Some a /\ fkey y = Some b /\ le3 a b.
Proof.
  rewrite leb_spec. unfold SFleb. rewrite SFcompare_key. unfold fkey.
  destruct (key (Prim2SF x)) as [a|], (key (Prim2SF y)) as [b|];
    try (split; [discriminate | intros (? & ? & ? & ? & ?); discriminate]).
  split.
  - intros H. exists a, b. repeat split. unfold le3.
    destruct (lex a b); congruence.
  - intros (a' & b' & Ha & Hb & Hle). injection Ha as <-. injection Hb as <-.
    unfold le3 in Hle. destruct (lex a b); congruence.
Qed.

Lemma ltb_key (x y : float) :
  PrimFloat.ltb x y = true <->
  exists a b, fkey x = Some a /\ fkey y = Some b /\ lt3 a b.
Proof.
  rewrite ltb_spec. unfold SFltb. rewrite SFcompare_key. unfold fkey.
  destruct (key (Prim2SF x)) as [a|], (key (Prim2SF y)) as [b|];
    try (split; [discriminate | intros (? & ? & ? & ? & ?); discriminate]).
  split.
  - intros H. exists a, b. repeat split. unfold lt3.
    destruct (lex a b); congruence.
  - intros (a' & b' & Ha & Hb & Hle). injection Ha as <-. injection Hb as <-.
    unfold lt3 in Hle. now rewrite Hle.
Qed.

(** *** Rounding

    The number of binary digits of a mantissa. *)
Lemma digits2_pos_bounds (p : positive) :
  2 ^ (Zpos (digits2_pos p) - 1) <= Zpos p < 2 ^ Zpos (digits2_pos p).
Proof.
  induction p as [p IH | p IH |]; cbn [digits2_pos].
  - rewrite Pos2Z.inj_succ.
    replace (Z.succ (Zpos (digits2_pos p)) - 1)
      with (Z.succ (Zpos (digits2_pos p) - 1)) by lia.
    rewrite !Z.pow_succ_r by lia. lia.
  - rewrite Pos2Z.inj_succ.
    replace (Z.succ (Zpos (digits2_pos p)) - 1)
      with (Z.succ (Zpos (digits2_pos p) - 1)) by lia.
    rewrite !Z.pow_succ_r by lia. lia.
  - cbn. lia.
Qed.

(** Shifting a mantissa right by one bit, and by [p] bits, divides it by
    2, and by [2^p]. *)
Lemma shr_1_m (mrs : shr_record) :
  0 <= shr_m mrs -> shr_m (shr_1 mrs) = shr_m mrs / 2.
Proof.
  destruct mrs as [m r s]. cbn [shr_m]. intros Hm.
  destruct m as [|p|p]; [reflexivity | | lia].
  destruct p as [p|p|]; cbn [shr_1 shr_m].
  - rewrite Pos2Z.inj_xI. apply Z.div_unique with 1; lia.
  - rewrite Pos2Z.inj_xO. apply Z.div_unique with 0; lia.
  - reflexivity.
Qed.

Lemma iter_shr_1_m (p : positive) :
  forall mrs, 0 <= shr_m mrs ->
    shr_m (iter_pos shr_1 p mrs) = shr_m mrs / 2 ^ Zpos p.
Proof.
  assert (Hnn : forall mrs, 0 <= shr_m mrs -> 0 <= shr_m (shr_1 mrs)).
  { intros mrs H. rewrite shr_1_m by exact H. apply Z.div_pos; lia. }
  assert (EI : forall p, 2 ^ Zpos p~1 = 2 * 2 ^ Zpos p * 2 ^ Zpos p).
  { intros q. rewrite <- Z.mul_assoc, <- Z.pow_add_r by lia.
    rewrite <- Z.pow_succ_r by lia. f_equal. lia. }
  assert (EO : forall p, 2 ^ Zpos p~0 = 2 ^ Zpos p * 2 ^ Zpos p).
  { intros q. rewrite <- Z.pow_add_r by lia. f_equal. lia. }
  assert (Hpos : forall p, 0 < 2 ^ Zpos p)
    by (intros q; apply Z.pow_pos_nonneg; lia).
  induction p as [p IH | p IH |]; intros mrs Hm; cbn [iter_pos].
  - pose proof (Hpos p).
    rewrite IH, IH, shr_1_m; auto.
    + rewrite EI.
      rewrite <- (Z.div_div _ (2 * 2 ^ Zpos p) (2 ^ Zpos p)) by lia.
      rewrite <- (Z.div_div _ 2 (2 ^ Zpos p)) by lia. reflexivity.
    + rewrite IH by auto. apply Z.div_pos; [auto | lia].
  - pose proof (Hpos p).
    rewrite IH, IH; auto.
    + rewrite EO.
      rewrite <- (Z.div_div _ (2 ^ Zpos p) (2 ^ Zpos p)) by lia.
      reflexivity.
    + rewrite IH by auto. apply Z.div_pos; [auto | lia].
  - rewrite shr_1_m by auto. reflexivity.
Qed.

Lemma shr_record_of_loc_m (m : Z) (l : location) :
  shr_m (shr_record_of_loc m l) = m.
Proof. destruct l as [|[]]; reflexivity. Qed.

(** When rounding shifts the mantissa right, what is left has at most
    [prec] digits, is not zero, and is still at least [2^k]. *)
Lemma shift_bound (m e k : Z) :
  0 < m -> emin <= k -> at_least k m e ->
  let n := SpecFloat.fexp prec emax (Zdigits2 m + e) - e in
  0 < n ->
  1 <= m / 2 ^ n < 2 ^ prec /\ at_least k (m / 2 ^ n) (e + n).
Proof.
  intros Hm Hk Hb n Hn. unfold at_least in *.
  destruct m as [|p|p]; try lia.
  pose proof (digits2_pos_bounds p) as [Hlo Hhi].
  cbn [Zdigits2] in n. set (d := Zpos (digits2_pos p)) in *.
  assert (Hd : 1 <= d) by (unfold d; lia).
  unfold SpecFloat.fexp in n.
  assert (H2n : 0 < 2 ^ n) by (apply Z.pow_pos_nonneg; lia).
  destruct (Z.max_spec (d + e - prec) emin) as [[Hlt Hmax] | [Hge Hmax]].
  - (* the exponent is emin *)
    assert (En : n = emin - e) by (unfold n; lia).
    assert (Hke : n <= k - e) by lia.
    assert (Hpow : 2 ^ (k - e) = 2 ^ (k - e - n) * 2 ^ n).
    { rewrite <- Z.pow_add_r by lia. f_equal. lia. }
    assert (Hq : 2 ^ (k - e - n) <= Zpos p / 2 ^ n).
    { apply Z.div_le_lower_bound; [lia|]. rewrite Z.mul_comm. lia. }
    assert (H1 : 1 <= 2 ^ (k - e - n)).
    { apply (Z.pow_le_mono_r 2 0); lia. }
    split; [split; [lia|] |].
    + apply Z.div_lt_upper_bound; [lia|].
      apply Z.lt_le_trans with (2 ^ d); [lia|].
      rewrite <- Z.pow_add_r by (unfold prec; lia).
      apply Z.pow_le_mono_r; lia.
    + replace (k - (e + n)) with (k - e - n) by lia. exact Hq.
  - (* the mantissa keeps [prec] digits *)
    assert (En : n = d - prec) by (unfold n; lia).
    assert (Hq : 2 ^ (prec - 1) <= Zpos p / 2 ^ n).
    { apply Z.div_le_lower_bound; [lia|].
      rewrite <- Z.pow_add_r by (unfold prec; lia).
      replace (n + (prec - 1)) with (d - 1) by lia. exact Hlo. }
    assert (H1 : 1 <= 2 ^ (prec - 1))
      by (apply (Z.pow_le_mono_r 2 0); unfold prec; lia).
    split; [split; [lia|] |].
    + apply Z.div_lt_upper_bound; [lia|].
      rewrite <- Z.pow_add_r by (unfold prec; lia).
      replace (n + prec) with d by lia. exact Hhi.
    + apply Z.le_trans with (2 ^ (prec - 1)); [|exact Hq].
      destruct (Z_lt_le_dec (k - (e + n)) 0) as [Hneg | Hpos].
      * rewrite Z.pow_neg_r by lia. lia.
      * apply Z.pow_le_mono_r; [lia|].
        assert (k - e < d).
        { destruct (Z_lt_le_dec (k - e) d); [assumption|].
          assert (2 ^ d <= 2 ^ (k - e)) by (apply Z.pow_le_mono_r; lia).
          lia. }
        lia.
Qed.

(** A mantissa that rounding does not shift has at most [prec]
    digits. *)
Lemma no_shift_digits (m e : Z) :
  0 < m -> SpecFloat.fexp prec emax (Zdigits2 m + e) - e <= 0 -> m < 2 ^ prec.
Proof.
  intros Hm Hn. destruct m as [|p|p]; try lia.
  pose proof (digits2_pos_bounds p) as [Hlo Hhi].
  cbn [Zdigits2] in Hn. unfold SpecFloat.fexp in Hn.
  apply Z.lt_le_trans with (2 ^ Zpos (digits2_pos p)); [lia|].
  apply Z.pow_le_mono_r; lia.
Qed.

(** What [shr_fexp] leaves of a positive mantissa that is at least
    [2^k]. *)
Lemma shr_fexp_bound (m e k : Z) (l : location) :
  0 < m -> emin <= k -> at_least k m e ->
  1 <= shr_m (fst (shr_fexp prec emax m e l)) < 2 ^ prec /\
  at_least k (shr_m (fst (shr_fexp prec emax m e l)))
             (snd (shr_fexp prec emax m e l)).
Proof.
  intros Hm Hk Hb. unfold shr_fexp, shr.
  pose proof (shift_bound m e k Hm Hk Hb) as Hs. cbv zeta in Hs.
  pose proof (no_shift_digits m e Hm) as Hns.
  destruct (SpecFloat.fexp prec emax (Zdigits2 m + e) - e) as [|n|n] eqn:En;
    cbn [fst snd].
  - rewrite shr_record_of_loc_m. split; [lia | exact Hb].
  - rewrite iter_shr_1_m, shr_record_of_loc_m
      by (rewrite shr_record_of_loc_m; lia).
    apply Hs. lia.
  - rewrite shr_record_of_loc_m. split; [lia | exact Hb].
Qed.

Lemma round_nearest_even_cases (m : Z) (l : location) :
  round_nearest_even m l = m \/ round_nearest_even m l = m + 1.
Proof.
  unfold round_nearest_even. destruct l as [|[]]; auto.
  destruct (Z.even m); auto.
Qed.

Lemma at_least_mono (k m m' e : Z) :
  at_least k m e -> m <= m' -> at_least k m' e.
Proof. unfold at_least. lia. Qed.

(** Rounding a number that is at least [2^k], for a [k] in the range of
    the format, never gives a zero: the result is finite and at least
    [2^k], or infinite. *)
Lemma binary_round_aux_bound (s : bool) (m e k : Z) (l : location) :
  0 < m -> emin <= k -> at_least k m e ->
  binary_round_aux prec emax s m e l = S754_infinity s \/
  exists m' e',
    binary_round_aux prec emax s m e l = S754_finite s m' e' /\
    at_least k (Zpos m') e' /\ Zpos m' <= 2 ^ prec /\ e' <= emax - prec.
Proof.
  intros Hm Hk Hb. unfold binary_round_aux.
  pose proof (shr_fexp_bound m e k l Hm Hk Hb) as [[H1 H1'] Hb1].
  destruct (shr_fexp prec emax m e l) as [mrs1 e1]. cbn [fst snd] in *.
  set (r := round_nearest_even (shr_m mrs1) (loc_of_shr_record mrs1)).
  assert (Hr : shr_m mrs1 <= r <= shr_m mrs1 + 1).
  { unfold r.
    destruct (round_nearest_even_cases (shr_m mrs1) (loc_of_shr_record mrs1))
      as [-> | ->]; lia. }
  assert (Hbr : at_least k r e1) by (eapply at_least_mono; [exact Hb1 | lia]).
  pose proof (shr_fexp_bound r e1 k loc_Exact ltac:(lia) Hk Hbr)
    as [[H2 H2'] Hb2].
  destruct (shr_fexp prec emax r e1 loc_Exact) as [mrs2 e2].
  cbn [fst snd] in *.
  destruct (shr_m mrs2) as [|m2|m2]; try lia.
  destruct (e2 <=? emax - prec) eqn:He2; [right | now left].
  apply Z.leb_le in He2.
  exists m2, e2. split; [reflexivity|]. split; [exact Hb2 | lia].
Qed.


(** [binary_round] first shifts the mantissa left, which keeps the
    number. *)
Lemma iter_xO (d m : positive) :
  Zpos (Pos.iter xO m d) = Zpos m * 2 ^ Zpos d.
Proof.
  induction d as [|d IH] using Pos.peano_ind.
  - cbn. lia.
  - rewrite Pos.iter_succ, Pos2Z.inj_xO, IH, Pos2Z.inj_succ,
      Z.pow_succ_r by lia. lia.
Qed.

Lemma binary_round_bound (s : bool) (m : positive) (e k : Z) :
  emin <= k -> at_least k (Zpos m) e ->
  binary_round prec emax s m e = S754_infinity s \/
  exists m' e',
    binary_round prec emax s m e = S754_finite s m' e' /\
    at_least k (Zpos m') e' /\ Zpos m' <= 2 ^ prec /\ e' <= emax - prec.
Proof.
  intros Hk Hb. unfold binary_round, shl_align.
  destruct (SpecFloat.fexp prec emax (Zpos (digits2_pos m) + e) - e)
    as [|d|d] eqn:Ed;
    try (apply binary_round_aux_bound; [lia | exact Hk | exact Hb]).
  apply binary_round_aux_bound; [lia | exact Hk |].
  unfold at_least in *. rewrite iter_xO.
  assert (E : SpecFloat.fexp prec emax (Zpos (digits2_pos m) + e)
              = e - Zpos d) by lia.
  rewrite E.
  destruct (Z_lt_le_dec (k - e) 0) as [Hneg | Hpos].
  - destruct (Z_lt_le_dec (k - (e - Zpos d)) 0) as [Hneg' | Hpos'].
    + rewrite Z.pow_neg_r by lia. lia.
    + assert (2 ^ (k - (e - Zpos d)) <= 2 ^ Zpos d)
        by (apply Z.pow_le_mono_r; lia).
      assert (0 < 2 ^ Zpos d) by (apply Z.pow_pos_nonneg; lia).
      nia.
  - replace (k - (e - Zpos d)) with (k - e + Zpos d) by lia.
    rewrite Z.pow_add_r by lia.
    assert (0 < 2 ^ Zpos d) by (apply Z.pow_pos_nonneg; lia).
    nia.
Qed.

(** A valid finite number has its exponent in range. *)
Lemma valid_exponent (s : bool) (m : positive) (e : Z) :
  valid_binary (S754_finite s m e) = true ->
  emin <= e <= emax - prec
  /\ SpecFloat.fexp prec emax (Zpos (digits2_pos m) + e) = e.
Proof.
  cbn [SpecFloat.valid_binary]. unfold bounded, canonical_mantissa.
  rewrite andb_true_iff, Z.eqb_eq, Z.leb_le. intros [Hc He].
  split; [|exact Hc]. split; [|exact He].
  rewrite <- Hc. unfold SpecFloat.fexp. lia.
Qed.

(** [float(n)] for a machine integer [n >= 1] is at least 1. *)
Lemma of_uint63_bound (n : Uint63.int) :
  0 < Uint63.to_Z n ->
  Prim2SF (of_uint63 n) = S754_infinity false \/
  exists m e, Prim2SF (of_uint63 n) = S754_finite false m e /\
              at_least 0 (Zpos m) e.
Proof.
  intros Hn. rewrite of_uint63_spec. unfold binary_normalize.
  destruct (Uint63.to_Z n) as [|p|p]; try lia.
  destruct (binary_round_bound false p 0 0) as [H | (m & e & H & Hb & _)].
  - unfold emin. cbn. lia.
  - unfold at_least. cbn. lia.
  - now left.
  - right. now exists m, e.
Qed.

(** A positive double times a double that is at least 1 is not zero. *)
Lemma SFmul_not_zero (mx my : positive) (ex ey : Z) :
  valid_binary (S754_finite false mx ex) = true ->
  at_least 0 (Zpos my) ey ->
  SFmul prec emax (S754_finite false mx ex) (S754_finite false my ey)
  = S754_infinity false \/
  exists m e,
    SFmul prec emax (S754_finite false mx ex) (S754_finite false my ey)
    = S754_finite false m e.
Proof.
  intros Hv Hy. apply valid_exponent in Hv as [[Hlo _] _].
  cbn [SFmul xorb].
  destruct (binary_round_aux_bound false (Zpos (mx * my)) (ex + ey) emin
              loc_Exact) as [H | (m & e & H & _)].
  - lia.
  - lia.
  - unfold at_least in *.
    apply Z.le_trans with (2 ^ (0 - ey)).
    + destruct (Z_lt_le_dec (emin - (ex + ey)) 0).
      * rewrite Z.pow_neg_r by lia. apply Z.pow_nonneg. lia.
      * apply Z.pow_le_mono_r; lia.
    + rewrite Pos2Z.inj_mul. nia.
  - now left.
  - right. now exists m, e.
Qed.


(** *** Operations that are exact *)

Lemma Prim2SF_zero : Prim2SF 0%float = S754_zero false.
Proof. reflexivity. Qed.

Lemma Prim2SF_one :
  Prim2SF 1%float = S754_finite false 4503599627370496 (-52).
Proof. reflexivity. Qed.

(** [0 + d], [d * 1] and [d / d] for a finite [d] that is not zero. *)
Lemma add_zero_l (d : float) (s : bool) (m : positive) (e : Z) :
  Prim2SF d = S754_finite s m e -> (0 + d)%float = d.
Proof.
  intros H. apply Prim2SF_inj. rewrite add_spec, Prim2SF_zero, H. reflexivity.
Qed.

Lemma digits2_pos_shift (m : positive) :
  Zpos (digits2_pos (4503599627370496 * m)) = Zpos (digits2_pos m) + 52.
Proof. cbn [Pos.mul digits2_pos]. lia. Qed.

Lemma mul_one_r (d : float) (s : bool) (m : positive) (e : Z) :
  Prim2SF d = S754_finite s m e -> (d * 1)%float = d.
Proof.
  intros H. pose proof (Prim2SF_valid d) as Hv. rewrite H in Hv.
  apply valid_exponent in Hv as [[Hlo Hhi] Hc].
  apply Prim2SF_inj. rewrite mul_spec, Prim2SF_one, H.
  unfold SF64mul. cbn [SFmul]. rewrite Pos.mul_comm.
  unfold binary_round_aux, shr_fexp. cbn [Zdigits2].
  rewrite digits2_pos_shift.
  replace (Zpos (digits2_pos m) + 52 + (e + -52))
    with (Zpos (digits2_pos m) + e) by lia.
  rewrite Hc. replace (e - (e + -52)) with 52 by lia.
  cbn [Pos.mul shr shr_record_of_loc iter_pos shr_1 orb shr_m
       loc_of_shr_record round_nearest_even Zdigits2].
  replace (e + -52 + 52) with e by lia.
  rewrite Hc, Z.sub_diag. cbn [shr shr_m].
  apply Z.leb_le in Hhi. rewrite Hhi. now destruct s.
Qed.

Lemma div_same (d : float) (s : bool) (m : positive) (e : Z) :
  Prim2SF d = S754_finite s m e -> (d / d)%float = 1%float.
Proof.
  intros H. apply Prim2SF_inj. rewrite div_spec, Prim2SF_one, H.
  unfold SF64div. cbn [SFdiv]. unfold SFdiv_core_binary.
  replace (Zdigits2 (Zpos m) + e - (Zdigits2 (Zpos m) + e)) with 0 by lia.
  rewrite Z.sub_diag.
  change (Z.min (SpecFloat.fexp prec emax 0) 0) with (-53).
  change (0 - -53) with 53.
  cbv iota.
  rewrite Z.shiftl_mul_pow2 by lia.
  assert (Eq : Z.div_eucl (Zpos m * 2 ^ 53) (Zpos m) = (2 ^ 53, 0)).
  { pose proof (Z.div_eucl_eq (Zpos m * 2 ^ 53) (Zpos m) ltac:(lia)) as E.
    pose proof (Z.mod_pos_bound (Zpos m * 2 ^ 53) (Zpos m) ltac:(lia)) as Hb.
    unfold Z.modulo in Hb.
    destruct (Z.div_eucl (Zpos m * 2 ^ 53) (Zpos m)) as [q r].
    assert (r = 0 /\ q = 2 ^ 53) as [-> ->]; [|reflexivity].
    assert (Hr : r = Zpos m * (2 ^ 53 - q)) by lia.
    assert (2 ^ 53 - q = 0) by nia. split; nia. }
  rewrite Eq. destruct s; cbn [xorb].
  all: unfold new_location; destruct (Z.even (Zpos m)); reflexivity.
Qed.

End Doubles.

(** ** Signs, sums and maxima of doubles *)

Section Signs.

Import Binary64.

(** What a double that is [>= 0], or [> 0], can be. *)
Lemma nonneg_cases (x : float) :
  PrimFloat.leb 0 x = true ->
  is_zero x \/ Prim2SF x = S754_infinity false
  \/ exists m e, Prim2SF x = S754_finite false m e.
Proof.
  rewrite leb_spec, Prim2SF_zero. unfold is_zero.
  destruct (Prim2SF x) as [s|s| |s m e]; cbn; try destruct s;
    try discriminate; eauto.
Qed.

Lemma positive_cases (x : float) :
  PrimFloat.ltb 0 x = true ->
  Prim2SF x = S754_infinity false
  \/ exists m e, Prim2SF x = S754_finite false m e.
Proof.
  rewrite ltb_spec, Prim2SF_zero.
  destruct (Prim2SF x) as [s|s| |s m e]; cbn; try destruct s;
    try discriminate; eauto.
Qed.

Lemma is_zero_eqb (x : float) : is_zero x -> PrimFloat.eqb x 0 = true.
Proof. intros [s H]. now rewrite eqb_spec, Prim2SF_zero, H. Qed.

Lemma is_zero_not_positive (x : float) :
  is_zero x -> PrimFloat.ltb 0 x = false.
Proof. intros [s H]. now rewrite ltb_spec, Prim2SF_zero, H. Qed.

Lemma nonneg_not_positive (x : float) :
  PrimFloat.leb 0 x = true -> PrimFloat.ltb 0 x = false -> is_zero x.
Proof.
  intros Hle Hlt. destruct (nonneg_cases x Hle) as [H | [H | (m & e & H)]];
    [exact H | | ]; rewrite ltb_spec, Prim2SF_zero, H in Hlt; discriminate.
Qed.

Lemma positive_not_zero (x : float) :
  PrimFloat.ltb 0 x = true -> PrimFloat.eqb x 0 = false.
Proof.
  intros H. destruct (positive_cases x H) as [E | (m & e & E)];
    now rewrite eqb_spec, Prim2SF_zero, E.
Qed.

Lemma is_zero_0 : is_zero 0.
Proof. now exists false. Qed.

Lemma add_zeros (x y : float) : is_zero x -> is_zero y -> is_zero (x + y).
Proof.
  intros [sx Hx] [sy Hy]. unfold is_zero. rewrite add_spec, Hx, Hy.
  destruct sx, sy; cbn; eauto.
Qed.

Lemma sub_zeros (x y : float) : is_zero x -> is_zero y -> is_zero (x - y).
Proof.
  intros [sx Hx] [sy Hy]. unfold is_zero. rewrite sub_spec, Hx, Hy.
  destruct sx, sy; cbn; eauto.
Qed.

Lemma fold_add_zeros (xs : list float) :
  forall a, is_zero a -> Forall is_zero xs ->
    is_zero (fold_left PrimFloat.add xs a).
Proof.
  induction xs as [|x xs IH]; intros a Ha Hxs; cbn [fold_left].
  - exact Ha.
  - inversion Hxs; subst. apply IH; [now apply add_zeros | assumption].
Qed.

Lemma neumaier_zeros (xs : list float) :
  forall f c, is_zero f -> is_zero c -> Forall is_zero xs ->
    is_zero (fst (neumaier f c xs)) /\ is_zero (snd (neumaier f c xs)).
Proof.
  induction xs as [|x xs IH]; intros f c Hf Hc Hxs; cbn [neumaier].
  - now split.
  - inversion Hxs; subst. apply IH; [now apply add_zeros | | assumption].
    destruct (PrimFloat.leb _ _); apply add_zeros; try assumption;
      apply add_zeros; try assumption; apply sub_zeros; try assumption;
      now apply add_zeros.
Qed.

(** Zeros add up to a zero, whichever way [sum] adds. *)
Lemma sum_zeros (how : summation) (xs : list float) :
  Forall is_zero xs -> is_zero (sum how xs).
Proof.
  intros Hxs. destruct how; cbn [sum].
  - apply fold_add_zeros; [apply is_zero_0 | exact Hxs].
  - unfold sum_compensated. destruct xs as [|x xs]; [apply is_zero_0|].
    inversion Hxs; subst.
    destruct (neumaier_zeros xs (0 + x) 0) as [Hf Hc];
      [apply add_zeros; [apply is_zero_0 | assumption]
      | apply is_zero_0 | assumption |].
    destruct (neumaier (0 + x) 0 xs) as [f c]. cbn [fst snd] in *.
    now rewrite (is_zero_eqb c Hc).
Qed.

(** Non-negative durations whose sum is not zero include a positive
    one. *)
Lemma nonzero_sum_has_positive (how : summation) (xs : list float) :
  non_negative xs -> PrimFloat.eqb (sum how xs) 0 = false ->
  exists x, In x xs /\ PrimFloat.ltb 0 x = true.
Proof.
  intros Hnn Hsum.
  destruct (existsb (PrimFloat.ltb 0) xs) eqn:Hex.
  - apply existsb_exists in Hex. exact Hex.
  - exfalso.
    assert (Hz : Forall is_zero xs).
    { unfold non_negative in Hnn. rewrite Forall_forall in *.
      intros x Hx. apply nonneg_not_positive; [now apply Hnn|].
      destruct (PrimFloat.ltb 0 x) eqn:E; [|reflexivity].
      assert (existsb (PrimFloat.ltb 0) xs = true)
        by (apply existsb_exists; eauto).
      congruence. }
    rewrite (is_zero_eqb _ (sum_zeros how xs Hz)) in Hsum.
    discriminate.
Qed.

(** *** Comparable doubles are ordered by their keys *)

Lemma nonneg_comparable (x : float) :
  PrimFloat.leb 0 x = true -> comparable x.
Proof.
  intros H. apply leb_key in H as (a & b & _ & Hb & _). now exists b.
Qed.

Lemma leb_keys (x y : float) (kx ky : Z * Z * Z) :
  fkey x = Some kx -> fkey y = Some ky ->
  (PrimFloat.leb x y = true <-> le3 kx ky).
Proof.
  intros Hx Hy. rewrite leb_key. split.
  - intros (a & b & Ha & Hb & H). congruence.
  - intros H. now exists kx, ky.
Qed.

Lemma ltb_keys (x y : float) (kx ky : Z * Z * Z) :
  fkey x = Some kx -> fkey y = Some ky ->
  (PrimFloat.ltb x y = true <-> lt3 kx ky).
Proof.
  intros Hx Hy. rewrite ltb_key. split.
  - intros (a & b & Ha & Hb & H). congruence.
  - intros H. now exists kx, ky.
Qed.

(** The loop of [max]: the result is the candidate it started from or an
    item, and neither the candidate nor an item exceeds it. *)
Lemma fold_max_step_double (xs : list float) :
  forall a, comparable a -> Forall comparable xs ->
    let m := fold_left max_step xs a in
    (m = a \/ In m xs) /\ PrimFloat.leb a m = true
    /\ Forall (fun x => PrimFloat.leb x m = true) xs.
Proof.
  induction xs as [|x xs IH]; intros a [ka Ha] Hxs; cbn [fold_left].
  - repeat split; [now left | | constructor].
    apply (leb_keys a a ka ka Ha Ha), le3_refl.
  - inversion Hxs as [|? ? [kx Hx] Hrest]; subst.
    assert (Hc : comparable (max_step a x)).
    { unfold max_step.
      destruct (PrimFloat.ltb a x); [now exists kx | now exists ka]. }
    destruct (IH (max_step a x) Hc Hrest) as [Hin [Hle Hall]].
    destruct Hc as [km Hm].
    set (m := fold_left max_step xs (max_step a x)) in *.
    assert (Hcm : comparable m).
    { destruct Hin as [-> | Hin]; [now exists km|].
      rewrite Forall_forall in Hrest. now apply Hrest. }
    destruct Hcm as [kf Hf].
    apply (leb_keys _ _ km kf Hm Hf) in Hle.
    unfold max_step in Hin, Hm.
    destruct (PrimFloat.ltb a x) eqn:E.
    + assert (km = kx) by congruence. subst km.
      apply (ltb_keys a x ka kx Ha Hx) in E.
      repeat split.
      * destruct Hin as [-> | Hin]; right; [now left | now right].
      * apply (leb_keys a m ka kf Ha Hf).
        eapply le3_trans; [apply lt3_le3; exact E | exact Hle].
      * constructor; [|exact Hall].
        now apply (leb_keys x m kx kf Hx Hf).
    + assert (km = ka) by congruence. subst km.
      assert (Hnlt : ~ lt3 ka kx).
      { intros H. apply (ltb_keys a x ka kx Ha Hx) in H. congruence. }
      repeat split.
      * destruct Hin as [Hin | Hin]; [now left | right; now right].
      * now apply (leb_keys a m ka kf Ha Hf).
      * constructor; [|exact Hall].
        apply (leb_keys x m kx kf Hx Hf).
        eapply le3_trans; [apply not_lt3; exact Hnlt | exact Hle].
Qed.

(** [max] of non-negative durations returns their maximum. *)
Lemma max_is_maximum_double (x : float) (xs : list float) :
  non_negative (x :: xs) ->
  is_maximum (fold_left max_step xs x) (x :: xs).
Proof.
  intros Hnn. inversion Hnn as [|? ? Hx Hxs]; subst.
  destruct (fold_max_step_double xs x) as [Hin [Hle Hall]].
  - now apply nonneg_comparable.
  - eapply Forall_impl; [|exact Hxs]. apply nonneg_comparable.
  - split.
    + destruct Hin as [-> | Hin]; [now left | now right].
    + constructor; assumption.
Qed.

(** The maximum of durations that include a positive one is
    positive. *)
Lemma maximum_positive_double (mx : float) (xs : list float) :
  is_maximum mx xs ->
  (exists x, In x xs /\ PrimFloat.ltb 0 x = true) ->
  PrimFloat.ltb 0 mx = true.
Proof.
  intros [_ Hall] (x & Hx & Hpos).
  rewrite Forall_forall in Hall. specialize (Hall x Hx).
  apply ltb_key in Hpos as (k0 & kx & H0 & Hkx & Hlt).
  apply leb_key in Hall as (kx' & km & Hkx' & Hkm & Hle).
  assert (kx' = kx) by congruence. subst kx'.
  apply (ltb_keys 0 mx k0 km H0 Hkm).
  eapply lt3_le3_trans; eassumption.
Qed.

(** *** The divisor [max * len] *)

(** [float(len(xs))] is at least 1 for a list that is not empty, and a
    positive double times it is not zero. *)
Lemma len_float_bound {A : Type} (xs : list A) :
  xs <> [] -> (Z.of_nat (List.length xs) <= maxsize)%Z ->
  Prim2SF (len_float xs) = S754_infinity false \/
  exists m e, Prim2SF (len_float xs) = S754_finite false m e /\
              at_least 0 (Zpos m) e.
Proof.
  intros Hne Hmax. unfold len_float. apply of_uint63_bound.
  rewrite Uint63.of_Z_spec.
  assert (0 < Z.of_nat (List.length xs))%Z
    by (destruct xs; [congruence | cbn [List.length]; lia]).
  rewrite Z.mod_small; [assumption|].
  unfold maxsize in Hmax. change Uint63.wB with (2 ^ 63)%Z. lia.
Qed.

Lemma product_not_zero {A : Type} (mx : float) (xs : list A) :
  PrimFloat.ltb 0 mx = true ->
  xs <> [] -> (Z.of_nat (List.length xs) <= maxsize)%Z ->
  PrimFloat.eqb (mx * len_float xs) 0 = false.
Proof.
  intros Hpos Hne Hmax.
  pose proof (Prim2SF_valid mx) as Hv.
  rewrite eqb_spec, mul_spec, Prim2SF_zero.
  destruct (positive_cases mx Hpos) as [Hx | (m & e & Hx)];
    destruct (len_float_bound xs Hne Hmax) as [Hy | (m' & e' & Hy & Hb)];
    rewrite Hx, Hy; try reflexivity.
  rewrite Hx in Hv.
  destruct (SFmul_not_zero m m' e e' Hv Hb) as [H | (m2 & e2 & H)];
    unfold SF64mul; now rewrite H.
Qed.

End Signs.

(** ** [get_parallel_efficiency] on doubles *)

Section Efficiency64.

Import Binary64.
Import Binary64.WorkflowMetrics.

Lemma durations_cons (w : t) (a : ExecutionMetrics.t)
  (rest : list ExecutionMetrics.t) :
  agents w = a :: rest ->
  durations w
  = ExecutionMetrics.duration a :: map ExecutionMetrics.duration rest.
Proof. intros E. unfold durations. now rewrite E. Qed.

(** With a sum that is not zero the method divides by the maximum it
    computed times the number of records. *)
Lemma efficiency_divides_double (how : summation) (w : t) :
  agents w <> [] ->
  PrimFloat.eqb (sum how (durations w)) 0 = false ->
  exists mx,
    max (durations w) = Ok mx /\
    get_parallel_efficiency how w =
      (ratio <- truediv (sum how (durations w))
                  (mx * len_float (agents w))%float ;;
       Ok (ratio * 100)%float).
Proof.
  intros Hne Hsum. unfold get_parallel_efficiency.
  destruct (agents w) as [|a rest] eqn:E; [congruence|].
  rewrite (durations_cons w a rest E) in *.
  eexists. split; [reflexivity|].
  cbn [max rbind]. now rewrite Hsum.
Qed.

(** For non-negative durations, in a list that Python can hold, the
    division is by a number that is not zero: a sum that is not zero
    means a positive maximum, and a positive maximum times the number of
    records is not zero. *)
Lemma efficiency_formula_double (how : summation) (w : t) :
  agents w <> [] ->
  (Z.of_nat (List.length (agents w)) <= maxsize)%Z ->
  non_negative (durations w) ->
  PrimFloat.eqb (sum how (durations w)) 0 = false ->
  exists mx,
    is_maximum mx (durations w) /\
    PrimFloat.ltb 0 mx = true /\
    get_parallel_efficiency how w
    = Ok ((sum how (durations w) / (mx * len_float (agents w))) * 100)%float.
Proof.
  intros Hne Hlen Hnn Hsum.
  destruct (efficiency_divides_double how w Hne Hsum) as [mx [Hmax Heq]].
  assert (Hmx : is_maximum mx (durations w)).
  { destruct (agents w) as [|a rest] eqn:E; [congruence|].
    rewrite (durations_cons w a rest E) in *.
    cbn [max] in Hmax. injection Hmax as <-.
    now apply max_is_maximum_double. }
  assert (Hmpos : PrimFloat.ltb 0 mx = true).
  { apply (maximum_positive_double mx (durations w) Hmx).
    now apply (nonzero_sum_has_positive how). }
  exists mx. split; [exact Hmx|]. split; [exact Hmpos|].
  rewrite Heq. unfold truediv.
  now rewrite (product_not_zero mx (agents w) Hmpos Hne Hlen).
Qed.

(** For non-negative durations, in a list that Python can hold, the
    method never raises. *)
Lemma efficiency_returns_double (how : summation) (w : t) :
  (Z.of_nat (List.length (agents w)) <= maxsize)%Z ->
  non_negative (durations w) ->
  exists r, get_parallel_efficiency how w = Ok r.
Proof.
  intros Hlen Hnn.
  destruct (agents w) as [|a rest] eqn:E.
  - exists 0%float. unfold get_parallel_efficiency. now rewrite E.
  - destruct (PrimFloat.eqb (sum how (durations w)) 0) eqn:Hsum.
    + exists 0%float. unfold get_parallel_efficiency. rewrite E.
      rewrite (durations_cons w a rest E) in *.
      cbn [max rbind]. now rewrite Hsum.
    + destruct (efficiency_formula_double how w) as [mx [_ [_ H]]];
        try assumption; [rewrite E; discriminate | rewrite E; exact Hlen |].
      eexists. exact H.
Qed.

(** C1.  For a workflow with at least one record, non-negative record
    durations and a positive sum of durations, [get_parallel_efficiency]
    returns the double [(sum / (max * count)) * 100], each operation
    rounded as Python rounds it, where [max] is the maximum of the
    durations; this holds for either way [sum] adds.  For the three
    records of scenario B, with durations 1.0, 2.0 and 3.0, it returns
    [(6.0 / 9.0) * 100], the double 66.66666666666666, which lies
    between 66.66 and 66.67.  The double that the formula yields is not
    always a number: for two records of 1e308 seconds the sum overflows
    to [inf], so does the product, and the method returns [nan]. *)
Theorem efficiency_is_formula :
  (forall (how : summation) (w : t),
      agents w <> [] ->
      (Z.of_nat (List.length (agents w)) <= maxsize)%Z ->
      non_negative (durations w) ->
      PrimFloat.ltb 0 (sum how (durations w)) = true ->
      exists mx,
        is_maximum mx (durations w) /\
        get_parallel_efficiency how w
        = Ok ((sum how (durations w) / (mx * len_float (agents w)))
              * 100)%float)
  /\
  (forall how : summation,
      get_parallel_efficiency how scenario_B = Ok ((6 / 9) * 100)%float)
  /\
  ((6 / 9) * 100)%float = two_thirds_percent
  /\
  PrimFloat.ltb 0x1.0aa3d70a3d70ap+6 two_thirds_percent = true
  /\
  PrimFloat.ltb two_thirds_percent 0x1.0aae147ae147bp+6 = true
  /\
  (forall how : summation,
      sum how (durations overflowing) = infinity /\
      get_parallel_efficiency how overflowing = Ok nan).
Proof.
  split.
  - intros how w Hne Hlen Hnn Hpos.
    destruct (efficiency_formula_double how w Hne Hlen Hnn
                (positive_not_zero _ Hpos)) as [mx [Hmx [_ Heq]]].
    now exists mx.
  - split; [intros []; reflexivity|]. repeat split; destruct how; reflexivity.
Qed.

Lemma efficiency_is_formula_witness :
  exists mx,
    is_maximum mx (durations scenario_B) /\
    get_parallel_efficiency left_to_right scenario_B
    = Ok ((sum left_to_right (durations scenario_B)
           / (mx * len_float (agents scenario_B))) * 100)%float.
Proof.
  apply (proj1 efficiency_is_formula left_to_right scenario_B).
  - discriminate.
  - vm_compute. discriminate.
  - repeat constructor.
  - reflexivity.
Defined.

(** A positive finite double. *)
Lemma positive_finite (d : float) :
  PrimFloat.ltb 0 d = true -> isfinite d = true ->
  exists m e, Prim2SF d = S754_finite false m e.
Proof.
  intros Hpos Hfin. destruct (positive_cases d Hpos) as [H | H]; [|exact H].
  unfold isfinite in Hfin. rewrite ltb_spec, abs_spec, H in Hfin.
  discriminate.
Qed.

Lemma sum_single (how : summation) (d : float) :
  sum how [d] = (0 + d)%float.
Proof. destruct how; reflexivity. Qed.

(** C6, as the code has it.  A workflow with exactly one record, whose
    duration is positive and finite, has a parallel efficiency of exactly
    100.0: the sum [0 + d], the product [d * 1], the quotient [d / d] and
    the product [1.0 * 100] are all exact. *)
Theorem efficiency_single_record (how : summation) (w : t)
  (a : ExecutionMetrics.t) :
  agents w = [a] ->
  PrimFloat.ltb 0 (ExecutionMetrics.duration a) = true ->
  isfinite (ExecutionMetrics.duration a) = true ->
  get_parallel_efficiency how w = Ok 100%float.
Proof.
  intros E Hpos Hfin.
  destruct (positive_finite _ Hpos Hfin) as (m & e & Hd).
  unfold get_parallel_efficiency, durations. rewrite E.
  cbn [map max fold_left rbind]. rewrite sum_single.
  rewrite (add_zero_l _ _ _ _ Hd), (positive_not_zero _ Hpos).
  change (len_float [a]) with 1%float.
  rewrite (mul_one_r _ _ _ _ Hd). unfold truediv.
  rewrite (positive_not_zero _ Hpos). cbn [rbind].
  now rewrite (div_same _ _ _ _ Hd).
Qed.

Lemma efficiency_single_record_witness :
  get_parallel_efficiency left_to_right (workflow_with [0x1.4p+1%float])
  = Ok 100%float.
Proof.
  apply (efficiency_single_record left_to_right
           (workflow_with [0x1.4p+1%float]) (record 0x1.4p+1%float));
    reflexivity.
Defined.

(** C6 fails as stated: [float('inf')] is a positive duration, and a
    workflow whose only record has it gets the efficiency [nan], not
    100. *)
Lemma efficiency_single_record_infinite :
  map ExecutionMetrics.duration (agents endless) = [infinity] /\
  PrimFloat.ltb 0 infinity = true /\
  (forall how : summation, get_parallel_efficiency how endless = Ok nan) /\
  PrimFloat.eqb nan 100 = false.
Proof. repeat split. intros []; reflexivity. Qed.

(** C9 fails in the code: for six records of 0.3 seconds each, all
    non-negative, the method under left-to-right summation (CPython up to
    3.11) computes the sum 1.8, the product
    [0.3 * 6 = 1.7999999999999998], the quotient 1.0000000000000002, and
    returns 100.00000000000003, which is above 100.  Under compensated
    summation (CPython 3.12) the sum is 1.7999999999999998 and the
    result 100.0. *)
Theorem efficiency_exceeds_100_in_doubles :
  forallb (PrimFloat.leb 0) (durations six_equal) = true /\
  sum left_to_right (durations six_equal) = 0x1.ccccccccccccdp+0%float /\
  (three_tenths * len_float (agents six_equal))%float
  = 0x1.cccccccccccccp+0%float /\
  get_parallel_efficiency left_to_right six_equal = Ok just_above_100 /\
  PrimFloat.ltb 100 just_above_100 = true /\
  PrimFloat.leb just_above_100 100 = false /\
  sum compensated (durations six_equal) = 0x1.cccccccccccccp+0%float /\
  get_parallel_efficiency compensated six_equal = Ok 100%float.
Proof. repeat split. Qed.

(** The scenarios of the specification and the fixtures of the claims,
    for either way [sum] adds: 100.0 for three equal durations and for a
    single record, 66.66666666666666 for scenario B, 0.0 at the guards,
    and the division by zero for the durations 0.0 and -1.0. *)
Example scenarios_in_doubles (how : summation) :
  get_parallel_efficiency how (workflow_with [2; 2; 2]%float)
  = Ok 100%float /\
  get_parallel_efficiency how scenario_B = Ok two_thirds_percent /\
  get_parallel_efficiency how (workflow_with [0x1.4p+1%float])
  = Ok 100%float /\
  get_parallel_efficiency how (workflow_with []) = Ok 0%float /\
  get_parallel_efficiency how (workflow_with [0; 0]%float) = Ok 0%float /\
  get_parallel_efficiency how (workflow_with [0; -1]%float)
  = Raise ZeroDivisionError.
Proof. destruct how; repeat split. Qed.

End Efficiency64.

(** ** The sign of [total_seconds()] *)

Section NearestDouble.

Import Binary64.
Open Scope Z_scope.

(** The double that [SF2Prim] builds from a mantissa and an exponent keeps
    the sign and is not a zero, when the number is at least [2^k] for a
    [k] in the range of the format. *)
Lemma SF2Prim_shape (s : bool) (m : positive) (e k : Z) :
  emin <= k -> emin <= k - e ->
  at_least k (Zpos m) e -> Zpos m <= 2 ^ prec ->
  Prim2SF (SF2Prim (S754_finite s m e)) = S754_infinity s \/
  exists m' e', Prim2SF (SF2Prim (S754_finite s m e)) = S754_finite s m' e'.
Proof.
  intros Hk Hke Hb Hm.
  assert (Hpos : Prim2SF (Z.ldexp (of_uint63 (Uint63.of_Z (Zpos m))) e)
                 = S754_infinity false \/
                 exists m' e',
                   Prim2SF (Z.ldexp (of_uint63 (Uint63.of_Z (Zpos m))) e)
                   = S754_finite false m' e').
  { rewrite Z_ldexp_spec, of_uint63_spec, Uint63.of_Z_spec.
    rewrite Z.mod_small
      by (change Uint63.wB with (2 ^ 63); unfold prec in Hm;
          assert (2 ^ 53 < 2 ^ 63) by (apply Z.pow_lt_mono_r; lia); lia).
    cbn [binary_normalize].
    destruct (binary_round_bound false m 0 (k - e) Hke)
      as [H | (m1 & e1 & H & Hb1 & _)].
    - unfold at_least in *. now rewrite Z.sub_0_r.
    - left. now rewrite H.
    - rewrite H. cbn [SFldexp].
      destruct (binary_round_bound false m1 (e1 + e) k Hk)
        as [H2 | (m2 & e2 & H2 & _)].
      + unfold at_least in *.
        replace (k - (e1 + e)) with (k - e - e1) by lia. exact Hb1.
      + now left.
      + right. now exists m2, e2. }
  cbn [SF2Prim]. destruct s.
  - rewrite opp_spec.
    destruct Hpos as [H | (m' & e' & H)]; rewrite H; cbn [SFopp negb];
      [now left | right; now exists m', e'].
  - exact Hpos.
Qed.

(** The quotient of a positive integer below [2^63] by [10**6], as
    [SFdiv] rounds it: not a zero, and of the sign asked for. *)
Lemma SFdiv_million_shape (s : bool) (p : positive) :
  Zpos p < 2 ^ 63 ->
  let q := SFdiv prec emax (S754_finite s p 0)
             (S754_finite false 1000000 0) in
  Prim2SF (SF2Prim q) = S754_infinity s \/
  exists m e, Prim2SF (SF2Prim q) = S754_finite s m e.
Proof.
  intros Hp. cbv zeta. cbn [SFdiv]. rewrite xorb_false_r.
  unfold SFdiv_core_binary. cbn [Zdigits2].
  pose proof (digits2_pos_bounds p) as [Hlo Hhi].
  set (d := Zpos (digits2_pos p)) in *.
  assert (Hd : 1 <= d <= 63).
  { split; [unfold d; lia|].
    destruct (Z_le_gt_dec d 63); [assumption|].
    assert (2 ^ 63 <= 2 ^ (d - 1)) by (apply Z.pow_le_mono_r; lia). lia. }
  change (Zpos (digits2_pos 1000000)) with 20.
  assert (Ee : Z.min (SpecFloat.fexp prec emax (d + 0 - (20 + 0))) (0 - 0)
               = d - 73).
  { unfold SpecFloat.fexp, SpecFloat.emin, prec, emax. lia. }
  rewrite Ee.
  destruct (0 - 0 - (d - 73)) as [|sh|sh] eqn:Es; try lia.
  rewrite Z.shiftl_mul_pow2 by lia.
  assert (Esh : Zpos sh = 73 - d) by lia. rewrite Esh.
  assert (Hm' : 2 ^ 72 <= Zpos p * 2 ^ (73 - d)).
  { replace 72 with ((d - 1) + (73 - d)) by lia.
    rewrite Z.pow_add_r by lia.
    apply Z.mul_le_mono_nonneg_r; [apply Z.pow_nonneg; lia | exact Hlo]. }
  set (m' := Zpos p * 2 ^ (73 - d)) in *.
  pose proof (Z.div_eucl_eq m' 1000000 ltac:(lia)) as Hdiv.
  pose proof (Z.mod_pos_bound m' 1000000 ltac:(lia)) as Hmod.
  unfold Z.modulo in Hmod.
  destruct (Z.div_eucl m' 1000000) as [q r].
  assert (Hq : 2 ^ 52 <= q).
  { change (2 ^ 72) with 4722366482869645213696 in Hm'.
    change (2 ^ 52) with 4503599627370496. lia. }
  assert (H52 : 0 < 2 ^ 52) by (apply Z.pow_pos_nonneg; lia).
  destruct (binary_round_aux_bound s q (d - 73) (d - 21)
              (new_location 1000000 r))
    as [H | (m2 & e2 & H & Hb & Hm2 & He2)].
  - lia.
  - unfold SpecFloat.emin, prec, emax. lia.
  - unfold at_least. replace (d - 21 - (d - 73)) with 52 by lia. exact Hq.
  - rewrite H. left. now destruct s.
  - rewrite H. apply (SF2Prim_shape s m2 e2 (d - 21)); try assumption.
    + unfold SpecFloat.emin, prec, emax. lia.
    + unfold SpecFloat.emin, prec, emax in *. lia.
Qed.

(** [n / 10**6] is negative, zero or positive as [n] is. *)
Lemma nearest_double_sign (n : Z) :
  - 2 ^ 63 < n < 2 ^ 63 ->
  (n < 0 -> PrimFloat.ltb (nearest_double n 1000000) 0 = true) /\
  (n = 0 -> nearest_double n 1000000 = 0%float) /\
  (0 < n -> PrimFloat.ltb 0 (nearest_double n 1000000) = true).
Proof.
  intros Hn. destruct n as [|p|p]; cbn [nearest_double].
  - repeat split; intros; try lia.
  - repeat split; intros; try lia.
    rewrite ltb_spec, Prim2SF_zero.
    destruct (SFdiv_million_shape false p ltac:(lia)) as [E | (m & e & E)];
      now rewrite E.
  - repeat split; intros; try lia.
    rewrite ltb_spec, Prim2SF_zero.
    destruct (SFdiv_million_shape true p ltac:(lia)) as [E | (m & e & E)];
      now rewrite E.
Qed.

(** The three cases exclude each other. *)
Lemma nearest_double_negative_iff (n : Z) :
  - 2 ^ 63 < n < 2 ^ 63 ->
  (PrimFloat.ltb (nearest_double n 1000000) 0 = true <-> n < 0) /\
  (PrimFloat.eqb (nearest_double n 1000000) 0 = true <-> n = 0) /\
  (PrimFloat.ltb 0 (nearest_double n 1000000) = true <-> 0 < n).
Proof.
  intros Hn. destruct (nearest_double_sign n Hn) as [Hneg [Hzero Hpos]].
  assert (Hx : forall x : float,
             PrimFloat.ltb x 0 = true ->
             PrimFloat.eqb x 0 = false /\ PrimFloat.ltb 0 x = false).
  { intros x. rewrite !ltb_spec, eqb_spec, Prim2SF_zero.
    destruct (Prim2SF x) as [s|s| |s m e]; cbn; try destruct s;
      try discriminate; auto. }
  assert (Hy : forall x : float,
             PrimFloat.ltb 0 x = true ->
             PrimFloat.eqb x 0 = false /\ PrimFloat.ltb x 0 = false).
  { intros x. rewrite !ltb_spec, eqb_spec, Prim2SF_zero.
    destruct (Prim2SF x) as [s|s| |s m e]; cbn; try destruct s;
      try discriminate; auto. }
  destruct (Z.lt_trichotomy n 0) as [H | [H | H]].
  - specialize (Hneg H). destruct (Hx _ Hneg) as [He Hl].
    rewrite Hneg, He, Hl. repeat split; intros; try lia; try discriminate.
  - specialize (Hzero H). rewrite Hzero.
    repeat split; intros; try lia; try discriminate; try reflexivity.
  - specialize (Hpos H). destruct (Hy _ Hpos) as [He Hl].
    rewrite Hpos, He, Hl. repeat split; intros; try lia; try discriminate.
Qed.

End NearestDouble.

(** ** The calendar: positions on the time line and the order of
    datetimes *)

Lemma month_cases (m : Z) :
  (1 <= m <= 12 ->
   m = 1 \/ m = 2 \/ m = 3 \/ m = 4 \/ m = 5 \/ m = 6 \/ m = 7 \/ m = 8
   \/ m = 9 \/ m = 10 \/ m = 11 \/ m = 12)%Z.
Proof. lia. Qed.

(** One case per month. *)
Ltac each_month H :=
  destruct (month_cases _ H)
    as [-> | [-> | [-> | [-> | [-> | [-> | [-> | [-> | [-> | [-> | [-> | ->
       ]]]]]]]]]]].

(** Looks the months up in the tables of the library. *)
Ltac table_lookups :=
  repeat match goal with
         | |- context [nth (Z.to_nat ?m) ?table ?d] =>
             let v := eval vm_compute in (nth (Z.to_nat m) table d) in
             change (nth (Z.to_nat m) table d) with v
         | |- context [(?a <? ?b)%Z] =>
             let v := eval vm_compute in (a <? b)%Z in
             change (a <? b)%Z with v
         | |- context [(?a =? ?b)%Z] =>
             let v := eval vm_compute in (a =? b)%Z in
             change (a =? b)%Z with v
         end.

Section Calendar.

Import Datetime.
Open Scope Z_scope.

Lemma is_leap_cases (y : Z) :
  (is_leap y = true /\ days_before_year (y + 1) = days_before_year y + 366)
  \/ (is_leap y = false
      /\ days_before_year (y + 1) = days_before_year y + 365).
Proof.
  unfold is_leap, days_before_year.
  replace (y + 1 - 1) with (y - 1 + 1) by lia.
  destruct (y mod 4 =? 0) eqn:E4; destruct (y mod 100 =? 0) eqn:E100;
    destruct (y mod 400 =? 0) eqn:E400; cbn [andb orb negb];
    rewrite ?Z.eqb_eq, ?Z.eqb_neq in *;
    (first [left; split; [reflexivity|] | right; split; [reflexivity|]]);
    Z.div_mod_to_equations; lia.
Qed.

Lemma days_before_year_mono (y y' : Z) :
  y <= y' -> days_before_year y <= days_before_year y'.
Proof.
  intros H. unfold days_before_year. Z.div_mod_to_equations. lia.
Qed.

(** The day of the year of a valid date lies within the year. *)
Lemma day_of_year_bounds (y m d : Z) :
  1 <= m <= 12 -> 1 <= d <= days_in_month y m ->
  1 <= days_before_month y m + d
  <= if is_leap y then 366 else 365.
Proof.
  intros Hm. unfold days_before_month, days_in_month.
  each_month Hm; table_lookups; destruct (is_leap y); cbn [andb]; lia.
Qed.

(** A later month starts after every day of an earlier month. *)
Lemma day_of_year_month (y m1 d1 m2 d2 : Z) :
  1 <= m1 <= 12 -> 1 <= m2 <= 12 ->
  1 <= d1 <= days_in_month y m1 -> 1 <= d2 <= days_in_month y m2 ->
  m1 < m2 ->
  days_before_month y m1 + d1 < days_before_month y m2 + d2.
Proof.
  intros Hm1 Hm2. unfold days_before_month, days_in_month.
  each_month Hm1; each_month Hm2; table_lookups; destruct (is_leap y);
    cbn [andb]; lia.
Qed.

(** A later year starts after every day of an earlier year. *)
Lemma toordinal_year (a b : datetime) :
  in_range a -> in_range b -> year a < year b -> toordinal a < toordinal b.
Proof.
  intros (Hya & Hma & Hda & _) (Hyb & Hmb & Hdb & _) Hlt.
  pose proof (day_of_year_bounds _ _ _ Hma Hda) as Ha.
  pose proof (day_of_year_bounds _ _ _ Hmb Hdb) as Hb.
  pose proof (days_before_year_mono (year a + 1) (year b) ltac:(lia)) as Hmono.
  unfold toordinal.
  destruct (is_leap_cases (year a)) as [[E Hs] | [E Hs]];
    rewrite E in Ha; lia.
Qed.

Lemma toordinal_month (a b : datetime) :
  in_range a -> in_range b -> year a = year b -> month a < month b ->
  toordinal a < toordinal b.
Proof.
  intros (Hya & Hma & Hda & _) (Hyb & Hmb & Hdb & _) Ey Hlt.
  unfold toordinal. rewrite Ey in *.
  pose proof (day_of_year_month _ _ _ _ _ Hma Hmb Hda Hdb Hlt). lia.
Qed.

(** The later of two datetimes is the one that [datetime.__lt__] calls
    later: the positions on the time line compare as the fields do. *)
Lemma timestamp_compare (a b : datetime) :
  in_range a -> in_range b ->
  (timestamp a ?= timestamp b) = datetime_cmp a b.
Proof.
  intros Ha Hb.
  pose proof (toordinal_year a b Ha Hb) as Hy1.
  pose proof (toordinal_year b a Hb Ha) as Hy2.
  pose proof (toordinal_month a b Ha Hb) as Hm1.
  pose proof (toordinal_month b a Hb Ha) as Hm2.
  assert (Hd : year a = year b -> month a = month b ->
               toordinal a - toordinal b = day a - day b).
  { intros Ey Em. unfold toordinal. rewrite Ey, Em. lia. }
  destruct Ha as (_ & _ & _ & Hha & Hmia & Hsa & Husa).
  destruct Hb as (_ & _ & _ & Hhb & Hmib & Hsb & Husb).
  unfold datetime_cmp, datetime_fields, compare_fields, timestamp.
  cbn [combine fold_right fst snd].
  change (10 ^ 6) with 1000000.
  set (oa := toordinal a) in *. set (ob := toordinal b) in *.
  repeat match goal with
         | |- context [match ?x ?= ?y with _ => _ end] =>
             destruct (Z.compare_spec x y)
         end;
    try (apply Z.compare_eq_iff; lia);
    try (apply Z.compare_lt_iff; nia);
    try (apply Z.compare_gt_iff; nia).
Qed.

Lemma timestamp_bounds (d : datetime) :
  in_range d -> 0 <= timestamp d < 2 ^ 62.
Proof.
  intros (Hy & Hm & Hd & Hh & Hmi & Hs & Hus).
  pose proof (day_of_year_bounds _ _ _ Hm Hd) as Hdoy.
  pose proof (days_before_year_mono 1 (year d) ltac:(lia)) as Hlo.
  pose proof (days_before_year_mono (year d) 9999 ltac:(lia)) as Hhi.
  change (days_before_year 1) with 0 in Hlo.
  change (days_before_year 9999) with 3651694 in Hhi.
  unfold timestamp, toordinal. change (10 ^ 6) with 1000000.
  change (2 ^ 62) with 4611686018427387904.
  destruct (is_leap (year d)); nia.
Qed.

End Calendar.

(** ** Durations in doubles *)

Section Durations64.

Import Datetime.
Import Binary64.

Lemma datetime_cmp_eq (a b : datetime) : datetime_cmp a b = Eq <-> a = b.
Proof.
  split.
  - unfold datetime_cmp, datetime_fields, compare_fields.
    cbn [combine fold_right fst snd].
    destruct a, b. cbn [year month day hour minute second microsecond].
    repeat match goal with
           | |- context [match (?x ?= ?y)%Z with _ => _ end] =>
               destruct (Z.compare_spec x y); try discriminate
           end.
    intros _. subst. reflexivity.
  - intros ->. unfold datetime_cmp, datetime_fields, compare_fields.
    cbn [combine fold_right fst snd]. now rewrite !Z.compare_refl.
Qed.

(** [total_seconds()] of a difference of datetimes has the sign that the
    order of the datetimes gives it. *)
Lemma total_seconds_sign (finish start : datetime) :
  in_range start -> in_range finish ->
  total_seconds (sub finish start)
  = nearest_double (timestamp finish - timestamp start) 1000000 /\
  (PrimFloat.ltb (total_seconds (sub finish start)) 0 = true
   <-> earlier finish start) /\
  (PrimFloat.eqb (total_seconds (sub finish start)) 0 = true
   <-> finish = start) /\
  (PrimFloat.ltb 0 (total_seconds (sub finish start)) = true
   <-> earlier start finish).
Proof.
  intros Hs Hf. unfold total_seconds. rewrite sub_total_microseconds.
  split; [reflexivity|].
  pose proof (timestamp_bounds start Hs) as Bs.
  pose proof (timestamp_bounds finish Hf) as Bf.
  assert (H62 : (2 ^ 62 < 2 ^ 63)%Z) by (apply Z.pow_lt_mono_r; lia).
  destruct (nearest_double_negative_iff
              (timestamp finish - timestamp start) ltac:(lia))
    as [Hneg [Hzero Hpos]].
  rewrite Hneg, Hzero, Hpos. unfold earlier.
  rewrite <- (timestamp_compare finish start Hf Hs).
  rewrite <- (timestamp_compare start finish Hs Hf).
  rewrite <- datetime_cmp_eq, <- (timestamp_compare finish start Hf Hs).
  rewrite !Z.compare_lt_iff, Z.compare_eq_iff. lia.
Qed.

(** [total_seconds()] at some differences: five seconds, a tenth of a
    second, seven and a half seconds, one second backwards, a year and
    some, and the longest difference there is, from [datetime.min] to
    [datetime.max], which is rounded up to 315537897600.0. *)
Example total_seconds_values :
  total_seconds (sub five_past_noon noon) = 5%float /\
  total_seconds (sub (mk_datetime 2024 3 1 12 0 0 100000) noon)
  = 0x1.999999999999ap-4%float /\
  total_seconds (sub (mk_datetime 2024 3 1 12 0 7 500000) noon)
  = 0x1.ep+2%float /\
  total_seconds (sub noon (mk_datetime 2024 3 1 12 0 1 0)) = (-1)%float /\
  total_seconds (sub (mk_datetime 2025 7 9 3 14 15 926535) noon)
  = 0x1.460da3f698b2fp+25%float /\
  sub (mk_datetime 9999 12 31 23 59 59 999999) (mk_datetime 1 1 1 0 0 0 0)
  = mk_timedelta 3652058 86399 999999 /\
  total_seconds (mk_timedelta 3652058 86399 999999)
  = 0x1.25de18e2p+38%float.
Proof. repeat split. Qed.

Import ExecutionMetrics.

(** C3, as the code has it.  For a record whose [end_time] is set,
    [calculate_duration] stores [(end_time - start_time).total_seconds()],
    the double nearest to the microseconds between the two datetimes
    divided by [10**6], returns that value and changes no other field.
    The value is not clamped: it is negative exactly when [end_time] is
    earlier than [start_time], zero exactly when the two are equal, and
    positive exactly when [end_time] is later. *)
Theorem calculate_duration_stores_delta (m : t) (e : datetime) :
  end_time m = Some e ->
  in_range (start_time m) -> in_range e ->
  let m' := fst (calculate_duration m) in
  duration m' = total_seconds (sub e (start_time m)) /\
  duration m'
  = nearest_double (timestamp e - timestamp (start_time m)) 1000000 /\
  snd (calculate_duration m) = duration m' /\
  m' = set_duration m (duration m') /\
  (PrimFloat.ltb (duration m') 0 = true <-> earlier e (start_time m)) /\
  (PrimFloat.eqb (duration m') 0 = true <-> e = start_time m) /\
  (PrimFloat.ltb 0 (duration m') = true <-> earlier (start_time m) e).
Proof.
  intros He Hs Hf. unfold calculate_duration. rewrite He.
  cbn [fst snd set_duration duration].
  destruct (total_seconds_sign e (start_time m) Hs Hf)
    as [Hd [Hneg [Hzero Hpos]]].
  repeat split; try assumption; try apply Hneg; try apply Hzero;
    try apply Hpos.
Qed.

Lemma calculate_duration_stores_delta_witness :
  duration (fst (calculate_duration five_second_record)) = 5%float /\
  snd (calculate_duration five_second_record) = 5%float /\
  earlier noon (mk_datetime 2024 3 1 12 0 5 0).
Proof.
  assert (R1 : in_range noon) by (cbv; intuition discriminate).
  assert (R2 : in_range (mk_datetime 2024 3 1 12 0 5 0))
    by (cbv; intuition discriminate).
  destruct (calculate_duration_stores_delta five_second_record
              (mk_datetime 2024 3 1 12 0 5 0) eq_refl R1 R2)
    as [H1 [_ [H3 [_ [_ [_ H7]]]]]].
  split; [rewrite H1; reflexivity|].
  split; [rewrite H3, H1; reflexivity|].
  apply H7. rewrite H1. reflexivity.
Defined.

(** C3 fails as stated: a record whose [end_time] is one second before
    its [start_time] gets the duration -1.0, not 0. *)
Lemma calculate_duration_not_clamped :
  end_time backwards_record <> None /\
  duration (fst (calculate_duration backwards_record)) = (-1)%float /\
  PrimFloat.ltb (duration (fst (calculate_duration backwards_record))) 0
  = true /\
  PrimFloat.leb 0 (duration (fst (calculate_duration backwards_record)))
  = false.
Proof. split; [discriminate|]. repeat split. Qed.

End Durations64.

(** ** The collector in doubles *)

Section Collector64.

Import Datetime.
Import Binary64.

Lemma bind_ok_double {A B : Type} {c : M A} (k : A -> M B) {st st' : State}
  {a : A} :
  c st = (Ok a, st') -> bind c k st = k a st'.
Proof. intros H. unfold bind. now rewrite H. Qed.

Lemma mutate_run_double (r : ref)
  (f : WorkflowMetrics.t -> WorkflowMetrics.t) (st : State) :
  mutate r f st =
    (Ok tt,
     {| heap := fun r' => if Nat.eqb r' r then f (heap st r) else heap st r';
        next_ref := next_ref st;
        workflows := workflows st |}).
Proof. reflexivity. Qed.

Lemma finalize_workflow_run_double (r : ref) (now : datetime) (st : State) :
  exists st',
    MetricsCollector.finalize_workflow r now st = (Ok tt, st') /\
    (forall r',
        heap st' r' =
          if Nat.eqb r' r
          then WorkflowMetrics.set_duration
                 (WorkflowMetrics.set_end_time (heap st r) now)
                 (total_seconds
                    (sub now (WorkflowMetrics.start_time (heap st r))))
          else heap st r') /\
    workflows st' = workflows st ++ [r].
Proof.
  unfold MetricsCollector.finalize_workflow.
  rewrite (bind_ok_double _ (mutate_run_double _ _ _)).
  rewrite (bind_ok_double _ (mutate_run_double _ _ _)).
  unfold MetricsCollector.append_workflow.
  cbn [heap next_ref workflows]. rewrite Nat.eqb_refl.
  eexists. split; [reflexivity|]. cbn [heap workflows].
  split; [|reflexivity].
  intros r'. destruct (Nat.eqb r' r); reflexivity.
Qed.

Lemma finalize_all_workflows_double (calls : list (ref * datetime)) :
  forall st,
    exists units,
      outcome (finalize_all calls) st = Ok units /\
      workflows (state_after (finalize_all calls) st)
      = workflows st ++ map fst calls.
Proof.
  unfold finalize_all, outcome, state_after.
  induction calls as [|[r now] calls IH]; intros st.
  - exists []. cbn. now rewrite app_nil_r.
  - cbn [for_each fst snd map].
    destruct (finalize_workflow_run_double r now st) as [st1 [Hrun [_ Hw]]].
    rewrite (bind_ok_double _ Hrun).
    destruct (IH st1) as [units [Ho Hws]].
    destruct (for_each _ calls st1) as [res st2] eqn:E.
    cbn [fst snd] in *. subst res.
    rewrite (bind_ok_double _ E). cbn [ret fst snd].
    exists (tt :: units). split; [reflexivity|].
    rewrite Hws, Hw, <- app_assoc. reflexivity.
Qed.

(** C8.  [finalize_workflow] returns normally on every workflow, and
    so on every un-finalized one: it sets the workflow's [end_time] to
    the clock reading, sets its [duration] to
    [(end_time - start_time).total_seconds()], keeps its other fields,
    and appends the workflow at the end of the collector's list, whose
    earlier entries stay in place.  The duration is the double nearest
    to the microseconds from [start_time] to the clock reading divided
    by [10**6]; it is negative, zero or positive as the clock reading is
    earlier than, equal to or later than [start_time].  After a run of
    [finalize_workflow] calls the list is the earlier list followed by
    the finalized workflows in the order of the calls. *)
Theorem finalize_workflow_registers :
  (forall (st : State) (r : ref) (now : datetime),
      outcome (MetricsCollector.finalize_workflow r now) st = Ok tt /\
      let w := heap st r in
      let st' := state_after (MetricsCollector.finalize_workflow r now) st in
      let w' := heap st' r in
      WorkflowMetrics.end_time w' = Some now /\
      WorkflowMetrics.duration w'
      = total_seconds (sub now (WorkflowMetrics.start_time w)) /\
      (in_range (WorkflowMetrics.start_time w) -> in_range now ->
       WorkflowMetrics.duration w'
       = nearest_double
           (timestamp now - timestamp (WorkflowMetrics.start_time w))
           1000000 /\
       (PrimFloat.ltb (WorkflowMetrics.duration w') 0 = true
        <-> earlier now (WorkflowMetrics.start_time w)) /\
       (PrimFloat.eqb (WorkflowMetrics.duration w') 0 = true
        <-> now = WorkflowMetrics.start_time w) /\
       (PrimFloat.ltb 0 (WorkflowMetrics.duration w') = true
        <-> earlier (WorkflowMetrics.start_time w) now)) /\
      WorkflowMetrics.start_time w' = WorkflowMetrics.start_time w /\
      WorkflowMetrics.agents w' = WorkflowMetrics.agents w /\
      WorkflowMetrics.total_inputs_size w'
      = WorkflowMetrics.total_inputs_size w /\
      WorkflowMetrics.total_outputs_size w'
      = WorkflowMetrics.total_outputs_size w /\
      workflows st' = workflows st ++ [r] /\
      (forall r', r' <> r -> heap st' r' = heap st r'))
  /\
  (forall (st : State) (calls : list (ref * datetime)),
      exists units,
        outcome (finalize_all calls) st = Ok units /\
        workflows (state_after (finalize_all calls) st)
        = workflows st ++ map fst calls).
Proof.
  split; [|intros st calls; apply finalize_all_workflows_double].
  intros st r now. unfold outcome, state_after.
  destruct (finalize_workflow_run_double r now st) as [st' [Hrun [Hh Hw]]].
  rewrite Hrun. cbn [fst snd].
  split; [reflexivity|]. cbv zeta.
  rewrite (Hh r), Nat.eqb_refl.
  cbn [WorkflowMetrics.set_duration WorkflowMetrics.set_end_time
       WorkflowMetrics.end_time WorkflowMetrics.duration
       WorkflowMetrics.start_time WorkflowMetrics.agents
       WorkflowMetrics.total_inputs_size WorkflowMetrics.total_outputs_size].
  split; [reflexivity|]. split; [reflexivity|].
  split; [intros Hs Hn; now apply total_seconds_sign|].
  repeat split; try assumption.
  intros r' Hne. rewrite Hh. apply Nat.eqb_neq in Hne. now rewrite Hne.
Qed.

Lemma finalize_workflow_registers_witness :
  WorkflowMetrics.end_time (heap finalized_registry O)
  = Some five_past_noon /\
  WorkflowMetrics.duration (heap finalized_registry O) = 5%float /\
  PrimFloat.ltb 0 (WorkflowMetrics.duration (heap finalized_registry O))
  = true /\
  workflows finalized_registry = [O].
Proof.
  assert (R1 : in_range noon) by (cbv; intuition discriminate).
  assert (R2 : in_range five_past_noon) by (cbv; intuition discriminate).
  destruct (proj1 finalize_workflow_registers
              (state_after (MetricsCollector.create_workflow "Test" noon)
                 MetricsCollector.init) O five_past_noon)
    as [_ [He [Hd [Hsign [_ [_ [_ [_ [Hw _]]]]]]]]].
  destruct (Hsign R1 R2) as [_ [_ [_ Hpos]]].
  split; [exact He|].
  split; [refine (eq_trans Hd _); reflexivity|].
  split; [exact (proj2 Hpos eq_refl) | exact Hw].
Defined.

(** *** The summary *)

Lemma for_each_deref_double (refs : list ref) (st : State) :
  for_each deref refs st = (Ok (map (heap st) refs), st).
Proof.
  induction refs as [|r refs IH]; [reflexivity|].
  cbn [for_each map].
  rewrite (bind_ok_double _ (eq_refl : deref r st = (Ok (heap st r), st))).
  rewrite (bind_ok_double _ IH). reflexivity.
Qed.

Lemma for_each_to_dict_double (how : summation) (refs : list ref)
  (st : State) :
  for_each (fun r => query r (WorkflowMetrics.to_dict how)) refs st
  = (list_comprehension (WorkflowMetrics.to_dict how) (map (heap st) refs),
     st).
Proof.
  induction refs as [|r refs IH]; [reflexivity|].
  cbn [for_each map list_comprehension].
  unfold bind at 1. unfold query at 1. unfold bind at 1.
  cbn [deref lift].
  destruct (WorkflowMetrics.to_dict how (heap st r)) as [d | e];
    cbn [rbind]; [|reflexivity].
  unfold bind. rewrite IH.
  destruct (list_comprehension _ _) as [ds | e]; reflexivity.
Qed.

Lemma get_summary_run_double (how : summation) (st : State) :
  MetricsCollector.get_summary how st =
    (dicts <- list_comprehension (WorkflowMetrics.to_dict how)
                (registered st) ;;
     Ok (PDict
       [ ("total_workflows", PInt (Z.of_nat (List.length (registered st))));
         ("total_agents_executed",
           PInt (Builtins.sum_int
                   (map (fun w => Z.of_nat
                                    (List.length (WorkflowMetrics.agents w)))
                        (registered st))));
         ("total_time",
           sum_value how (map WorkflowMetrics.duration (registered st)));
         ("workflows", PList dicts) ]%string),
     st).
Proof.
  unfold MetricsCollector.get_summary, registered.
  rewrite (bind_ok_double _ (eq_refl : MetricsCollector.self_workflows st
                                       = (Ok (workflows st), st))).
  rewrite (bind_ok_double _ (for_each_deref_double _ _)).
  unfold bind. rewrite for_each_to_dict_double.
  destruct (list_comprehension _ _) as [ds | e]; reflexivity.
Qed.

(** C7 fails as stated: with a registered workflow whose records have
    the durations 0.0 and -1.0, [get_summary] raises [ZeroDivisionError]
    instead of returning a mapping, whichever way [sum] adds. *)
Lemma get_summary_raises :
  workflows negative_registry = [O] /\
  map ExecutionMetrics.duration
    (WorkflowMetrics.agents (heap negative_registry O))
  = [0; -1]%float /\
  (forall how : summation,
      outcome (MetricsCollector.get_summary how) negative_registry
      = Raise ZeroDivisionError).
Proof. repeat split. intros []; reflexivity. Qed.

(** C7, as the code has it.  In every state in which
    [get_parallel_efficiency] returns for each registered workflow,
    [get_summary] returns a mapping of four fields: [total_workflows] is
    the number of registered workflows, [total_agents_executed] the sum
    of their record counts, [total_time] what [sum] makes of their
    durations, in registration order (the int 0 when there is none), and
    [workflows] the list of their serialised forms in registration
    order.  [get_parallel_efficiency] returns for each registered
    workflow whenever all record durations are non-negative. *)
Theorem get_summary_fields (how : summation) (st : State) :
  (Forall (fun w => exists e,
             WorkflowMetrics.get_parallel_efficiency how w = Ok e)
     (registered st) ->
   exists dicts,
     outcome (MetricsCollector.get_summary how) st =
       Ok (PDict
         [ ("total_workflows", PInt (Z.of_nat (List.length (workflows st))));
           ("total_agents_executed",
             PInt (total_size
                     (map (fun w => Z.of_nat
                                      (List.length (WorkflowMetrics.agents w)))
                          (registered st))));
           ("total_time",
             sum_value how (map WorkflowMetrics.duration (registered st)));
           ("workflows", PList dicts) ]%string) /\
     Forall2 (fun w d => WorkflowMetrics.to_dict how w = Ok d)
       (registered st) dicts)
  /\
  (Forall (fun w =>
             non_negative (WorkflowMetrics.durations w) /\
             (Z.of_nat (List.length (WorkflowMetrics.agents w)) <= maxsize)%Z)
     (registered st) ->
   Forall (fun w => exists e,
             WorkflowMetrics.get_parallel_efficiency how w = Ok e)
     (registered st)).
Proof.
  split.
  - intros Heff.
    assert (Hdict : Forall (fun w => exists d,
                              WorkflowMetrics.to_dict how w = Ok d)
                      (registered st)).
    { eapply Forall_impl; [|exact Heff]. cbn. intros w [e He].
      unfold WorkflowMetrics.to_dict. rewrite He. cbn [rbind].
      eexists; reflexivity. }
    destruct (list_comprehension_ok _ _ Hdict) as [dicts [Hds Hall]].
    exists dicts.
    unfold outcome. rewrite get_summary_run_double, Hds. cbn [fst rbind].
    rewrite sum_int_total_size.
    replace (List.length (registered st)) with (List.length (workflows st))
      by (unfold registered; now rewrite length_map).
    split; [reflexivity | exact Hall].
  - intros Hnn. eapply Forall_impl; [|exact Hnn]. cbn.
    intros w [Hw Hlen]. now apply efficiency_returns_double.
Qed.

Lemma get_summary_fields_witness :
  workflows two_workflows = [1%nat; O] /\
  exists dicts,
    outcome (MetricsCollector.get_summary left_to_right) two_workflows =
      Ok (PDict
        [ ("total_workflows", PInt 2);
          ("total_agents_executed", PInt 3);
          ("total_time", PFloat 0x1.9p+3);
          ("workflows", PList dicts) ]%string) /\
    List.length dicts = 2%nat.
Proof.
  split; [reflexivity|].
  destruct (proj1 (get_summary_fields left_to_right two_workflows))
    as [dicts [H Hall]].
  - repeat constructor; eexists; reflexivity.
  - exists dicts. split; [exact H|].
    apply Forall2_length in Hall. rewrite <- Hall. reflexivity.
Defined.

End Collector64.

(** * Further properties *)

(** ** The parallel efficiency as a function of the durations *)

Section EfficiencyShape.

Open Scope Q_scope.
Import WorkflowMetrics.

Lemma is_maximum_count_positive (m : Q) (xs : list Q) :
  is_maximum m xs -> 0 < count xs.
Proof.
  intros [Hin _]. destruct xs as [|x xs]; [contradiction|].
  apply count_positive.
Qed.

(** The three ways [get_parallel_efficiency] ends on a non-empty list, by
    the sum and any maximum of the durations. *)
Lemma efficiency_cases (w : t) (m : Q) :
  is_maximum m (durations w) ->
  (total (durations w) == 0 /\ get_parallel_efficiency w = Ok 0)
  \/ (~ total (durations w) == 0 /\ m == 0 /\
      get_parallel_efficiency w = Raise ZeroDivisionError)
  \/ (~ total (durations w) == 0 /\ ~ m == 0 /\
      exists r, get_parallel_efficiency w = Ok r /\
                r == (total (durations w) / (m * count (durations w))) * 100).
Proof.
  intros Hm.
  destruct (Qeq_dec (total (durations w)) 0) as [Hz | Hne].
  - left. split; [exact Hz | now apply efficiency_total_zero].
  - right.
    destruct (efficiency_divides w Hne) as [m0 [Hm0 Heq]].
    assert (Hmm : m0 == m) by (eapply is_maximum_unique; eassumption).
    pose proof (is_maximum_count_positive _ _ Hm) as Hcnt.
    unfold Builtins.truediv in Heq.
    destruct (Qeq_bool (m0 * count (durations w)) 0) eqn:Hb.
    + left. apply Qeq_bool_iff in Hb. cbn [rbind] in Heq.
      split; [exact Hne|]. split; [|exact Heq].
      rewrite <- Hmm.
      destruct (Qeq_dec m0 0) as [H0 | H0]; [exact H0 | exfalso].
      apply (Qmult_integral _ _) in Hb. destruct Hb as [Hb | Hb]; [tauto|].
      rewrite Hb in Hcnt. lra.
    + right. apply Qeq_bool_neq in Hb. cbn [rbind] in Heq.
      split; [exact Hne|]. split.
      * intros H0. apply Hb. rewrite Hmm, H0. lra.
      * eexists. split; [exact Heq|]. now rewrite sum_total, Hmm.
Qed.

Lemma durations_maximum (w : t) :
  agents w <> [] -> exists m, is_maximum m (durations w).
Proof.
  intros Hne. unfold durations.
  destruct (agents w) as [|a rest]; [contradiction|]. cbn [map].
  destruct (max_is_maximum (ExecutionMetrics.duration a)
              (map ExecutionMetrics.duration rest)) as [m [_ Hm]].
  now exists m.
Qed.

Lemma efficiency_raise_cases (w : t) (e : exn) :
  get_parallel_efficiency w = Raise e <->
  e = ZeroDivisionError /\
  ~ total (durations w) == 0 /\
  exists m, is_maximum m (durations w) /\ m == 0.
Proof.
  split.
  - intros Hr.
    destruct (agents w) as [|a rest] eqn:E.
    + rewrite (efficiency_empty w E) in Hr. discriminate.
    + destruct (durations_maximum w) as [m Hm]; [now rewrite E|].
      destruct (efficiency_cases w m Hm)
        as [[_ H] | [[Hne [Hz H]] | [_ [_ [r [H _]]]]]];
        rewrite H in Hr; try discriminate.
      injection Hr as <-. split; [reflexivity|]. split; [exact Hne|].
      now exists m.
  - intros [-> [Hne [m [Hm Hz]]]].
    destruct (efficiency_cases w m Hm)
      as [[Ht _] | [[_ [_ H]] | [_ [Hnz _]]]]; tauto.
Qed.


(** X1.  [get_parallel_efficiency] raises in one situation only: the
    durations add up to something other than 0 while their maximum is 0;
    the exception is then [ZeroDivisionError].  The [ValueError] of [max]
    on an empty sequence never escapes. *)
Theorem efficiency_raises_iff (w : t) (e : exn) :
  get_parallel_efficiency w = Raise e <->
  e = ZeroDivisionError /\
  ~ total (durations w) == 0 /\
  exists m, is_maximum m (durations w) /\ m == 0.
Proof. exact (efficiency_raise_cases w e). Qed.

Lemma efficiency_raises_iff_witness :
  get_parallel_efficiency (workflow_with [record 0 0 0; record (-1) 0 0])
  = Raise ZeroDivisionError.
Proof.
  apply (proj2 (efficiency_raises_iff
                  (workflow_with [record 0 0 0; record (-1) 0 0])
                  ZeroDivisionError)).
  split; [reflexivity|]. split; [discriminate|].
  exists 0. split; [|reflexivity].
  split; [left; reflexivity | repeat constructor; discriminate].
Defined.

End EfficiencyShape.

(** ** What a client script does to the collector *)

Section Scripts.

Lemma perform_state (c : call) (st : State) :
  state_after (perform c) st =
    match c with
    | CreateWorkflow workflow_name now =>
        state_after (MetricsCollector.create_workflow workflow_name now) st
    | AddAgentMetrics workflow metrics =>
        state_after (add_agent_metrics workflow metrics) st
    | FinalizeWorkflow workflow now =>
        state_after (MetricsCollector.finalize_workflow workflow now) st
    | GetSummary => st
    end.
Proof.
  destruct c; try reflexivity.
  unfold state_after, perform, bind. rewrite get_summary_run.
  cbn [snd]. destruct (rbind _ _); reflexivity.
Qed.

Lemma new_consistent (name : string) (now : Datetime.datetime) :
  sizes_consistent (WorkflowMetrics.new name now).
Proof. split; reflexivity. Qed.

Lemma add_consistent (w : WorkflowMetrics.t) (m : ExecutionMetrics.t) :
  sizes_consistent w ->
  sizes_consistent (WorkflowMetrics.add_agent_metrics w m).
Proof.
  intros [Hi Ho]. unfold sizes_consistent. cbn.
  rewrite !map_app. cbn [map].
  assert (H : forall xs x, total_size (xs ++ [x]) = (total_size xs + x)%Z).
  { induction xs as [|y xs IH]; intros x; cbn; [lia|].
    fold (total_size (xs ++ [x])). rewrite IH.
    fold (total_size xs). lia. }
  rewrite !H, Hi, Ho. split; reflexivity.
Qed.

Lemma perform_consistent (c : call) (st : State) :
  (forall r, sizes_consistent (heap st r)) ->
  forall r, sizes_consistent (heap (state_after (perform c) st) r).
Proof.
  intros Hinv r. rewrite perform_state. destruct c as [n now|r0 m|r0 now|].
  - cbn. destruct (Nat.eqb r (next_ref st));
      [apply new_consistent | apply Hinv].
  - unfold state_after. rewrite add_agent_metrics_run. cbn [snd heap].
    destruct (Nat.eqb r r0); [apply add_consistent|]; apply Hinv.
  - unfold state_after.
    destruct (finalize_workflow_run r0 now st) as [st' [Hrun [Hh _]]].
    rewrite Hrun. cbn [snd]. rewrite Hh.
    destruct (Nat.eqb r r0); [|apply Hinv].
    destruct (Hinv r0) as [Hi Ho]. split; cbn; assumption.
  - apply Hinv.
Qed.

(** X6.  Whatever calls a client makes on a new collector, in whatever
    order, and whether or not some of them raise, every workflow keeps
    [total_inputs_size] and [total_outputs_size] equal to the sums over
    its records. *)
Theorem script_keeps_totals (calls : list call) (r : ref) :
  sizes_consistent (heap (run_calls calls MetricsCollector.init) r).
Proof.
  unfold run_calls.
  assert (H : forall st, (forall r, sizes_consistent (heap st r)) ->
                forall r, sizes_consistent
                            (heap (fold_left
                                     (fun st' c => state_after (perform c) st')
                                     calls st) r)).
  { induction calls as [|c calls IH]; intros st Hinv; [exact Hinv|].
    cbn [fold_left]. apply IH. now apply perform_consistent. }
  apply H. intros r'. apply new_consistent.
Qed.

Lemma perform_workflows (c : call) (st : State) :
  workflows (state_after (perform c) st)
  = workflows st ++ finalized_by [c].
Proof.
  rewrite perform_state. destruct c as [n now|r0 m|r0 now|].
  - cbn. now rewrite app_nil_r.
  - cbn. now rewrite app_nil_r.
  - unfold state_after.
    destruct (finalize_workflow_run r0 now st) as [st' [Hrun [_ Hw]]].
    rewrite Hrun. exact Hw.
  - cbn. now rewrite app_nil_r.
Qed.

(** X7.  The collector's list is append-only under every call: after a
    list of calls it is the earlier list followed by the workflows of the
    [finalize_workflow] calls, in call order and with repetitions.  No
    call removes or reorders an entry, and no other call adds one. *)
Theorem script_registers_finalized (calls : list call) (st : State) :
  workflows (run_calls calls st) = workflows st ++ finalized_by calls.
Proof.
  unfold run_calls. revert st.
  induction calls as [|c calls IH]; intros st.
  - cbn. now rewrite app_nil_r.
  - cbn [fold_left]. rewrite IH, perform_workflows.
    rewrite <- app_assoc. f_equal.
    unfold finalized_by. cbn [flat_map]. now rewrite app_nil_r.
Qed.

End Scripts.

(** ** The summary and the workflows behind it *)

Section SummaryFrame.

(** The summary reads the registered workflows and nothing else. *)
Lemma get_summary_frame (st st' : State) :
  registered st = registered st' ->
  outcome MetricsCollector.get_summary st
  = outcome MetricsCollector.get_summary st'.
Proof.
  intros H. unfold outcome. rewrite !get_summary_run. cbn [fst].
  now rewrite H.
Qed.

Lemma registered_after_add (r : ref) (m : ExecutionMetrics.t) (st : State) :
  registered (state_after (add_agent_metrics r m) st)
  = map (fun r' => if Nat.eqb r' r
                   then WorkflowMetrics.add_agent_metrics (heap st r) m
                   else heap st r')
        (workflows st).
Proof.
  unfold state_after. rewrite add_agent_metrics_run. reflexivity.
Qed.

(** X8.  A workflow that has not been registered does not show in the
    summary: adding a record to it leaves what [get_summary] returns or
    raises as it was. *)
Theorem unregistered_invisible (st : State) (r : ref)
  (m : ExecutionMetrics.t) :
  ~ In r (workflows st) ->
  outcome MetricsCollector.get_summary
    (state_after (add_agent_metrics r m) st)
  = outcome MetricsCollector.get_summary st.
Proof.
  intros Hnot. apply get_summary_frame.
  rewrite registered_after_add. unfold registered.
  apply map_ext_in. intros r' Hin.
  destruct (Nat.eqb r' r) eqn:E; [|reflexivity].
  apply Nat.eqb_eq in E. subst. contradiction.
Qed.

Lemma unregistered_invisible_witness :
  outcome MetricsCollector.get_summary
    (state_after (add_agent_metrics 5%nat late_record) two_workflows)
  = outcome MetricsCollector.get_summary two_workflows.
Proof.
  apply (unregistered_invisible two_workflows 5%nat late_record).
  cbn. intros [H | [H | []]]; discriminate.
Defined.

Lemma summary_agents_field (st : State) (s : pyval) :
  outcome MetricsCollector.get_summary st = Ok s ->
  getitem s "total_agents_executed"
  = Some (PInt (total_size
                  (map (fun w => Z.of_nat
                                   (List.length (WorkflowMetrics.agents w)))
                       (registered st)))).
Proof.
  unfold outcome. rewrite get_summary_run. cbn [fst].
  destruct (list_comprehension _ _) as [ds | e]; cbn [rbind];
    [|discriminate].
  intros H. injection H as <-. cbn. now rewrite sum_int_total_size.
Qed.

Lemma agents_after_add (r : ref) (m : ExecutionMetrics.t) (st : State)
  (refs : list ref) :
  total_size
    (map (fun w => Z.of_nat (List.length (WorkflowMetrics.agents w)))
       (map (fun r' => if Nat.eqb r' r
                       then WorkflowMetrics.add_agent_metrics (heap st r) m
                       else heap st r')
            refs))
  = (total_size
       (map (fun w => Z.of_nat (List.length (WorkflowMetrics.agents w)))
          (map (heap st) refs))
     + Z.of_nat (count_occ Nat.eq_dec refs r))%Z.
Proof.
  induction refs as [|r' refs IH]; [reflexivity|].
  cbn [map total_size fold_right count_occ].
  fold (total_size
          (map (fun w => Z.of_nat (List.length (WorkflowMetrics.agents w)))
             (map (fun r' => if Nat.eqb r' r
                             then WorkflowMetrics.add_agent_metrics
                                    (heap st r) m
                             else heap st r')
                  refs))).
  fold (total_size
          (map (fun w => Z.of_nat (List.length (WorkflowMetrics.agents w)))
             (map (heap st) refs))).
  rewrite IH.
  destruct (Nat.eq_dec r' r) as [-> | Hne].
  - rewrite Nat.eqb_refl. cbn [WorkflowMetrics.add_agent_metrics
                                 WorkflowMetrics.agents].
    rewrite length_app. cbn [List.length]. lia.
  - apply Nat.eqb_neq in Hne. rewrite Hne. lia.
Qed.

(** X9.  The collector holds the workflow itself, not a copy: a record
    added to a workflow after it was registered shows in the next
    summary.  When [get_summary] returns before and after the call,
    [total_agents_executed] has grown by the number of times the workflow
    is registered. *)
Theorem registered_workflow_is_shared (st : State) (r : ref)
  (m : ExecutionMetrics.t) (s s' : pyval) :
  outcome MetricsCollector.get_summary st = Ok s ->
  outcome MetricsCollector.get_summary
    (state_after (add_agent_metrics r m) st) = Ok s' ->
  exists n,
    getitem s "total_agents_executed" = Some (PInt n) /\
    getitem s' "total_agents_executed"
    = Some (PInt (n + Z.of_nat (count_occ Nat.eq_dec (workflows st) r))).
Proof.
  intros Hs Hs'.
  apply summary_agents_field in Hs, Hs'.
  rewrite registered_after_add, agents_after_add in Hs'.
  eexists. split; [exact Hs | exact Hs'].
Qed.

Lemma registered_workflow_is_shared_witness :
  exists s s',
    outcome MetricsCollector.get_summary finalized_registry = Ok s /\
    outcome MetricsCollector.get_summary
      (state_after (add_agent_metrics O late_record) finalized_registry)
    = Ok s' /\
    exists n,
      getitem s "total_agents_executed" = Some (PInt n) /\
      getitem s' "total_agents_executed"
      = Some (PInt (n + Z.of_nat
                         (count_occ Nat.eq_dec
                            (workflows finalized_registry) O))).
Proof.
  eexists. eexists.
  split; [reflexivity|]. split; [reflexivity|].
  apply (registered_workflow_is_shared finalized_registry O late_record).
  - reflexivity.
  - reflexivity.
Defined.

Lemma list_comprehension_raises {A B : Type} (f : A -> result B)
  (xs : list A) (e : exn) :
  list_comprehension f xs = Raise e -> Exists (fun x => f x = Raise e) xs.
Proof.
  induction xs as [|x xs IH]; cbn [list_comprehension]; [discriminate|].
  destruct (f x) as [y | e'] eqn:E; cbn [rbind].
  - destruct (list_comprehension f xs) as [ys | e'']; cbn [rbind];
      [discriminate|].
    intros H. injection H as ->. right. now apply IH.
  - intros H. injection H as ->. now left.
Qed.

Lemma list_comprehension_one_exception {A B : Type} (f : A -> result B)
  (xs : list A) (e : exn) :
  (forall x e', f x = Raise e' -> e' = e) ->
  Exists (fun x => f x = Raise e) xs ->
  list_comprehension f xs = Raise e.
Proof.
  intros Hone. induction 1 as [x xs Hx | x xs _ IH];
    cbn [list_comprehension].
  - now rewrite Hx.
  - destruct (f x) as [y | e'] eqn:E; cbn [rbind].
    + now rewrite IH.
    + now rewrite (Hone x e' E).
Qed.

Lemma to_dict_raises (w : WorkflowMetrics.t) (e : exn) :
  WorkflowMetrics.to_dict w = Raise e <->
  WorkflowMetrics.get_parallel_efficiency w = Raise e.
Proof.
  unfold WorkflowMetrics.to_dict.
  destruct (WorkflowMetrics.get_parallel_efficiency w); cbn [rbind];
    split; intros H; try discriminate; injection H as ->; reflexivity.
Qed.

Lemma summary_raise_cases (st : State) (e : exn) :
  outcome MetricsCollector.get_summary st = Raise e <->
  e = ZeroDivisionError /\
  Exists (fun w => WorkflowMetrics.get_parallel_efficiency w
                   = Raise ZeroDivisionError)
    (registered st).
Proof.
  unfold outcome. rewrite get_summary_run. cbn [fst].
  split.
  - destruct (list_comprehension _ _) as [ds | e'] eqn:E; cbn [rbind];
      [discriminate|].
    intros H. injection H as ->.
    apply list_comprehension_raises in E.
    assert (He : e = ZeroDivisionError).
    { apply Exists_exists in E. destruct E as [w [_ Hw]].
      apply to_dict_raises, efficiency_raise_cases in Hw. tauto. }
    subst. split; [reflexivity|].
    eapply Exists_impl; [|exact E]. cbn. intros w Hw.
    now apply to_dict_raises.
  - intros [-> Hex].
    rewrite (list_comprehension_one_exception
               WorkflowMetrics.to_dict (registered st) ZeroDivisionError).
    + reflexivity.
    + intros w e' Hw. apply to_dict_raises, efficiency_raise_cases in Hw.
      tauto.
    + eapply Exists_impl; [|exact Hex]. cbn. intros w Hw.
      now apply to_dict_raises.
Qed.


(** X10.  [get_summary] raises exactly when [get_parallel_efficiency]
    raises for some registered workflow, and the exception is then its
    [ZeroDivisionError]: one workflow with a non-zero sum and a zero
    maximum of durations makes the whole summary unavailable. *)
Theorem get_summary_raises_iff (st : State) (e : exn) :
  outcome MetricsCollector.get_summary st = Raise e <->
  e = ZeroDivisionError /\
  Exists (fun w => WorkflowMetrics.get_parallel_efficiency w
                   = Raise ZeroDivisionError)
    (registered st).
Proof. exact (summary_raise_cases st e). Qed.

Lemma get_summary_raises_iff_witness :
  outcome MetricsCollector.get_summary negative_registry
  = Raise ZeroDivisionError.
Proof.
  apply (proj2 (get_summary_raises_iff negative_registry ZeroDivisionError)).
  split; [reflexivity|]. left. reflexivity.
Defined.

End SummaryFrame.

(** ** Repeated calls *)

Section Repeated.

Import Datetime.

(** X11.  [finalize_workflow] does not look at whether the workflow was
    finalized before.  A second call stamps the later clock reading over
    [end_time], recomputes [duration] from it, and registers the workflow
    once more, so that the collector lists it twice. *)
Theorem finalize_workflow_twice (st : State) (r : ref) (now1 now2 : datetime) :
  let st1 := state_after (MetricsCollector.finalize_workflow r now1) st in
  let st2 := state_after (MetricsCollector.finalize_workflow r now2) st1 in
  outcome (MetricsCollector.finalize_workflow r now2) st1 = Ok tt /\
  workflows st2 = workflows st ++ [r; r] /\
  WorkflowMetrics.end_time (heap st2 r) = Some now2 /\
  WorkflowMetrics.duration (heap st2 r)
  = total_seconds (sub now2 (WorkflowMetrics.start_time (heap st r))) /\
  registered st2
  = map (fun r' => if Nat.eqb r' r then heap st2 r else heap st r')
      (workflows st ++ [r; r]).
Proof.
  cbv zeta. unfold outcome, state_after.
  destruct (finalize_workflow_run r now1 st) as [st1 [Hrun1 [Hh1 Hw1]]].
  rewrite Hrun1. cbn [snd].
  destruct (finalize_workflow_run r now2 st1) as [st2 [Hrun2 [Hh2 Hw2]]].
  rewrite Hrun2. cbn [fst snd].
  assert (Hw : workflows st2 = workflows st ++ [r; r]).
  { rewrite Hw2, Hw1, <- app_assoc. reflexivity. }
  split; [reflexivity|]. split; [exact Hw|].
  assert (Hr : heap st2 r
               = WorkflowMetrics.set_duration
                   (WorkflowMetrics.set_end_time (heap st1 r) now2)
                   (total_seconds
                      (sub now2 (WorkflowMetrics.start_time (heap st1 r)))))
    by (rewrite (Hh2 r), Nat.eqb_refl; reflexivity).
  split; [now rewrite Hr|]. split.
  - rewrite Hr, (Hh1 r), Nat.eqb_refl. reflexivity.
  - unfold registered. rewrite Hw. apply map_ext. intros r'.
    destruct (Nat.eqb r' r) eqn:E.
    + apply Nat.eqb_eq in E. now subst.
    + rewrite (Hh2 r'), E, (Hh1 r'), E. reflexivity.
Qed.

(** X12.  [calculate_duration] and [finalize] are idempotent, and while
    [end_time] is unset they change nothing: [duration] keeps the value
    it had, which [calculate_duration] returns. *)
Theorem duration_steps_idempotent :
  (forall m : ExecutionMetrics.t,
      let m' := fst (ExecutionMetrics.calculate_duration m) in
      ExecutionMetrics.calculate_duration m'
      = (m', snd (ExecutionMetrics.calculate_duration m)) /\
      (ExecutionMetrics.end_time m = None ->
       ExecutionMetrics.calculate_duration m
       = (m, ExecutionMetrics.duration m)))
  /\
  (forall w : WorkflowMetrics.t,
      WorkflowMetrics.finalize (WorkflowMetrics.finalize w)
      = WorkflowMetrics.finalize w /\
      (WorkflowMetrics.end_time w = None -> WorkflowMetrics.finalize w = w)).
Proof.
  split.
  - intros m. cbv zeta. unfold ExecutionMetrics.calculate_duration.
    destruct (ExecutionMetrics.end_time m) as [e|] eqn:E.
    + cbn. rewrite E. split; [reflexivity | discriminate].
    + cbn. rewrite E. split; reflexivity.
  - intros w. unfold WorkflowMetrics.finalize.
    destruct (WorkflowMetrics.end_time w) as [e|] eqn:E.
    + cbn. rewrite E. split; [reflexivity | discriminate].
    + rewrite E. split; reflexivity.
Qed.

Lemma duration_steps_idempotent_witness :
  ExecutionMetrics.calculate_duration (record 2 0 0) = (record 2 0 0, 2%Q).
Proof.
  apply (proj2 (proj1 duration_steps_idempotent (record 2 0 0))).
  reflexivity.
Defined.

End Repeated.

(** ** Serialisation loses nothing *)

Section Serialisation.

Import Datetime.
Open Scope Z_scope.

Lemma digit_inj (a b : Z) : digit a = digit b -> a mod 10 = b mod 10.
Proof.
  unfold digit. intros H.
  apply (f_equal nat_of_ascii) in H.
  pose proof (Z.mod_pos_bound a 10 ltac:(lia)).
  pose proof (Z.mod_pos_bound b 10 ltac:(lia)).
  rewrite !nat_ascii_embedding in H by lia. lia.
Qed.

Lemma string_cons_inj (c c' : ascii) (a b : string) :
  String c a = String c' b -> c = c' /\ a = b.
Proof. intros H. injection H as -> ->. now split. Qed.

Lemma zero_pad_inj (w : nat) (a b : Z) :
  zero_pad w a = zero_pad w b ->
  a mod 10 ^ Z.of_nat w = b mod 10 ^ Z.of_nat w.
Proof.
  induction w as [|k IH]; intros H.
  - cbn. now rewrite !Z.mod_1_r.
  - cbn [zero_pad] in H. apply string_cons_inj in H.
    destruct H as [Hd Hrest].
    apply digit_inj in Hd. specialize (IH Hrest).
    rewrite Nat2Z.inj_succ, Z.pow_succ_r by lia.
    rewrite (Z.mul_comm 10).
    rewrite !Z.rem_mul_r by (try apply Z.pow_nonzero; lia).
    now rewrite IH, Hd.
Qed.

Lemma zero_pad_in_range (w : nat) (a b : Z) :
  0 <= a < 10 ^ Z.of_nat w -> 0 <= b < 10 ^ Z.of_nat w ->
  zero_pad w a = zero_pad w b -> a = b.
Proof.
  intros Ha Hb H. apply zero_pad_inj in H.
  now rewrite !Z.mod_small in H.
Qed.

Lemma zero_pad_length (w : nat) (n : Z) : String.length (zero_pad w n) = w.
Proof. induction w as [|k IH]; cbn; [reflexivity | now rewrite IH]. Qed.

Lemma append_inj (a a' b b' : string) :
  String.length a = String.length a' ->
  (a ++ b)%string = (a' ++ b')%string -> a = a' /\ b = b'.
Proof.
  revert a'. induction a as [|c a IH]; intros [|c' a'] Hlen H;
    cbn in Hlen; try discriminate.
  - now split.
  - cbn in H. injection H as -> H. injection Hlen as Hlen.
    destruct (IH a' Hlen H) as [-> ->]. now split.
Qed.

Lemma fraction_inj (a b : Z) :
  0 <= a <= 999999 -> 0 <= b <= 999999 -> fraction a = fraction b -> a = b.
Proof.
  unfold fraction. intros Ha Hb.
  destruct (Z.eqb_spec a 0) as [-> | Hna];
    destruct (Z.eqb_spec b 0) as [-> | Hnb];
    try reflexivity; try discriminate.
  intros H. apply string_cons_inj in H. destruct H as [_ H].
  apply (zero_pad_in_range 6); [cbn; lia | cbn; lia | exact H].
Qed.

Lemma days_in_month_bound (y m : Z) : days_in_month y m <= 31.
Proof.
  unfold days_in_month.
  destruct ((m =? 2) && is_leap y); [lia|].
  unfold DAYS_IN_MONTH.
  destruct (Z.to_nat m) as [|[|[|[|[|[|[|[|[|[|[|[|[|n]]]]]]]]]]]]];
    cbn; try lia.
  destruct n; lia.
Qed.

Ltac split_append H Hhead :=
  apply append_inj in H;
  [destruct H as [Hhead H] | rewrite ?zero_pad_length; reflexivity].

(** Within the ranges of the constructor, [isoformat] tells datetimes
    apart. *)
Lemma isoformat_inj (d1 d2 : datetime) :
  in_range d1 -> in_range d2 -> isoformat d1 = isoformat d2 -> d1 = d2.
Proof.
  intros (Hy1 & Hm1 & Hd1 & Hh1 & Hmi1 & Hs1 & Hu1)
         (Hy2 & Hm2 & Hd2 & Hh2 & Hmi2 & Hs2 & Hu2) H.
  pose proof (days_in_month_bound (year d1) (month d1)).
  pose proof (days_in_month_bound (year d2) (month d2)).
  unfold isoformat in H.
  split_append H Ey. split_append H E0.
  split_append H Em. split_append H E1.
  split_append H Ed. split_append H E2.
  split_append H Eh. split_append H E3.
  split_append H Emi. split_append H E4.
  split_append H Es.
  apply (zero_pad_in_range 4) in Ey; [|cbn; lia|cbn; lia].
  apply (zero_pad_in_range 2) in Em; [|cbn; lia|cbn; lia].
  apply (zero_pad_in_range 2) in Ed; [|cbn; lia|cbn; lia].
  apply (zero_pad_in_range 2) in Eh; [|cbn; lia|cbn; lia].
  apply (zero_pad_in_range 2) in Emi; [|cbn; lia|cbn; lia].
  apply (zero_pad_in_range 2) in Es; [|cbn; lia|cbn; lia].
  apply fraction_inj in H; [|lia|lia].
  destruct d1, d2. cbn in *. now subst.
Qed.

Lemma PStr_inj (a b : string) : PStr a = PStr b -> a = b.
Proof. intros H. injection H as ->. reflexivity. Qed.

Lemma isoformat_or_none_inj (d1 d2 : option datetime) :
  optional_in_range d1 -> optional_in_range d2 ->
  isoformat_or_none d1 = isoformat_or_none d2 -> d1 = d2.
Proof.
  destruct d1 as [e1|], d2 as [e2|];
    cbn [isoformat_or_none optional_in_range]; intros H1 H2 H;
    try discriminate; [|reflexivity].
  apply PStr_inj in H. f_equal. now apply isoformat_inj.
Qed.

Lemma AgentType_value_inj (a b : AgentType) :
  AgentType_value a = AgentType_value b -> a = b.
Proof. destruct a, b; cbn; intros H; try reflexivity; discriminate. Qed.

Lemma record_to_dict_inj (m1 m2 : ExecutionMetrics.t) :
  record_in_range m1 -> record_in_range m2 ->
  ExecutionMetrics.to_dict m1 = ExecutionMetrics.to_dict m2 -> m1 = m2.
Proof.
  intros [Hs1 He1] [Hs2 He2] H.
  unfold ExecutionMetrics.to_dict in H.
  remember (isoformat (ExecutionMetrics.start_time m1)) as s1 eqn:Es1.
  remember (isoformat (ExecutionMetrics.start_time m2)) as s2 eqn:Es2.
  remember (isoformat_or_none (ExecutionMetrics.end_time m1)) as e1 eqn:Ee1.
  remember (isoformat_or_none (ExecutionMetrics.end_time m2)) as e2 eqn:Ee2.
  remember (AgentType_value (ExecutionMetrics.agent_type m1)) as t1 eqn:Et1.
  remember (AgentType_value (ExecutionMetrics.agent_type m2)) as t2 eqn:Et2.
  injection H as Hname Htype Hstart Hend Hdur Hsucc Herr Hin Hout.
  subst s1 s2 e1 e2 t1 t2.
  apply AgentType_value_inj in Htype.
  apply isoformat_inj in Hstart; [|assumption|assumption].
  apply isoformat_or_none_inj in Hend; [|assumption|assumption].
  destruct m1, m2. cbn in *. now subst.
Qed.

Lemma records_to_dict_inj (l1 l2 : list ExecutionMetrics.t) :
  Forall record_in_range l1 -> Forall record_in_range l2 ->
  map ExecutionMetrics.to_dict l1 = map ExecutionMetrics.to_dict l2 ->
  l1 = l2.
Proof.
  intros H1. revert l2.
  induction H1 as [|m1 l1 Hm1 _ IH]; intros [|m2 l2] H2 H;
    try discriminate; [reflexivity|].
  cbn [map] in H. inversion H2 as [|? ? Hm2 H2']; subst.
  assert (Hhead : ExecutionMetrics.to_dict m1 = ExecutionMetrics.to_dict m2)
    by congruence.
  assert (Htail : map ExecutionMetrics.to_dict l1
                  = map ExecutionMetrics.to_dict l2) by congruence.
  f_equal; [now apply record_to_dict_inj | now apply IH].
Qed.

(** X13.  Serialisation loses no information: two records with the same
    [to_dict] are the same record, and two workflows for which [to_dict]
    returns the same mapping are the same workflow.  The timestamps are
    taken within the ranges that the [datetime] constructor enforces. *)
Theorem to_dict_injective :
  (forall m1 m2 : ExecutionMetrics.t,
      record_in_range m1 -> record_in_range m2 ->
      ExecutionMetrics.to_dict m1 = ExecutionMetrics.to_dict m2 ->
      m1 = m2)
  /\
  (forall (w1 w2 : WorkflowMetrics.t) (d : pyval),
      workflow_in_range w1 -> workflow_in_range w2 ->
      WorkflowMetrics.to_dict w1 = Ok d ->
      WorkflowMetrics.to_dict w2 = Ok d ->
      w1 = w2).
Proof.
  split; [exact record_to_dict_inj|].
  intros w1 w2 d (Hs1 & He1 & Ha1) (Hs2 & He2 & Ha2) H1 H2.
  unfold WorkflowMetrics.to_dict in H1, H2.
  destruct (WorkflowMetrics.get_parallel_efficiency w1) as [e1|];
    cbn [rbind] in H1; [|discriminate].
  destruct (WorkflowMetrics.get_parallel_efficiency w2) as [e2|];
    cbn [rbind] in H2; [|discriminate].
  rewrite <- H2 in H1. clear H2.
  remember (isoformat (WorkflowMetrics.start_time w1)) as s1 eqn:Es1.
  remember (isoformat (WorkflowMetrics.start_time w2)) as s2 eqn:Es2.
  remember (isoformat_or_none (WorkflowMetrics.end_time w1)) as t1 eqn:Et1.
  remember (isoformat_or_none (WorkflowMetrics.end_time w2)) as t2 eqn:Et2.
  remember (map ExecutionMetrics.to_dict (WorkflowMetrics.agents w1))
    as a1 eqn:Ea1.
  remember (map ExecutionMetrics.to_dict (WorkflowMetrics.agents w2))
    as a2 eqn:Ea2.
  injection H1 as Hname Hstart Hend Hdur Hagents Hin Hout Hsucc Herr _.
  subst s1 s2 t1 t2 a1 a2.
  apply isoformat_inj in Hstart; [|assumption|assumption].
  apply isoformat_or_none_inj in Hend; [|assumption|assumption].
  apply records_to_dict_inj in Hagents; [|assumption|assumption].
  destruct w1, w2. cbn in *. now subst.
Qed.

End Serialisation.

Lemma to_dict_injective_witness :
  record_in_range five_second_record /\
  five_second_record = five_second_record.
Proof.
  assert (H : record_in_range five_second_record).
  { unfold record_in_range, optional_in_range, in_range.
    repeat split; vm_compute; discriminate. }
  split; [exact H|].
  apply (proj1 to_dict_injective five_second_record five_second_record H H).
  reflexivity.
Defined.

(** ** Saving the metrics *)

Section SaveMetrics.

Variable can_open : Disk -> string -> bool.
Variable dumps : pyval -> string.

(** X14.  [save_metrics] opens the file before it asks for the summary.
    When the file can be opened and [get_summary] returns, the file holds
    the JSON text of the summary.  When [get_summary] raises, the
    exception propagates and the file is left empty, whatever it held
    before.  When the file cannot be opened, nothing changes.  In every
    case the other files and the collector stay as they were. *)
Theorem save_metrics_effects (filename : string) (st : State) (disk : Disk) :
  let '(outcome_, st', disk') :=
    save_metrics can_open dumps filename st disk in
  st' = st /\
  (forall path, path <> filename -> disk' path = disk path) /\
  (can_open disk filename = false ->
   outcome_ = Failed OSError /\ disk' filename = disk filename) /\
  (can_open disk filename = true ->
   forall summary,
     outcome MetricsCollector.get_summary st = Ok summary ->
     outcome_ = Done tt /\ disk' filename = Some (dumps summary)) /\
  (can_open disk filename = true ->
   forall e,
     outcome MetricsCollector.get_summary st = Raise e ->
     outcome_ = Failed (Propagated e) /\
     disk' filename = Some EmptyString).
Proof.
  unfold save_metrics, outcome. rewrite get_summary_run. cbn [fst].
  destruct (can_open disk filename).
  - destruct (rbind _ _) as [summary | e].
    + split; [reflexivity|]. split.
      * intros path Hne. unfold write_file.
        apply String.eqb_neq in Hne. now rewrite Hne.
      * split; [discriminate|]. split.
        -- intros _ s H. injection H as <-. split; [reflexivity|].
           unfold write_file. now rewrite String.eqb_refl.
        -- intros _ e H. discriminate.
    + split; [reflexivity|]. split.
      * intros path Hne. unfold write_file.
        apply String.eqb_neq in Hne. now rewrite Hne.
      * split; [discriminate|]. split.
        -- intros _ s H. discriminate.
        -- intros _ e' H. injection H as <-. split; [reflexivity|].
           unfold write_file. now rewrite String.eqb_refl.
  - split; [reflexivity|]. split; [reflexivity|].
    split; [now split|]. split; discriminate.
Qed.

End SaveMetrics.

Lemma save_metrics_effects_witness :
  let '(outcome_, st', disk') :=
    save_metrics (fun _ _ => true) (fun _ => "{}"%string) "metrics.json"
      negative_registry old_disk in
  old_disk "metrics.json"%string = Some "{ earlier metrics }"%string /\
  outcome_ = Failed (Propagated ZeroDivisionError) /\
  disk' "metrics.json"%string = Some EmptyString.
Proof.
  pose proof (save_metrics_effects (fun _ _ => true) (fun _ => "{}"%string)
                "metrics.json" negative_registry old_disk) as H.
  destruct (save_metrics _ _ _ _ _) as [[o st'] disk'].
  destruct H as (_ & _ & _ & _ & H).
  split; [reflexivity|].
  apply (H eq_refl ZeroDivisionError). reflexivity.
Defined.

(** ** The dashboard *)

Section DashboardProperties.

Variable format_2f : Q -> string.
Variable format_1f : Q -> string.
Variable format_thousands : Z -> string.

Lemma print_one_raises (w : WorkflowMetrics.t) (e : exn) :
  fst (print_workflow_summary format_2f format_1f format_thousands w)
  = Raise e <->
  existsb is_parallel (WorkflowMetrics.agents w) = true /\
  WorkflowMetrics.get_parallel_efficiency w = Raise e.
Proof.
  unfold print_workflow_summary.
  destruct (existsb is_parallel (WorkflowMetrics.agents w)).
  - destruct (WorkflowMetrics.get_parallel_efficiency w) as [x | e'];
      cbn [fst]; split.
    + discriminate.
    + intros [_ H]. discriminate.
    + intros H. injection H as ->. now split.
    + intros [_ H]. injection H as ->. reflexivity.
  - cbn [fst]. split; [discriminate | intros [H _]; discriminate].
Qed.

(** X15.  [print_workflow_summary] asks for the parallel efficiency only
    when some record is of the parallel kind.  Without such a record it
    returns normally whatever the durations are and prints the head and
    the agent breakdown.  With one it raises exactly when
    [get_parallel_efficiency] does, with [ZeroDivisionError], and has by
    then printed the seven lines of the head and nothing else. *)
Theorem print_workflow_summary_outcome (w : WorkflowMetrics.t) :
  (existsb is_parallel (WorkflowMetrics.agents w) = false ->
   print_workflow_summary format_2f format_1f format_thousands w
   = (Ok tt,
      summary_head format_2f format_thousands w
      ++ summary_tail format_2f w)) /\
  (forall e,
      fst (print_workflow_summary format_2f format_1f format_thousands w)
      = Raise e <->
      existsb is_parallel (WorkflowMetrics.agents w) = true /\
      WorkflowMetrics.get_parallel_efficiency w = Raise e) /\
  (forall e,
      fst (print_workflow_summary format_2f format_1f format_thousands w)
      = Raise e ->
      e = ZeroDivisionError /\
      snd (print_workflow_summary format_2f format_1f format_thousands w)
      = summary_head format_2f format_thousands w /\
      List.length
        (snd (print_workflow_summary format_2f format_1f format_thousands w))
      = 7%nat).
Proof.
  split; [|split].
  - intros H. unfold print_workflow_summary. now rewrite H.
  - apply print_one_raises.
  - intros e H. apply print_one_raises in H. destruct H as [Hp He].
    split.
    + apply efficiency_raise_cases in He. tauto.
    + unfold print_workflow_summary.
      rewrite Hp, He. cbn [snd]. split; reflexivity.
Qed.

Lemma print_all_raises (ws : list WorkflowMetrics.t) (e : exn) :
  fst (print_summaries format_2f format_1f format_thousands ws) = Raise e <->
  e = ZeroDivisionError /\
  Exists (fun w => existsb is_parallel (WorkflowMetrics.agents w) = true /\
                   WorkflowMetrics.get_parallel_efficiency w
                   = Raise ZeroDivisionError) ws.
Proof.
  induction ws as [|w ws IH].
  - cbn. split; [discriminate | intros [_ H]; inversion H].
  - cbn [print_summaries].
    destruct (print_workflow_summary format_2f format_1f format_thousands w)
      as [[u|e'] printed] eqn:E.
    + destruct (print_summaries format_2f format_1f format_thousands ws)
        as [r printed'].
      cbn [fst] in *. rewrite IH. split.
      * intros [-> H]. split; [reflexivity | now right].
      * intros [-> H]. split; [reflexivity|].
        inversion H as [? ? Hw | ? ? Hws]; subst; [|exact Hws].
        apply (proj2 (print_one_raises w ZeroDivisionError)) in Hw.
        rewrite E in Hw. discriminate.
    + cbn [fst].
      assert (Hw : fst (print_workflow_summary format_2f format_1f
                          format_thousands w) = Raise e')
        by now rewrite E.
      apply print_one_raises in Hw. destruct Hw as [Hp He].
      assert (He' : e' = ZeroDivisionError)
        by (apply efficiency_raise_cases in He; tauto).
      subst e'. split.
      * intros H. injection H as <-. split; [reflexivity|]. now left.
      * intros [-> _]. reflexivity.
Qed.

(** X16.  [print_all_summaries] raises exactly when some registered
    workflow has a record of the parallel kind and an efficiency that
    raises; [get_summary] raises then as well.  A registered workflow of
    serial records only never stops the printing. *)
Theorem print_all_summaries_raises (st : State) (e : exn) :
  (fst (print_all_summaries format_2f format_1f format_thousands st)
   = Raise e <->
   e = ZeroDivisionError /\
   Exists (fun w => existsb is_parallel (WorkflowMetrics.agents w) = true /\
                    WorkflowMetrics.get_parallel_efficiency w
                    = Raise ZeroDivisionError)
     (registered st)) /\
  (fst (print_all_summaries format_2f format_1f format_thousands st)
   = Raise e ->
   outcome MetricsCollector.get_summary st = Raise ZeroDivisionError).
Proof.
  split; [apply print_all_raises|].
  intros H. apply print_all_raises in H. destruct H as [_ H].
  apply summary_raise_cases. split; [reflexivity|].
  eapply Exists_impl; [|exact H]. cbn. tauto.
Qed.

End DashboardProperties.

Lemma print_workflow_summary_outcome_witness :
  WorkflowMetrics.get_parallel_efficiency serial_negative
  = Raise ZeroDivisionError /\
  fst (print_workflow_summary (fun _ => "0.00"%string)
         (fun _ => "0.0"%string) (fun _ => "0"%string) serial_negative)
  = Ok tt.
Proof.
  split; [reflexivity|].
  rewrite (proj1 (print_workflow_summary_outcome
                    (fun _ => "0.00"%string) (fun _ => "0.0"%string)
                    (fun _ => "0"%string) serial_negative) eq_refl).
  reflexivity.
Defined.

Lemma print_all_summaries_raises_witness :
  fst (print_all_summaries (fun _ => "0.00"%string)
         (fun _ => "0.0"%string) (fun _ => "0"%string) negative_registry)
  = Raise ZeroDivisionError.
Proof.
  apply (proj2 (proj1 (print_all_summaries_raises
                         (fun _ => "0.00"%string) (fun _ => "0.0"%string)
                         (fun _ => "0"%string) negative_registry
                         ZeroDivisionError))).
  split; [reflexivity|]. left. split; reflexivity.
Defined.

(** ** The configurations *)

Section ConfigurationProperties.

Import Configuration.

Lemma get_config_cases (at_import at_call : Environ)
  (environment : option string) :
  let name := match environment with
              | None => getenv at_call "ENVIRONMENT" "development"
              | Some name => name
              end in
  (lower name = "production"%string /\
   get_config at_import at_call environment = ProductionConfig at_import)
  \/ (lower name = "staging"%string /\
      get_config at_import at_call environment = StagingConfig at_import)
  \/ (lower name <> "production"%string /\
      lower name <> "staging"%string /\
      get_config at_import at_call environment
      = DevelopmentConfig at_import).
Proof.
  cbv zeta. unfold get_config.
  set (name := match environment with
               | None => getenv at_call "ENVIRONMENT" "development"
               | Some name => name
               end).
  cbn [dict_get].
  destruct (String.eqb_spec "development" (lower name)) as [E1 | N1].
  - right. right. rewrite <- E1. repeat split; discriminate.
  - destruct (String.eqb_spec "staging" (lower name)) as [E2 | N2].
    + right. left. now split.
    + destruct (String.eqb_spec "production" (lower name)) as [E3 | N3].
      * left. now split.
      * right. right. repeat split; congruence.
Qed.

Lemma flag_nil (b : bool) (issue : string) :
  (if b then [issue] else []) = [] <-> b = false.
Proof. destruct b; split; intros H; try reflexivity; discriminate. Qed.

Lemma app_nil_iff {A : Type} (xs ys : list A) :
  xs ++ ys = [] <-> xs = [] /\ ys = [].
Proof.
  split.
  - apply app_eq_nil.
  - intros [-> ->]. reflexivity.
Qed.

Lemma directory_issues_nil (makedirs : string -> option string)
  (dirs : list string) :
  directory_issues makedirs dirs = [] <->
  Forall (fun d => makedirs d = None) dirs.
Proof.
  unfold directory_issues. induction dirs as [|d dirs IH]; cbn [flat_map].
  - split; [constructor | reflexivity].
  - rewrite app_nil_iff, IH. split.
    + intros [Hd Hall]. constructor; [|exact Hall].
      destruct (makedirs d); [discriminate | reflexivity].
    + intros H. inversion H as [|? ? Hd Hall]; subst.
      rewrite Hd. now split.
Qed.

Lemma api_key_set (key : option string) :
  falsy_option key = false <->
  exists k, key = Some k /\ k <> EmptyString.
Proof.
  destruct key as [[|c k]|]; cbn; split; intros H; try discriminate.
  - destruct H as [k [Hk Hne]]. injection Hk as <-. contradiction.
  - eexists. split; [reflexivity | discriminate].
  - reflexivity.
  - destruct H as [k [Hk _]]. discriminate.
Qed.

Lemma model_set (environ : Environ) :
  negb (non_empty (getenv environ "GEMINI_MODEL" "gemini-pro")) = false <->
  environ "GEMINI_MODEL"%string <> Some EmptyString.
Proof.
  unfold getenv.
  destruct (environ "GEMINI_MODEL"%string) as [[|c m]|]; cbn; split;
    intros H; try reflexivity; try discriminate.
  contradiction.
Qed.

Lemma validate_iff_no_issues (makedirs : string -> option string)
  (c : Config) :
  validate_configuration makedirs c = true <-> issues makedirs c = [].
Proof.
  unfold validate_configuration.
  destruct (issues makedirs c); split; intros H;
    try reflexivity; discriminate.
Qed.

(** X17.  For the configuration that [get_config] returns, whatever the
    environment name, [validate_configuration] passes exactly when the
    API key is set and not empty, the model name is not empty, and the
    three directories can be created.  Its checks of the timeout and of
    the number of workers never fail on these configurations. *)
Theorem built_in_configuration_valid_iff (at_import at_call : Environ)
  (environment : option string) (makedirs : string -> option string) :
  validate_configuration makedirs
    (get_config at_import at_call environment) = true
  <->
  (exists key, at_import "GEMINI_API_KEY"%string = Some key
               /\ key <> EmptyString)
  /\ at_import "GEMINI_MODEL"%string <> Some EmptyString
  /\ makedirs "outputs"%string = None
  /\ makedirs "metrics"%string = None
  /\ makedirs "reports"%string = None.
Proof.
  rewrite validate_iff_no_issues.
  assert (H : forall c,
             GEMINI_API_KEY c = at_import "GEMINI_API_KEY"%string ->
             GEMINI_MODEL c = getenv at_import "GEMINI_MODEL" "gemini-pro" ->
             OUTPUT_DIR c = "outputs"%string ->
             METRICS_DIR c = "metrics"%string ->
             REPORTS_DIR c = "reports"%string ->
             (REQUEST_TIMEOUT_SECONDS c <? 10)%Z = false ->
             (PARALLEL_AGENTS_MAX_WORKERS c <? 1)%Z = false ->
             issues makedirs c = []
             <->
             (exists key, at_import "GEMINI_API_KEY"%string = Some key
                          /\ key <> EmptyString)
             /\ at_import "GEMINI_MODEL"%string <> Some EmptyString
             /\ makedirs "outputs"%string = None
             /\ makedirs "metrics"%string = None
             /\ makedirs "reports"%string = None).
  { intros c Hk Hm Ho Hme Hr Ht Hw.
    unfold issues. rewrite Hk, Hm, Ho, Hme, Hr, Ht, Hw.
    rewrite !app_nil_iff, !flag_nil, directory_issues_nil.
    rewrite api_key_set, model_set.
    split.
    - intros (H1 & H2 & H3 & _).
      inversion H3 as [|? ? Ha H3']; subst.
      inversion H3' as [|? ? Hb H3'']; subst.
      inversion H3'' as [|? ? Hc _]; subst.
      repeat split; assumption.
    - intros (H1 & H2 & Ha & Hb & Hc).
      repeat split; try assumption.
      repeat constructor; assumption. }
  destruct (get_config_cases at_import at_call environment)
    as [[_ ->] | [[_ ->] | [_ [_ ->]]]];
    apply H; reflexivity.
Qed.

Lemma built_in_configuration_valid_iff_witness :
  validate_configuration (fun _ => None)
    (get_config sample_environ sample_environ (Some "Production"%string))
  = true.
Proof.
  apply (proj2 (built_in_configuration_valid_iff sample_environ
                  sample_environ (Some "Production"%string)
                  (fun _ => None))).
  split; [exists "secret"%string; split; [reflexivity | discriminate]|].
  repeat split; discriminate.
Defined.

(** X18.  The [LOG_LEVEL] environment variable has no effect on the
    configuration that [get_config] returns: each of the three classes
    sets its own level, [DEBUG], [INFO] or [WARNING], over the one that
    [Config] reads from the environment. *)
Theorem log_level_variable_ignored (at_import at_import' at_call : Environ)
  (environment : option string) :
  (forall name, name <> "LOG_LEVEL"%string ->
                at_import name = at_import' name) ->
  get_config at_import at_call environment
  = get_config at_import' at_call environment
  /\ In (LOG_LEVEL (get_config at_import at_call environment))
       ["DEBUG"; "INFO"; "WARNING"]%string.
Proof.
  intros Hsame.
  assert (Hk : at_import "GEMINI_API_KEY"%string
               = at_import' "GEMINI_API_KEY"%string)
    by (apply Hsame; discriminate).
  assert (Hm : at_import "GEMINI_MODEL"%string
               = at_import' "GEMINI_MODEL"%string)
    by (apply Hsame; discriminate).
  assert (Hd : DevelopmentConfig at_import = DevelopmentConfig at_import').
  { unfold DevelopmentConfig, subclass, BaseConfig, getenv; cbn.
    now rewrite Hk, Hm. }
  assert (Hs : StagingConfig at_import = StagingConfig at_import').
  { unfold StagingConfig, subclass, BaseConfig, getenv; cbn.
    now rewrite Hk, Hm. }
  assert (Hp : ProductionConfig at_import = ProductionConfig at_import').
  { unfold ProductionConfig, subclass, BaseConfig, getenv; cbn.
    now rewrite Hk, Hm. }
  split.
  - unfold get_config. now rewrite Hd, Hs, Hp.
  - destruct (get_config_cases at_import at_call environment)
      as [[_ ->] | [[_ ->] | [_ [_ ->]]]]; cbn; tauto.
Qed.

Lemma log_level_variable_ignored_witness :
  LOG_LEVEL (get_config sample_environ sample_environ None)
  = "DEBUG"%string /\
  get_config sample_environ sample_environ None
  = get_config
      (fun name => if String.eqb name "LOG_LEVEL" then None
                   else sample_environ name)
      sample_environ None.
Proof.
  split; [reflexivity|].
  apply (log_level_variable_ignored sample_environ
           (fun name => if String.eqb name "LOG_LEVEL" then None
                        else sample_environ name)
           sample_environ None).
  intros name Hne. apply String.eqb_neq in Hne. now rewrite Hne.
Defined.

(** X19.  [get_config] resolves the environment name without regard to
    case, reads the [ENVIRONMENT] variable only when no name is given,
    and gives the development configuration for every name that is
    neither [staging] nor [production], the empty name included. *)
Theorem get_config_resolution (at_import at_call : Environ) :
  (forall n1 n2,
      lower n1 = lower n2 ->
      get_config at_import at_call (Some n1)
      = get_config at_import at_call (Some n2))
  /\ get_config at_import at_call None
     = get_config at_import at_call
         (Some (getenv at_call "ENVIRONMENT" "development"))
  /\ (forall n,
        lower n = "production"%string ->
        get_config at_import at_call (Some n) = ProductionConfig at_import)
  /\ (forall n,
        lower n = "staging"%string ->
        get_config at_import at_call (Some n) = StagingConfig at_import)
  /\ (forall n,
        lower n <> "production"%string ->
        lower n <> "staging"%string ->
        get_config at_import at_call (Some n) = DevelopmentConfig at_import).
Proof.
  split; [|split; [|split; [|split]]].
  - intros n1 n2 H. unfold get_config. now rewrite H.
  - reflexivity.
  - intros n H. unfold get_config. now rewrite H.
  - intros n H. unfold get_config. now rewrite H.
  - intros n Hp Hs.
    destruct (get_config_cases at_import at_call (Some n))
      as [[E _] | [[E _] | [_ [_ H]]]]; [contradiction | contradiction|].
    exact H.
Qed.

Lemma get_config_resolution_witness :
  get_config sample_environ sample_environ (Some "PRODUCTION"%string)
  = Configuration.ProductionConfig sample_environ /\
  get_config sample_environ sample_environ (Some "prod"%string)
  = Configuration.DevelopmentConfig sample_environ.
Proof.
  split.
  - apply (proj1 (proj2 (proj2
             (get_config_resolution sample_environ sample_environ)))).
    reflexivity.
  - apply (proj2 (proj2 (proj2 (proj2
             (get_config_resolution sample_environ sample_environ))))).
    + discriminate.
    + discriminate.
Defined.

End ConfigurationProperties.

(** ** The double reading: guards, rounding and the calendar *)

Section DoubleReading.

Import Datetime.
Import Binary64.

Lemma zero_maximum_all_zero (mx : float) (xs : list float) :
  non_negative xs -> is_maximum mx xs -> PrimFloat.eqb mx 0 = true ->
  Forall is_zero xs.
Proof.
  intros Hnn [_ Hall] Hz. unfold non_negative in Hnn.
  rewrite Forall_forall in *. intros x Hx.
  specialize (Hnn x Hx). specialize (Hall x Hx).
  rewrite eqb_spec, Prim2SF_zero in Hz. rewrite leb_spec in Hall.
  destruct (nonneg_cases x Hnn) as [H | [H | (m & e & H)]]; [exact H | |];
    rewrite H in Hall; destruct (Prim2SF mx) as [s|s| |s m' e'];
    try destruct s; discriminate.
Qed.

Lemma efficiency_zero_sum_double (how : summation)
  (w : WorkflowMetrics.t) :
  PrimFloat.eqb (sum how (WorkflowMetrics.durations w)) 0 = true ->
  WorkflowMetrics.get_parallel_efficiency how w = Ok 0%float.
Proof.
  intros H. unfold WorkflowMetrics.get_parallel_efficiency.
  destruct (WorkflowMetrics.agents w) as [|a rest] eqn:E; [reflexivity|].
  rewrite (durations_cons w a rest E) in *. cbn [max rbind]. now rewrite H.
Qed.

(** X20.  In double arithmetic, for either way [sum] adds,
    [get_parallel_efficiency] returns 0.0 for an empty record list and
    when the durations add up to zero; when every duration is
    non-negative it never raises, and a maximum duration of zero makes it
    return 0.0 at the guard. *)
Theorem efficiency_never_raises_in_doubles (how : summation)
  (w : WorkflowMetrics.t) :
  (WorkflowMetrics.agents w = [] ->
   WorkflowMetrics.get_parallel_efficiency how w = Ok 0%float) /\
  (PrimFloat.eqb (sum how (WorkflowMetrics.durations w)) 0 = true ->
   WorkflowMetrics.get_parallel_efficiency how w = Ok 0%float) /\
  (non_negative (WorkflowMetrics.durations w) ->
   (Z.of_nat (List.length (WorkflowMetrics.agents w)) <= maxsize)%Z ->
   (exists r, WorkflowMetrics.get_parallel_efficiency how w = Ok r) /\
   (forall mx,
       is_maximum mx (WorkflowMetrics.durations w) ->
       PrimFloat.eqb mx 0 = true ->
       WorkflowMetrics.get_parallel_efficiency how w = Ok 0%float)).
Proof.
  split.
  { intros E. unfold WorkflowMetrics.get_parallel_efficiency. now rewrite E. }
  split; [apply efficiency_zero_sum_double|].
  intros Hnn Hlen. split; [now apply efficiency_returns_double|].
  intros mx Hmx Hz. apply efficiency_zero_sum_double.
  apply is_zero_eqb, sum_zeros.
  eapply zero_maximum_all_zero; eassumption.
Qed.

Lemma efficiency_never_raises_in_doubles_witness :
  WorkflowMetrics.get_parallel_efficiency left_to_right
    (workflow_with [0; 0]%float) = Ok 0%float /\
  exists r,
    WorkflowMetrics.get_parallel_efficiency compensated scenario_B = Ok r.
Proof.
  split.
  - apply (proj2 (proj2 (proj2 (efficiency_never_raises_in_doubles
                                  left_to_right
                                  (workflow_with [0; 0]%float)))
                   ltac:(repeat constructor)
                   ltac:(vm_compute; discriminate)) 0%float).
    + split; [left; reflexivity | repeat constructor].
    + reflexivity.
  - apply (proj1 (proj2 (proj2 (efficiency_never_raises_in_doubles
                                  compensated scenario_B))
                   ltac:(repeat constructor)
                   ltac:(vm_compute; discriminate))).
Defined.

(** X21.  Rounding shows in the efficiency.  Under left-to-right
    summation ten records of 0.1 seconds give 99.99999999999999, not
    100, and the records 0.1, 0.2, 0.3 give a different result when they
    are added in the opposite order.  Under either summation the records
    0.1 and 0.2 give 75.00000000000001 where 1.0 and 2.0 give 75.0, and
    the records 0.1, 0.0, 0.0 give 33.33333333333333, less than the
    double nearest to [100 / 3]. *)
Theorem efficiency_rounding_in_doubles :
  WorkflowMetrics.get_parallel_efficiency left_to_right
    (workflow_with (repeat one_tenth 10))
  = Ok 0x1.8ffffffffffffp+6%float /\
  PrimFloat.ltb 0x1.8ffffffffffffp+6 100 = true /\
  WorkflowMetrics.get_parallel_efficiency left_to_right
    (workflow_with [one_tenth; two_tenths; three_tenths])
  = Ok 0x1.0aaaaaaaaaaacp+6%float /\
  WorkflowMetrics.get_parallel_efficiency left_to_right
    (workflow_with [three_tenths; two_tenths; one_tenth])
  = Ok 0x1.0aaaaaaaaaaabp+6%float /\
  (forall how : summation,
      WorkflowMetrics.get_parallel_efficiency how
        (workflow_with [one_tenth; two_tenths])
      = Ok 0x1.2c00000000001p+6%float /\
      WorkflowMetrics.get_parallel_efficiency how
        (workflow_with [1; 2]%float)
      = Ok 75%float /\
      WorkflowMetrics.get_parallel_efficiency how
        (workflow_with [one_tenth; 0; 0]%float)
      = Ok 0x1.0aaaaaaaaaaaap+5%float) /\
  PrimFloat.ltb 0x1.0aaaaaaaaaaaap+5 (100 / 3) = true.
Proof. repeat split; destruct how; reflexivity. Qed.

Lemma timedelta_days_sign (d s us : Z) :
  (days (timedelta_new d s us) < 0
   <-> total_microseconds (timedelta_new d s us) < 0)%Z.
Proof.
  unfold total_microseconds, timedelta_new.
  cbn [days seconds microseconds]. change (10 ^ 6)%Z with 1000000%Z.
  pose proof (Z.mod_pos_bound us 1000000 ltac:(lia)).
  pose proof (Z.mod_pos_bound (s + us / 1000000) 86400 ltac:(lia)).
  lia.
Qed.

(** X22.  Subtraction of datetimes agrees with their order: for two
    datetimes [a] and [b], the microseconds of [a - b] compare with 0
    as [a] compares with [b]; [b - a] is the opposite of [a - b]; and
    the [days] field of [a - b] is negative exactly when [a < b]. *)
Theorem subtraction_agrees_with_order (a b : datetime) :
  in_range a -> in_range b ->
  (total_microseconds (sub a b) ?= 0)%Z = datetime_cmp a b /\
  total_microseconds (sub b a) = (- total_microseconds (sub a b))%Z /\
  ((days (sub a b) < 0)%Z <-> earlier a b).
Proof.
  intros Ha Hb.
  assert (Hc : (total_microseconds (sub a b) ?= 0)%Z = datetime_cmp a b).
  { rewrite sub_total_microseconds, <- (timestamp_compare a b Ha Hb).
    symmetry. apply Z.compare_sub. }
  split; [exact Hc|]. split.
  - rewrite !sub_total_microseconds. lia.
  - unfold sub at 1. rewrite timedelta_days_sign. fold (sub a b).
    unfold earlier. rewrite <- Hc. now rewrite Z.compare_lt_iff.
Qed.

Lemma subtraction_agrees_with_order_witness :
  (total_microseconds (sub noon five_past_noon) ?= 0)%Z = Lt /\
  days (sub noon five_past_noon) = (-1)%Z.
Proof.
  assert (R1 : in_range noon) by (cbv; intuition discriminate).
  assert (R2 : in_range five_past_noon) by (cbv; intuition discriminate).
  destruct (subtraction_agrees_with_order noon five_past_noon R1 R2)
    as [H _].
  split; [rewrite H; reflexivity | reflexivity].
Defined.

Lemma toordinal_tomorrow (d : datetime) :
  in_range d -> toordinal (tomorrow d) = (toordinal d + 1)%Z.
Proof.
  intros (Hy & Hm & Hd & _). unfold tomorrow, toordinal.
  destruct (day d <? days_in_month (year d) (month d))%Z eqn:E1.
  - cbn [year month day]. lia.
  - apply Z.ltb_ge in E1.
    destruct (month d <? 12)%Z eqn:E2; cbn [year month day].
    + apply Z.ltb_lt in E2. revert Hd E1 E2.
      unfold days_before_month, days_in_month.
      generalize (month d) Hm. intros m Hm'.
      each_month Hm'; table_lookups; destruct (is_leap (year d));
        cbn [andb]; lia.
    + apply Z.ltb_ge in E2. assert (Em : month d = 12%Z) by lia.
      rewrite Em in *. revert Hd E1.
      unfold days_before_month, days_in_month. table_lookups.
      destruct (is_leap_cases (year d)) as [[E Hs] | [E Hs]];
        rewrite Hs, E; cbn [andb]; lia.
Qed.

(** X23.  [toordinal] counts days: the day after a date has the next
    ordinal, so a datetime one calendar day later, at the same time of
    day, is 86 400 000 000 microseconds later, and [total_seconds()] of
    the difference is 86400.0. *)
Theorem one_day_is_86400_seconds (d : datetime) :
  in_range d ->
  toordinal (tomorrow d) = (toordinal d + 1)%Z /\
  total_microseconds (sub (tomorrow d) d) = 86400000000%Z /\
  total_seconds (sub (tomorrow d) d) = 86400%float.
Proof.
  intros Hd. pose proof (toordinal_tomorrow d Hd) as Ho.
  assert (Hus : total_microseconds (sub (tomorrow d) d) = 86400000000%Z).
  { rewrite sub_total_microseconds. unfold timestamp. rewrite Ho.
    unfold tomorrow.
    destruct (if (day d <? days_in_month (year d) (month d))%Z
              then _ else _) as [[y m] dd].
    cbn [hour minute second microsecond]. change (10 ^ 6)%Z with 1000000%Z.
    lia. }
  split; [exact Ho|]. split; [exact Hus|].
  unfold total_seconds. rewrite Hus. reflexivity.
Qed.

Lemma one_day_is_86400_seconds_witness :
  tomorrow (mk_datetime 2024 2 29 12 0 0 0) = mk_datetime 2024 3 1 12 0 0 0 /\
  total_seconds (sub (mk_datetime 2024 3 1 12 0 0 0)
                     (mk_datetime 2024 2 29 12 0 0 0)) = 86400%float.
Proof.
  split; [reflexivity|].
  apply (one_day_is_86400_seconds (mk_datetime 2024 2 29 12 0 0 0)).
  cbv; intuition discriminate.
Defined.

End DoubleReading.
